(** * TSL UMD protocol codec, TCP framer and stream reassembler

    A shallow embedding of the TypeScript sources of the TSL UMD tester:

    - [src/protocol/types.ts]   : the wire model (enums and message records);
    - [src/protocol/parser.ts]  : [TslParser] (detectVersion, parseV31, parseV40,
                                  parseV50, parse, hexDump);
    - [src/protocol/builder.ts] : [TslBuilder] (buildV31, buildV40, buildV50,
                                  wrapForTcp, unwrapFromTcp, createSimpleV31,
                                  createSimpleV50);
    - [src/main/network.ts]     : the receive loops [TcpServer.handleData] and
                                  [TcpClient.handleData];
    - [src/main/main.ts]        : the handler 'build-v50-tcp'.

    Conventions.  A Node [Buffer] is a list of bytes, each byte an integer of
    [Z] in 0..255 ([is_buffer]).  A JavaScript string is the list of its UTF-16
    code units ([JsString]).  A JavaScript [number] that holds an integer is an
    integer of [Z]; a store [buffer[i] = v] keeps [v mod 256] ([u8]).  Buffer
    lengths and offsets are natural numbers.  A method that returns [null] or
    throws returns [None]. *)

From Stdlib Require Import ZArith List Bool Lia.
Import ListNotations.
Local Open Scope Z_scope.

(* ================================================================== *)
(** * Wire model ([types.ts]) *)
(* ================================================================== *)

Inductive TallyState := TS_OFF | TS_RED | TS_GREEN | TS_AMBER.

Inductive Brightness := BR_OFF | BR_LOW | BR_MEDIUM | BR_FULL.

Inductive ProtocolVersion := V3_1 | V4_0 | V5_0.

(** Numeric value of the enum members, as declared in [types.ts]. *)
Definition TallyState_to_Z (t : TallyState) : Z :=
  match t with TS_OFF => 0 | TS_RED => 1 | TS_GREEN => 2 | TS_AMBER => 3 end.

Definition Brightness_to_Z (b : Brightness) : Z :=
  match b with BR_OFF => 0 | BR_LOW => 1 | BR_MEDIUM => 2 | BR_FULL => 3 end.

(** The casts [(n & 0x03) as TallyState] and [(n & 0x03) as Brightness]: the
    operand is always one of 0, 1, 2, 3. *)
Definition TallyState_of_Z (n : Z) : TallyState :=
  if n =? 0 then TS_OFF else if n =? 1 then TS_RED
  else if n =? 2 then TS_GREEN else TS_AMBER.

Definition Brightness_of_Z (n : Z) : Brightness :=
  if n =? 0 then BR_OFF else if n =? 1 then BR_LOW
  else if n =? 2 then BR_MEDIUM else BR_FULL.

(** A JavaScript string: its UTF-16 code units. *)
Definition JsString := list Z.

(** A Node Buffer: its bytes. *)
Definition Buffer := list Z.

Definition is_byte (b : Z) : bool := (0 <=? b) && (b <=? 255).
Definition is_buffer (buf : Buffer) : bool := forallb is_byte buf.

(** [TslBaseMessage]; a [TslV31Message] is a base message tagged '3.1'. *)
Record TslBaseMessage := mkBase {
  address : Z;
  tally1 : bool;
  tally2 : bool;
  tally3 : bool;
  tally4 : bool;
  brightness : Brightness;
  displayText : JsString
}.

(** The anonymous type of [leftDisplay] and [rightDisplay]. *)
Record TallyTriple := mkTriple {
  leftTally : TallyState;
  textTally : TallyState;
  rightTally : TallyState
}.

(** [TslV40Message extends TslBaseMessage]. *)
Record TslV40Message := mkV40 {
  base : TslBaseMessage;
  leftDisplay : TallyTriple;
  rightDisplay : TallyTriple
}.

(** [TslV50DisplayMessage]; the tally fields carry a [d] prefix because the
    names [leftTally], [textTally], [rightTally] are taken by [TallyTriple]. *)
Record TslV50DisplayMessage := mkDisplay {
  index : Z;
  dRightTally : TallyState;
  dTextTally : TallyState;
  dLeftTally : TallyState;
  dBrightness : Brightness;
  text : JsString
}.

Record TslV50Flags := mkFlags {
  unicode : bool;
  screenControl : bool
}.

Record TslV50Message := mkV50 {
  packetByteCount : Z;
  minorVersion : Z;
  flags : TslV50Flags;
  screen : Z;
  displays : list TslV50DisplayMessage
}.

(** [TslMessage = TslV31Message | TslV40Message | TslV50Message]; the
    constructor is the [version] tag. *)
Inductive TslMessage :=
| MsgV31 (m : TslBaseMessage)
| MsgV40 (m : TslV40Message)
| MsgV50 (m : TslV50Message).

Definition version (m : TslMessage) : ProtocolVersion :=
  match m with MsgV31 _ => V3_1 | MsgV40 _ => V4_0 | MsgV50 _ => V5_0 end.

(* ================================================================== *)
(** * Buffer primitives of Node *)
(* ================================================================== *)

(** [buffer[i]], read inside the buffer (every read of the sources is guarded
    by a length test). *)
Definition byteAt (buf : Buffer) (i : nat) : Z := nth i buf 0.

(** [buffer[i] = v] keeps the low eight bits of [v]. *)
Definition u8 (v : Z) : Z := v mod 256.

(** [buffer.readUInt16LE(off)]. *)
Definition readUInt16LE (buf : Buffer) (off : nat) : Z :=
  byteAt buf off + 256 * byteAt buf (off + 1).

(** [buffer.writeUInt16LE(v, off)]: the two bytes written, or [None] when Node
    throws ERR_OUT_OF_RANGE. *)
Definition writeUInt16LE (v : Z) : option Buffer :=
  if (0 <=? v) && (v <=? 65535) then Some [v mod 256; v / 256] else None.

(** [buffer.slice(a, b)] for [a <= b]. *)
Definition slice (buf : Buffer) (a b : nat) : Buffer :=
  firstn (b - a) (skipn a buf).

(** [Buffer.from(s, 'ascii')] and [buffer.write(s, .., 'ascii')]: Node encodes
    'ascii' as 'latin1', one byte per code unit, its low eight bits. *)
Definition asciiEncode (s : JsString) : Buffer := map (fun c => c mod 256) s.

(** [buffer.toString('ascii')]: Node clears the highest bit of every byte. *)
Definition asciiDecode (buf : Buffer) : JsString :=
  map (fun b => Z.land b 127) buf.

(** [Buffer.from(s, 'utf16le')]: two bytes per code unit, low byte first. *)
Definition utf16leEncode (s : JsString) : Buffer :=
  flat_map (fun c => [c mod 256; (c / 256) mod 256]) s.

(** [buffer.toString('utf16le')]: one code unit per pair of bytes; a last odd
    byte is dropped. *)
Fixpoint utf16leDecode (buf : Buffer) : JsString :=
  match buf with
  | lo :: hi :: rest => (lo + 256 * hi) :: utf16leDecode rest
  | _ => []
  end.

(* ================================================================== *)
(** * TslParser ([parser.ts]) *)
(* ================================================================== *)

(** The loop [for (i = 0; i < 18; i++) sum += buffer[i]]. *)
Definition sum18 (buf : Buffer) : Z :=
  fold_left (fun sum i => sum + byteAt buf i) (seq 0 18) 0.

(** [((~sum + 1) & 0x7F)]; on 32-bit integers [~sum] is [-sum - 1]. *)
Definition expectedChecksum (buf : Buffer) : Z :=
  Z.land (Z.lnot (sum18 buf) + 1) 127.

Definition headerInRange (header : Z) : bool :=
  (128 <=? header) && (header <=? 254).

Definition detectVersion (buffer : Buffer) : option ProtocolVersion :=
  if (length buffer <? 2)%nat then None
  else if (6 <=? length buffer)%nat
          && (readUInt16LE buffer 0 =? Z.of_nat (length buffer) - 2)
  then Some V5_0
  else
    let header := byteAt buffer 0 in
    if headerInRange header then
      if (18 <? length buffer)%nat
         && (byteAt buffer 18 =? expectedChecksum buffer)
      then Some V4_0
      else Some V3_1
    else None.

(** [.replace(/[\x00-\x1F\x7F]/g, ' ')] on one code unit. *)
Definition replaceControl (c : Z) : Z :=
  if ((0 <=? c) && (c <=? 31)) || (c =? 127) then 32 else c.

Definition parseV31 (buffer : Buffer) : option TslBaseMessage :=
  if (length buffer <? 18)%nat then None
  else
    let header := byteAt buffer 0 in
    if (header <? 128) || (254 <? header) then None
    else
      let control := byteAt buffer 1 in
      Some {| address := header - 128;
              tally1 := negb (Z.land control 1 =? 0);
              tally2 := negb (Z.land control 2 =? 0);
              tally3 := negb (Z.land control 4 =? 0);
              tally4 := negb (Z.land control 8 =? 0);
              brightness := Brightness_of_Z (Z.land (Z.shiftr control 4) 3);
              displayText :=
                map replaceControl (asciiDecode (slice buffer 2 18)) |}.

Definition parseTallyByte (byte : Z) : TallyTriple :=
  {| leftTally := TallyState_of_Z (Z.land (Z.shiftr byte 4) 3);
     textTally := TallyState_of_Z (Z.land (Z.shiftr byte 2) 3);
     rightTally := TallyState_of_Z (Z.land byte 3) |}.

Definition parseV40 (buffer : Buffer) : option TslV40Message :=
  if (length buffer <? 22)%nat then None
  else
    match parseV31 buffer with
    | None => None
    | Some v31 =>
      if negb (byteAt buffer 18 =? expectedChecksum buffer) then None
      else
        let vbc := byteAt buffer 19 in
        let xdataCount := Z.land vbc 15 in
        if Z.of_nat (length buffer) <? 20 + xdataCount then None
        else
          Some {| base := v31;
                  leftDisplay := parseTallyByte (byteAt buffer 20);
                  rightDisplay := parseTallyByte (byteAt buffer 21) |}
    end.

(** One iteration of the display loop of [parseV50], entered with
    [offset < buffer.length]: [None] is a [break], [Some (offset', d)] is the
    end of the body with the new offset and the display pushed. *)
Definition walkStep (buffer : Buffer) (uni : bool) (offset : nat)
  : option (nat * TslV50DisplayMessage) :=
  if (length buffer - offset <? 6)%nat then None
  else
    let index := readUInt16LE buffer offset in
    let control := readUInt16LE buffer (offset + 2) in
    let isControlData := negb (Z.land control 32768 =? 0) in
    if isControlData then None
    else
      let textLength := Z.to_nat (readUInt16LE buffer (offset + 4)) in
      let offset := (offset + 6)%nat in
      if (length buffer - offset <? textLength)%nat then None
      else
        let bytes := slice buffer offset (offset + textLength) in
        let text := if uni then utf16leDecode bytes else asciiDecode bytes in
        Some ((offset + textLength)%nat,
              {| index := index;
                 dRightTally := TallyState_of_Z (Z.land control 3);
                 dTextTally := TallyState_of_Z (Z.land (Z.shiftr control 2) 3);
                 dLeftTally := TallyState_of_Z (Z.land (Z.shiftr control 4) 3);
                 dBrightness := Brightness_of_Z (Z.land (Z.shiftr control 6) 3);
                 text := text |}).

(** The loop [while (offset < buffer.length) { ... }], unrolled at most [fuel]
    times; [None] means that the fuel ran out before the loop ended. *)
Fixpoint walk (fuel : nat) (buffer : Buffer) (uni : bool) (offset : nat)
    (acc : list TslV50DisplayMessage) : option (list TslV50DisplayMessage) :=
  if (offset <? length buffer)%nat then
    match fuel with
    | O => None
    | S fuel' =>
      match walkStep buffer uni offset with
      | None => Some acc
      | Some (offset', d) => walk fuel' buffer uni offset' (acc ++ [d])
      end
    end
  else Some acc.

(** [parseV50]; the display loop runs with as much fuel as the buffer has
    bytes, which it never exhausts ([walk_enough_fuel]). *)
Definition parseV50 (buffer : Buffer) : option TslV50Message :=
  if (length buffer <? 6)%nat then None
  else
    let pbc := readUInt16LE buffer 0 in
    if negb (pbc =? Z.of_nat (length buffer) - 2) then None
    else
      let ver := byteAt buffer 2 in
      let flagsByte := byteAt buffer 3 in
      let scr := readUInt16LE buffer 4 in
      let uni := negb (Z.land flagsByte 1 =? 0) in
      let sc := negb (Z.land flagsByte 2 =? 0) in
      if sc then
        Some {| packetByteCount := pbc; minorVersion := ver;
                flags := {| unicode := uni; screenControl := sc |};
                screen := scr; displays := [] |}
      else
        match walk (length buffer) buffer uni 6 [] with
        | None => None
        | Some ds =>
          Some {| packetByteCount := pbc; minorVersion := ver;
                  flags := {| unicode := uni; screenControl := sc |};
                  screen := scr; displays := ds |}
        end.

Definition parse (buffer : Buffer) : option TslMessage :=
  match detectVersion buffer with
  | Some V3_1 => option_map MsgV31 (parseV31 buffer)
  | Some V4_0 => option_map MsgV40 (parseV40 buffer)
  | Some V5_0 => option_map MsgV50 (parseV50 buffer)
  | None => None
  end.

(* ================================================================== *)
(** * TslBuilder ([builder.ts]) *)
(* ================================================================== *)

(** [s.padEnd(16, ' ').slice(0, 16)]. *)
Definition padEnd (s : JsString) (n : nat) (c : Z) : JsString :=
  s ++ repeat c (n - length s).

Definition pad16 (s : JsString) : JsString := firstn 16 (padEnd s 16 32).

(** The control byte of [buildV31]: tally bits, then
    [(brightness & 0x03) << 4]. *)
Definition controlByte (m : TslBaseMessage) : Z :=
  let control := 0 in
  let control := if tally1 m then Z.lor control 1 else control in
  let control := if tally2 m then Z.lor control 2 else control in
  let control := if tally3 m then Z.lor control 4 else control in
  let control := if tally4 m then Z.lor control 8 else control in
  Z.lor control (Z.shiftl (Z.land (Brightness_to_Z (brightness m)) 3) 4).

(** [buildV31]: the 18 bytes of a zero-filled buffer after the three stores
    (header, control, and the 16 code units of the text written as 'ascii'). *)
Definition buildV31 (message : TslBaseMessage) : Buffer :=
  u8 (address message + 128)
  :: u8 (controlByte message)
  :: asciiEncode (pad16 (displayText message)).

Definition buildTallyByte (display : TallyTriple) : Z :=
  Z.lor (Z.lor (Z.shiftl (Z.land (TallyState_to_Z (leftTally display)) 3) 4)
               (Z.shiftl (Z.land (TallyState_to_Z (textTally display)) 3) 2))
        (Z.land (TallyState_to_Z (rightTally display)) 3).

(** [buildV40]: the V3.1 bytes copied into a zero-filled buffer of 22 bytes,
    the checksum of its first 18 bytes (same loop and formula as in the
    parser), VBC and the two XDATA bytes. *)
Definition buildV40 (message : TslV40Message) : Buffer :=
  let v31Buffer := buildV31 (base message) in
  let buffer := v31Buffer ++ [0; 0; 0; 0] in
  v31Buffer
  ++ [u8 (expectedChecksum buffer); 2;
      u8 (buildTallyByte (leftDisplay message));
      u8 (buildTallyByte (rightDisplay message))].

(** [Buffer.from(display.text, unicode ? 'utf16le' : 'ascii')]. *)
Definition textBytes (uni : bool) (d : TslV50DisplayMessage) : Buffer :=
  if uni then utf16leEncode (text d) else asciiEncode (text d).

(** The first loop of [buildV50]. *)
Definition dataSize (message : TslV50Message) : Z :=
  fold_left
    (fun size d =>
       size + (6 + Z.of_nat (length (textBytes (unicode (flags message)) d))))
    (displays message) 4.

Definition displayControl (d : TslV50DisplayMessage) : Z :=
  let control := 0 in
  let control := Z.lor control (Z.land (TallyState_to_Z (dRightTally d)) 3) in
  let control :=
    Z.lor control (Z.shiftl (Z.land (TallyState_to_Z (dTextTally d)) 3) 2) in
  let control :=
    Z.lor control (Z.shiftl (Z.land (TallyState_to_Z (dLeftTally d)) 3) 4) in
  Z.lor control (Z.shiftl (Z.land (Brightness_to_Z (dBrightness d)) 3) 6).

(** The bytes that one iteration of the second loop of [buildV50] writes:
    INDEX, CONTROL, LENGTH, TEXT. *)
Definition buildDisplay (uni : bool) (d : TslV50DisplayMessage)
  : option Buffer :=
  match writeUInt16LE (index d) with
  | None => None
  | Some ib =>
    match writeUInt16LE (displayControl d) with
    | None => None
    | Some cb =>
      let tb := textBytes uni d in
      match writeUInt16LE (Z.of_nat (length tb)) with
      | None => None
      | Some lb => Some (ib ++ cb ++ lb ++ tb)
      end
    end
  end.

Fixpoint buildDisplays (uni : bool) (ds : list TslV50DisplayMessage)
  : option Buffer :=
  match ds with
  | [] => Some []
  | d :: rest =>
    match buildDisplay uni d with
    | None => None
    | Some b =>
      match buildDisplays uni rest with
      | None => None
      | Some bs => Some (b ++ bs)
      end
    end
  end.

Definition flagsByte (f : TslV50Flags) : Z :=
  let fl := 0 in
  let fl := if unicode f then Z.lor fl 1 else fl in
  if screenControl f then Z.lor fl 2 else fl.

(** [buildV50]: the buffer of [2 + dataSize] bytes is written front to back
    without gaps, so it is the concatenation of what the stores write; [None]
    when a [writeUInt16LE] throws.  The field [packetByteCount] of the message
    is not read. *)
Definition buildV50 (message : TslV50Message) : option Buffer :=
  match writeUInt16LE (dataSize message) with
  | None => None
  | Some pbc =>
    match writeUInt16LE (screen message) with
    | None => None
    | Some scr =>
      match buildDisplays (unicode (flags message)) (displays message) with
      | None => None
      | Some ds =>
        Some (pbc ++ [u8 (minorVersion message); u8 (flagsByte (flags message))]
                  ++ scr ++ ds)
      end
    end
  end.

Definition DLE : Z := 254.
Definition STX : Z := 2.

(** [wrapForTcp]: the delimiter, then every byte of the buffer, a DLE byte
    followed by a second DLE. *)
Definition wrapForTcp (buffer : Buffer) : Buffer :=
  DLE :: STX
  :: flat_map (fun byte => if byte =? DLE then [byte; DLE] else [byte]) buffer.

(** The first loop of [unwrapFromTcp]: the bytes from [start] on, where
    [start - 2] is the first position that holds DLE followed by STX. *)
Fixpoint findStart (buffer : Buffer) : option Buffer :=
  match buffer with
  | b0 :: tl =>
    match tl with
    | b1 :: rest =>
      if (b0 =? DLE) && (b1 =? STX) then Some rest else findStart tl
    | [] => None
    end
  | [] => None
  end.

(** The second loop of [unwrapFromTcp]: a DLE followed by a DLE gives one DLE
    and skips the second; any other byte is copied. *)
Fixpoint destuff (buffer : Buffer) : Buffer :=
  match buffer with
  | b0 :: tl =>
    match tl with
    | b1 :: rest =>
      if (b0 =? DLE) && (b1 =? DLE) then DLE :: destuff rest
      else b0 :: destuff tl
    | [] => [b0]
    end
  | [] => []
  end.

Definition unwrapFromTcp (buffer : Buffer) : option Buffer :=
  match findStart buffer with
  | None => None
  | Some payload => Some (destuff payload)
  end.

(* ================================================================== *)
(** * TcpServer.handleData ([network.ts]) *)
(* ================================================================== *)

(** [ParsedPacket], without the clock reading, the hex dump and the source
    label; [failed] is [error !== undefined]. *)
Record ParsedPacket := mkPacket {
  rawData : Buffer;
  parsed : option TslMessage;
  failed : bool
}.

Definition parsePacket (buffer : Buffer) : ParsedPacket :=
  let p := parse buffer in
  {| rawData := buffer;
     parsed := p;
     failed := match p with Some _ => false | None => true end |}.

(** The loop [while (this.receiveBuffer.length > 0)] of [handleData], unrolled
    at most [fuel] times: the receive buffer left and the packets emitted, in
    order; [None] means that the fuel ran out. *)
Fixpoint receiveLoop (fuel : nat) (receiveBuffer : Buffer)
  : option (Buffer * list ParsedPacket) :=
  if (0 <? length receiveBuffer)%nat then
    match fuel with
    | O => None
    | S fuel' =>
      match unwrapFromTcp receiveBuffer with
      | Some unwrapped => Some ([], [parsePacket unwrapped])
      | None =>
        let raw := Some ([], [parsePacket receiveBuffer]) in
        let continue packetLen :=
          match receiveLoop fuel' (skipn packetLen receiveBuffer) with
          | Some (buf, ps) =>
            Some (buf, parsePacket (firstn packetLen receiveBuffer) :: ps)
          | None => None
          end in
        if (18 <=? length receiveBuffer)%nat then
          match detectVersion receiveBuffer with
          | Some V3_1 =>
            if (18 <=? length receiveBuffer)%nat then continue 18%nat else raw
          | Some V4_0 =>
            if (22 <=? length receiveBuffer)%nat then continue 22%nat else raw
          | _ => raw
          end
        else raw
      end
    end
  else Some (receiveBuffer, []).

(** [handleData]: append the chunk, then run the loop. *)
Definition handleData (receiveBuffer data : Buffer)
  : option (Buffer * list ParsedPacket) :=
  let receiveBuffer := receiveBuffer ++ data in
  receiveLoop (S (length receiveBuffer)) receiveBuffer.

(** The chunks of one connection, handled in arrival order. *)
Fixpoint handleChunks (receiveBuffer : Buffer) (chunks : list Buffer)
  : option (Buffer * list ParsedPacket) :=
  match chunks with
  | [] => Some (receiveBuffer, [])
  | data :: rest =>
    match handleData receiveBuffer data with
    | None => None
    | Some (buf, ps) =>
      match handleChunks buf rest with
      | None => None
      | Some (buf', ps') => Some (buf', ps ++ ps')
      end
    end
  end.

(* ================================================================== *)
(** * Validity of wire-model values and expected decodings *)
(* ================================================================== *)

Definition isPrintable (c : Z) : bool := (32 <=? c) && (c <=? 126).
Definition isAscii7 (c : Z) : bool := (0 <=? c) && (c <=? 127).
Definition isU16 (v : Z) : bool := (0 <=? v) && (v <=? 65535).

(** A V3.1 value as the data model has it: the address in 0..126 and the 16
    characters that reach the wire printable. *)
Definition validV31 (m : TslBaseMessage) : bool :=
  (0 <=? address m) && (address m <=? 126)
  && forallb isPrintable (firstn 16 (displayText m)).

(** The message with its text padded or truncated to 16 characters. *)
Definition padded (m : TslBaseMessage) : TslBaseMessage :=
  {| address := address m;
     tally1 := tally1 m; tally2 := tally2 m;
     tally3 := tally3 m; tally4 := tally4 m;
     brightness := brightness m;
     displayText := pad16 (displayText m) |}.

Definition validV40 (m : TslV40Message) : bool := validV31 (base m).

Definition paddedV40 (m : TslV40Message) : TslV40Message :=
  {| base := padded (base m);
     leftDisplay := leftDisplay m;
     rightDisplay := rightDisplay m |}.

Definition validDisplay (uni : bool) (d : TslV50DisplayMessage) : bool :=
  isU16 (index d) && forallb (if uni then isU16 else isAscii7) (text d).

(** What [buildV50] needs in order not to throw. *)
Definition encodableV50 (m : TslV50Message) : bool :=
  isU16 (dataSize m) && isU16 (screen m)
  && forallb (fun d => isU16 (index d)) (displays m).

(** A V5.0 value that the codec carries unchanged: every field fits its wire
    width, the text fits the encoding that the unicode flag selects, the
    declared byte count is the one of the encoding, and a screen-control
    message has no display. *)
Definition validV50 (m : TslV50Message) : bool :=
  (packetByteCount m =? dataSize m)
  && isU16 (dataSize m)
  && is_byte (minorVersion m)
  && isU16 (screen m)
  && (negb (screenControl (flags m))
      || match displays m with [] => true | _ => false end)
  && forallb (validDisplay (unicode (flags m))) (displays m).

Definition validMessage (m : TslMessage) : bool :=
  match m with
  | MsgV31 b => validV31 b
  | MsgV40 v => validV40 v
  | MsgV50 v => validV50 v
  end.

(** The builder of the version of the message (the send handlers of
    [main.ts] call [buildV31], [buildV40] and [buildV50] on messages of the
    matching version). *)
Definition encode (m : TslMessage) : option Buffer :=
  match m with
  | MsgV31 b => Some (buildV31 b)
  | MsgV40 v => Some (buildV40 v)
  | MsgV50 v => buildV50 v
  end.

(** The parser of one given version. *)
Definition decodeAs (v : ProtocolVersion) (buffer : Buffer)
  : option TslMessage :=
  match v with
  | V3_1 => option_map MsgV31 (parseV31 buffer)
  | V4_0 => option_map MsgV40 (parseV40 buffer)
  | V5_0 => option_map MsgV50 (parseV50 buffer)
  end.

Definition expectedDecode (m : TslMessage) : TslMessage :=
  match m with
  | MsgV31 b => MsgV31 (padded b)
  | MsgV40 v => MsgV40 (paddedV40 v)
  | MsgV50 v => MsgV50 v
  end.

(** [buffer[i] = v] on a copy of the buffer, for [i] inside it. *)
Definition setByte (buf : Buffer) (i : nat) (v : Z) : Buffer :=
  firstn i buf ++ u8 v :: skipn (S i) buf.

(* ================================================================== *)
(** * Concrete inputs used by the examples *)
(* ================================================================== *)

(** A V3.1 packet (address 0, control 0) whose first text byte is 0xC1. *)
Definition highBytePacket : Buffer := 128 :: 0 :: 193 :: repeat 32 15.

(** The message with another declared byte count. *)
Definition withPacketByteCount (m : TslV50Message) (v : Z) : TslV50Message :=
  {| packetByteCount := v;
     minorVersion := minorVersion m;
     flags := flags m;
     screen := screen m;
     displays := displays m |}.

(** The size that the first loop of [buildV50] adds for one display. *)
Definition displaySize (uni : bool) (d : TslV50DisplayMessage) : Z :=
  6 + Z.of_nat (length (textBytes uni d)).

(** A V5.0 message whose encoding has 130 bytes (one display, 118
    characters of text): the declared byte count is 128 and the first byte of
    the encoding is 0x80. *)
Definition longTextV50 : TslV50Message :=
  {| packetByteCount := 128;
     minorVersion := 0;
     flags := {| unicode := false; screenControl := false |};
     screen := 0;
     displays := [ {| index := 0;
                      dRightTally := TS_OFF; dTextTally := TS_OFF;
                      dLeftTally := TS_OFF; dBrightness := BR_OFF;
                      text := repeat 65 118 |} ] |}.

(** What [createSimpleV50(1, "CAM 1")] hands to [buildV50]: the declared byte
    count is 0, "will be calculated". *)
Definition simpleV50 : TslV50Message :=
  {| packetByteCount := 0;
     minorVersion := 0;
     flags := {| unicode := false; screenControl := false |};
     screen := 0;
     displays := [ {| index := 1;
                      dRightTally := TS_OFF; dTextTally := TS_OFF;
                      dLeftTally := TS_OFF; dBrightness := BR_FULL;
                      text := [67; 65; 77; 32; 49] |} ] |}.

(** A V5.0 message with the screen-control flag and one display; every field
    is in range and the declared byte count is the one of its encoding. *)
Definition screenControlV50 : TslV50Message :=
  {| packetByteCount := 11;
     minorVersion := 0;
     flags := {| unicode := false; screenControl := true |};
     screen := 0;
     displays := [ {| index := 0;
                      dRightTally := TS_OFF; dTextTally := TS_OFF;
                      dLeftTally := TS_OFF; dBrightness := BR_OFF;
                      text := [65] |} ] |}.

(** A V3.1 message whose text is one TAB character. *)
Definition tabTextV31 : TslBaseMessage :=
  {| address := 1;
     tally1 := false; tally2 := false; tally3 := false; tally4 := false;
     brightness := BR_FULL;
     displayText := [9] |}.

(** The message of the example of the specification: address 1, tally 1,
    full brightness, text "CAM 1". *)
Definition cam1 : TslBaseMessage :=
  {| address := 1;
     tally1 := true; tally2 := false; tally3 := false; tally4 := false;
     brightness := BR_FULL;
     displayText := [67; 65; 77; 32; 49] |}.

(** A V4.0 message with address 0, every tally off, brightness off and the
    text "A": its first two bytes are 0x80 0x00. *)
Definition darkV40 : TslV40Message :=
  {| base := {| address := 0;
                tally1 := false; tally2 := false;
                tally3 := false; tally4 := false;
                brightness := BR_OFF;
                displayText := [65] |};
     leftDisplay := {| leftTally := TS_RED; textTally := TS_OFF;
                       rightTally := TS_GREEN |};
     rightDisplay := {| leftTally := TS_OFF; textTally := TS_AMBER;
                        rightTally := TS_OFF |} |}.

(* ================================================================== *)
(** * Chunks of whole V3.1 packets *)
(* ================================================================== *)

(** The bytes of a chunk that holds the packets of [grp], one after the
    other. *)
Definition chunkOf (grp : list TslBaseMessage) : Buffer :=
  concat (map buildV31 grp).

(** The packet starts with DLE STX: address 126 and control byte 0x02. *)
Definition startsWithDleStx (m : TslBaseMessage) : bool :=
  (address m =? 126) && (u8 (controlByte m) =? 2).

(** The first 16 bits of the packet, read little-endian, equal the length
    of [k] packets minus two. *)
Definition v50Alias (m : TslBaseMessage) (k : nat) : bool :=
  address m + 128 + 256 * u8 (controlByte m) =? 18 * Z.of_nat k - 2.

(** No packet of the chunk starts with DLE STX, and none looks like the
    byte count of a V5.0 packet that would end where the chunk ends. *)
Fixpoint chunkOk (grp : list TslBaseMessage) : bool :=
  match grp with
  | [] => true
  | m :: rest =>
    negb (startsWithDleStx m) && negb (v50Alias m (S (length rest)))
    && chunkOk rest
  end.

(** The validity that only bounds the address (the enum fields are in range
    by their type). *)
Definition addressInRange (m : TslMessage) : bool :=
  match m with
  | MsgV31 b => (0 <=? address b) && (address b <=? 126)
  | MsgV40 v => (0 <=? address (base v)) && (address (base v) <=? 126)
  | MsgV50 _ => true
  end.

(* ================================================================== *)
(** * TslBuilder helpers and TcpClient.handleData *)
(* ================================================================== *)

(** [createSimpleV31(address, text, tally1 = false, tally2 = false,
    brightness = Brightness.FULL)]; a caller that omits an argument passes
    its default. *)
Definition createSimpleV31 (address : Z) (text : JsString)
    (tally1 tally2 : bool) (brightness : Brightness) : Buffer :=
  buildV31 {| address := address;
              tally1 := tally1; tally2 := tally2;
              tally3 := false; tally4 := false;
              brightness := brightness;
              displayText := text |}.

(** [createSimpleV50(index, text, leftTally = OFF, rightTally = OFF,
    brightness = FULL, screen = 0)]. *)
Definition createSimpleV50 (index : Z) (text : JsString)
    (leftTally rightTally : TallyState) (brightness : Brightness)
    (screen : Z) : option Buffer :=
  buildV50 {| packetByteCount := 0;
              minorVersion := 0;
              flags := {| unicode := false; screenControl := false |};
              screen := screen;
              displays := [ {| index := index;
                               dRightTally := rightTally;
                               dTextTally := TS_OFF;
                               dLeftTally := leftTally;
                               dBrightness := brightness;
                               text := text |} ] |}.

(** The handler 'build-v50-tcp' of [main.ts]: [buildV50], then
    [wrapForTcp]. *)
Definition buildV50Tcp (message : TslV50Message) : option Buffer :=
  option_map wrapForTcp (buildV50 message).

(** The packet that [TcpClient.handleData] emits: it sets no [error]. *)
Definition clientPacket (buffer : Buffer) : ParsedPacket :=
  {| rawData := buffer; parsed := parse buffer; failed := false |}.

(** The loop of [TcpClient.handleData], unrolled at most [fuel] times.  A
    remainder that holds no whole packet stays in the receive buffer. *)
Fixpoint clientLoop (fuel : nat) (receiveBuffer : Buffer)
  : option (Buffer * list ParsedPacket) :=
  if (0 <? length receiveBuffer)%nat then
    match fuel with
    | O => None
    | S fuel' =>
      match unwrapFromTcp receiveBuffer with
      | Some unwrapped => Some ([], [clientPacket unwrapped])
      | None =>
        if (18 <=? length receiveBuffer)%nat then
          let version := detectVersion receiveBuffer in
          let packetLen :=
            match version with Some V4_0 => 22%nat | _ => 18%nat end in
          if (packetLen <=? length receiveBuffer)%nat then
            match clientLoop fuel' (skipn packetLen receiveBuffer) with
            | Some (buf, ps) =>
              Some (buf, clientPacket (firstn packetLen receiveBuffer) :: ps)
            | None => None
            end
          else Some (receiveBuffer, [])
        else Some (receiveBuffer, [])
      end
    end
  else Some (receiveBuffer, []).

Definition clientHandleData (receiveBuffer data : Buffer)
  : option (Buffer * list ParsedPacket) :=
  let receiveBuffer := receiveBuffer ++ data in
  clientLoop (S (length receiveBuffer)) receiveBuffer.

(** The chunks received by one client, in arrival order. *)
Fixpoint clientHandleChunks (receiveBuffer : Buffer) (chunks : list Buffer)
  : option (Buffer * list ParsedPacket) :=
  match chunks with
  | [] => Some (receiveBuffer, [])
  | data :: rest =>
    match clientHandleData receiveBuffer data with
    | None => None
    | Some (buf, ps) =>
      match clientHandleChunks buf rest with
      | None => None
      | Some (buf', ps') => Some (buf', ps ++ ps')
      end
    end
  end.

(* ================================================================== *)
(** * What the decoders make of encoded values in general *)
(* ================================================================== *)

(** The text that [parseV31] returns for the text [s] given to [buildV31]:
    padded to 16, every code unit cut to its low byte, then to 7 bits, and
    control characters replaced by spaces. *)
Definition sanitize16 (s : JsString) : JsString :=
  map (fun c => replaceControl (Z.land (c mod 256) 127)) (pad16 s).

(** The display that [parseV50] returns for the display [d] given to
    [buildV50]: in ASCII mode every code unit is cut to its low byte, then to
    7 bits. *)
Definition decodedDisplay (uni : bool) (d : TslV50DisplayMessage)
  : TslV50DisplayMessage :=
  {| index := index d;
     dRightTally := dRightTally d;
     dTextTally := dTextTally d;
     dLeftTally := dLeftTally d;
     dBrightness := dBrightness d;
     text := if uni then text d
             else map (fun c => Z.land (c mod 256) 127) (text d) |}.

(** The message that [parseV50] returns for the message [m] given to
    [buildV50]. *)
Definition decodedV50 (m : TslV50Message) : TslV50Message :=
  {| packetByteCount := dataSize m;
     minorVersion := u8 (minorVersion m);
     flags := flags m;
     screen := screen m;
     displays := if screenControl (flags m) then []
                 else map (decodedDisplay (unicode (flags m))) (displays m) |}.

(** A JavaScript string holds code units of 16 bits. *)
Definition isJsString (s : JsString) : bool := forallb isU16 s.

(** A V3.1 or V4.0 packet of a stream. *)
Inductive FixedMessage :=
| FixedV31 (m : TslBaseMessage)
| FixedV40 (m : TslV40Message).

Definition fixedBase (f : FixedMessage) : TslBaseMessage :=
  match f with FixedV31 m => m | FixedV40 m => base m end.

Definition fixedBytes (f : FixedMessage) : Buffer :=
  match f with FixedV31 m => buildV31 m | FixedV40 m => buildV40 m end.

Definition fixedDecoded (f : FixedMessage) : TslMessage :=
  match f with
  | FixedV31 m => MsgV31 (padded m)
  | FixedV40 m => MsgV40 (paddedV40 m)
  end.

(** The bytes of a chunk that holds the packets of [grp]. *)
Definition fixedChunk (grp : list FixedMessage) : Buffer :=
  concat (map fixedBytes grp).

(** No packet of the chunk starts with DLE STX, and none has first 16 bits
    equal to the number of bytes from its start to the end of the chunk
    minus two. *)
Fixpoint fixedChunkOk (grp : list FixedMessage) : bool :=
  match grp with
  | [] => true
  | f :: rest =>
    negb (startsWithDleStx (fixedBase f))
    && negb (address (fixedBase f) + 128
             + 256 * u8 (controlByte (fixedBase f))
             =? Z.of_nat (length (fixedChunk grp)) - 2)
    && fixedChunkOk rest
  end.

(** No packet of the stream starts with DLE STX, and none has first 16 bits
    that could equal a receive-buffer length minus two, whatever the
    chunks: they exceed the number of bytes from the packet to the end of the
    stream minus two. *)
Fixpoint streamOk (msgs : list TslBaseMessage) : bool :=
  match msgs with
  | [] => true
  | m :: rest =>
    negb (startsWithDleStx m)
    && (18 * Z.of_nat (S (length rest)) - 2
        <? address m + 128 + 256 * u8 (controlByte m))
    && streamOk rest
  end.

(* ================================================================== *)
(** * TslParser.hexDump ([parser.ts]) *)
(* ================================================================== *)

(** The character of one hexadecimal digit, lower case. *)
Definition hexDigit (d : Z) : Z := if d <? 10 then 48 + d else 87 + d.

Fixpoint toHexFuel (fuel : nat) (n : Z) : JsString :=
  match fuel with
  | O => []
  | S fuel' =>
    if n <? 16 then [hexDigit n]
    else toHexFuel fuel' (n / 16) ++ [hexDigit (n mod 16)]
  end.

(** [n.toString(16)] for an integer [n >= 0]: the hexadecimal digits of [n],
    most significant first, without leading zero. *)
Definition toString16 (n : Z) : JsString := toHexFuel (S (Z.to_nat n)) n.

(** [s.padStart(n, c)] for a one-character filler. *)
Definition padStart (s : JsString) (n : nat) (c : Z) : JsString :=
  repeat c (n - length s) ++ s.

(** [parts.join(sep)]. *)
Fixpoint join (sep : JsString) (parts : list JsString) : JsString :=
  match parts with
  | [] => []
  | p :: rest =>
    match rest with
    | [] => p
    | _ => p ++ sep ++ join sep rest
    end
  end.

(** [b.toString(16).padStart(2, '0')]. *)
Definition hexByte (b : Z) : JsString := padStart (toString16 b) 2 48.

(** [(b >= 0x20 && b <= 0x7E) ? String.fromCharCode(b) : '.']. *)
Definition asciiColumn (b : Z) : Z :=
  if (32 <=? b) && (b <=? 126) then b else 46.

(** The line pushed by the iteration at offset [i]: the offset in
    hexadecimal padded to 4, two spaces, the bytes in hexadecimal separated by
    spaces and padded to 48, two spaces, the bytes as characters. *)
Definition hexLine (buffer : Buffer) (i : nat) : JsString :=
  let sl := slice buffer i (Nat.min (i + 16) (length buffer)) in
  let hex := join [32] (map hexByte sl) in
  let ascii := map asciiColumn sl in
  padStart (toString16 (Z.of_nat i)) 4 48
  ++ [32; 32] ++ padEnd hex 48 32 ++ [32; 32] ++ ascii.

(** The loop [for (i = 0; i < buffer.length; i += 16)], unrolled at most
    [fuel] times. *)
Fixpoint hexDumpLines (fuel : nat) (buffer : Buffer) (i : nat)
  : list JsString :=
  match fuel with
  | O => []
  | S fuel' =>
    if (i <? length buffer)%nat
    then hexLine buffer i :: hexDumpLines fuel' buffer (i + 16)
    else []
  end.

Definition hexDump (buffer : Buffer) : JsString :=
  join [10] (hexDumpLines (length buffer) buffer 0).

(** The value of a string of hexadecimal digits. *)
Definition hexDigitValue (c : Z) : Z := if c <? 58 then c - 48 else c - 87.

Definition hexValue (s : JsString) : Z :=
  fold_left (fun acc c => 16 * acc + hexDigitValue c) s 0.

(* ================================================================== *)
(** * Version detection *)
(* ================================================================== *)

(** C8 (as stated, refuted): on [06 00 00 00 00 00] the candidate byte count
    is 6 and the length minus two is 4, so [detectVersion] does not answer
    V5.0; the header 0x06 is not a V3.1 header either, and the answer is
    [null]. *)
Lemma detectVersion_06_not_V50 :
  detectVersion [6; 0; 0; 0; 0; 0] <> Some V5_0.
Proof. vm_compute. discriminate. Qed.

(** C8 (amended): [detectVersion] answers [null] on [06 00 00 00 00 00]; the
    6-byte input whose first 16 bits are the length minus two is
    [04 00 00 00 00 00], and on it the answer is V5.0. *)
Theorem detectVersion_six_byte_examples :
  detectVersion [6; 0; 0; 0; 0; 0] = None
  /\ detectVersion [4; 0; 0; 0; 0; 0] = Some V5_0.
Proof. split; reflexivity. Qed.

Lemma detectVersion_V50_intro (buffer : Buffer) :
  (6 <= length buffer)%nat ->
  readUInt16LE buffer 0 = Z.of_nat (length buffer) - 2 ->
  detectVersion buffer = Some V5_0.
Proof.
  intros Hlen Hpbc. unfold detectVersion.
  destruct (Nat.ltb_spec (length buffer) 2) as [Hlt|_]; [lia|].
  destruct (Nat.leb_spec 6 (length buffer)) as [_|Hlt]; [|lia].
  rewrite Hpbc, Z.eqb_refl. reflexivity.
Qed.

Lemma detectVersion_V50_elim (buffer : Buffer) :
  detectVersion buffer = Some V5_0 ->
  (6 <= length buffer)%nat
  /\ readUInt16LE buffer 0 = Z.of_nat (length buffer) - 2.
Proof.
  unfold detectVersion.
  destruct (length buffer <? 2)%nat; [discriminate|].
  destruct (Nat.leb_spec 6 (length buffer)) as [Hle|Hlt]; cbn [andb].
  - destruct (Z.eqb_spec (readUInt16LE buffer 0) (Z.of_nat (length buffer) - 2))
      as [Heq|Hne].
    + intros _. split; assumption.
    + destruct (headerInRange _); [|discriminate].
      destruct (_ && _); discriminate.
  - destruct (headerInRange _); [|discriminate].
    destruct (_ && _); discriminate.
Qed.

(** C2: [detectVersion] answers V5.0 exactly on the buffers of at least six
    bytes whose first 16 bits, read little-endian, equal the length minus two;
    the test comes first, so such a buffer is V5.0 also when its first byte is
    a V3.1/V4.0 header (0x80..0xFE). *)
Theorem detectVersion_V50_iff_and_precedence (buffer : Buffer) :
  (detectVersion buffer = Some V5_0
   <-> (6 <= length buffer)%nat
       /\ readUInt16LE buffer 0 = Z.of_nat (length buffer) - 2)
  /\ ((6 <= length buffer)%nat ->
      readUInt16LE buffer 0 = Z.of_nat (length buffer) - 2 ->
      headerInRange (byteAt buffer 0) = true ->
      detectVersion buffer = Some V5_0).
Proof.
  split.
  - split.
    + apply detectVersion_V50_elim.
    + intros [Hlen Hpbc]. now apply detectVersion_V50_intro.
  - intros Hlen Hpbc _. now apply detectVersion_V50_intro.
Qed.

(** A buffer of 130 bytes that starts with the V3.1 header 0x80 and whose
    first 16 bits are 128: it is classified V5.0. *)
Lemma detectVersion_V50_iff_and_precedence_witness :
  let buffer := 128 :: repeat 0 129 in
  (6 <= length buffer)%nat
  /\ readUInt16LE buffer 0 = Z.of_nat (length buffer) - 2
  /\ headerInRange (byteAt buffer 0) = true
  /\ detectVersion buffer = Some V5_0.
Proof.
  intro buffer.
  assert (Hlen : (6 <= length buffer)%nat) by (vm_compute; lia).
  assert (Hpbc : readUInt16LE buffer 0 = Z.of_nat (length buffer) - 2)
    by reflexivity.
  assert (Hhdr : headerInRange (byteAt buffer 0) = true) by reflexivity.
  split; [exact Hlen|]. split; [exact Hpbc|]. split; [exact Hhdr|].
  exact (proj2 (detectVersion_V50_iff_and_precedence buffer) Hlen Hpbc Hhdr).
Defined.

(* ================================================================== *)
(** * TCP framing *)
(* ================================================================== *)

Lemma destuff_cons_other (b : Z) (tl : Buffer) :
  b <> DLE -> destuff (b :: tl) = b :: destuff tl.
Proof.
  intros Hb. destruct tl as [|b1 tl']; [reflexivity|].
  cbn [destuff].
  destruct (Z.eqb_spec b DLE) as [|_]; [contradiction|]. reflexivity.
Qed.

Lemma destuff_stuff (x : Buffer) :
  destuff (flat_map (fun byte => if byte =? DLE then [byte; DLE] else [byte]) x)
  = x.
Proof.
  induction x as [|b x IH]; [reflexivity|].
  cbn [flat_map].
  destruct (Z.eqb_spec b DLE) as [->|Hb].
  - cbn [app destuff]. rewrite Z.eqb_refl. cbn [andb]. now rewrite IH.
  - cbn [app]. rewrite destuff_cons_other by assumption. now rewrite IH.
Qed.

(** C5: unwrapping what [wrapForTcp] wrapped gives the byte sequence back,
    whatever bytes it holds (0xFE bytes, no byte at all); and
    [unwrapFromTcp] of [FE 02 01 FE FE 02] is [01 FE 02]. *)
Theorem unwrapFromTcp_wrapForTcp :
  (forall x : Buffer, unwrapFromTcp (wrapForTcp x) = Some x)
  /\ unwrapFromTcp (wrapForTcp []) = Some []
  /\ unwrapFromTcp (wrapForTcp [254; 1; 254; 254]) = Some [254; 1; 254; 254]
  /\ unwrapFromTcp [254; 2; 1; 254; 254; 2] = Some [1; 254; 2].
Proof.
  split; [|repeat split].
  intro x. unfold unwrapFromTcp, wrapForTcp.
  cbn [findStart]. rewrite !Z.eqb_refl. cbn [andb].
  now rewrite destuff_stuff.
Qed.

(* ================================================================== *)
(** * V3.1 display text *)
(* ================================================================== *)

Lemma land127_mod (b : Z) : Z.land b 127 = b mod 128.
Proof. exact (Z.land_ones b 7 ltac:(lia)). Qed.

Lemma land127_range (b : Z) : 0 <= Z.land b 127 <= 127.
Proof. rewrite land127_mod. pose proof (Z.mod_pos_bound b 128). lia. Qed.

Lemma land127_small (b : Z) : 0 <= b <= 127 -> Z.land b 127 = b.
Proof. intros H. rewrite land127_mod. apply Z.mod_small. lia. Qed.

Lemma replaceControl_printable (c : Z) :
  0 <= c <= 127 -> isPrintable (replaceControl c) = true.
Proof.
  intros H. unfold replaceControl, isPrintable.
  destruct (Z.leb_spec 0 c); destruct (Z.leb_spec c 31);
    destruct (Z.eqb_spec c 127); cbn [andb orb]; lia.
Qed.

Lemma replaceControl_cases (c : Z) :
  replaceControl c = if isPrintable c then c else
                       if isAscii7 c then 32 else c.
Proof.
  unfold replaceControl, isPrintable, isAscii7.
  destruct (Z.leb_spec 0 c); destruct (Z.leb_spec c 31);
    destruct (Z.eqb_spec c 127); destruct (Z.leb_spec 32 c);
    destruct (Z.leb_spec c 126); destruct (Z.leb_spec c 127);
    cbn [andb orb]; try reflexivity; lia.
Qed.

Lemma length_slice (buf : Buffer) (a b : nat) :
  (b <= length buf)%nat -> length (slice buf a b) = (b - a)%nat.
Proof.
  intros H. unfold slice. rewrite length_firstn, length_skipn. lia.
Qed.

Lemma nth_slice (buf : Buffer) (a b i : nat) :
  (i < b - a)%nat -> nth i (slice buf a b) 0 = byteAt buf (a + i).
Proof.
  intros H. unfold slice, byteAt.
  rewrite nth_firstn.
  destruct (Nat.ltb_spec i (b - a)); [|lia].
  now rewrite nth_skipn.
Qed.

Lemma parseV31_some (buffer : Buffer) :
  (18 <= length buffer)%nat ->
  headerInRange (byteAt buffer 0) = true ->
  parseV31 buffer
  = Some {| address := byteAt buffer 0 - 128;
            tally1 := negb (Z.land (byteAt buffer 1) 1 =? 0);
            tally2 := negb (Z.land (byteAt buffer 1) 2 =? 0);
            tally3 := negb (Z.land (byteAt buffer 1) 4 =? 0);
            tally4 := negb (Z.land (byteAt buffer 1) 8 =? 0);
            brightness :=
              Brightness_of_Z (Z.land (Z.shiftr (byteAt buffer 1) 4) 3);
            displayText :=
              map replaceControl (asciiDecode (slice buffer 2 18)) |}.
Proof.
  intros Hlen Hhdr. unfold parseV31.
  destruct (Nat.ltb_spec (length buffer) 18); [lia|].
  unfold headerInRange in Hhdr.
  apply andb_true_iff in Hhdr as [H1 H2].
  apply Z.leb_le in H1, H2.
  destruct (Z.ltb_spec (byteAt buffer 0) 128); [lia|].
  destruct (Z.ltb_spec 254 (byteAt buffer 0)); [lia|].
  reflexivity.
Qed.

(** C7 (as stated, refuted): the text byte 0xC1 is outside 0x20..0x7E, and
    the character decoded from it is 'A' (0x41), not a space; so it is not
    true that every character whose source byte is outside 0x20..0x7E is a
    space. *)
Lemma parseV31_high_byte_not_space :
  ((18 <= length highBytePacket)%nat
   /\ headerInRange (byteAt highBytePacket 0) = true
   /\ byteAt highBytePacket 2 = 193
   /\ isPrintable (byteAt highBytePacket 2) = false
   /\ option_map (fun m => nth 0 (displayText m) 0) (parseV31 highBytePacket)
      = Some 65)
  /\ ~ (forall (buffer : Buffer) (k : nat) (m : TslBaseMessage),
           (18 <= length buffer)%nat ->
           headerInRange (byteAt buffer 0) = true ->
           (k < 16)%nat ->
           parseV31 buffer = Some m ->
           isPrintable (byteAt buffer (2 + k)) = false ->
           nth k (displayText m) 0 = 32).
Proof.
  split.
  - vm_compute. repeat split; try lia; discriminate.
  - intros H.
    destruct (parseV31 highBytePacket) as [m|] eqn:Hm; [|discriminate Hm].
    assert (Hlen : (18 <= length highBytePacket)%nat) by (vm_compute; lia).
    specialize (H highBytePacket 0%nat m Hlen eq_refl ltac:(lia) Hm eq_refl).
    vm_compute in Hm. injection Hm as <-. discriminate H.
Qed.

(** C7 (amended): in V3.1 decoding the k-th character of the display text is
    computed from byte 2+k with its highest bit cleared (the 'ascii' decoding
    of Node): it is that 7-bit value when printable (0x20..0x7E) and a space
    otherwise.  So every decoded character is printable, every source byte in
    0x00..0x7F outside 0x20..0x7E gives a space, and a byte from 0x80 up gives
    the character of the byte minus 0x80 or a space. *)
Theorem parseV31_displayText_chars (buffer : Buffer) (k : nat) :
  (18 <= length buffer)%nat ->
  headerInRange (byteAt buffer 0) = true ->
  (k < 16)%nat ->
  exists m,
    parseV31 buffer = Some m
    /\ length (displayText m) = 16%nat
    /\ let b := byteAt buffer (2 + k) in
       let c := nth k (displayText m) 0 in
       c = (if isPrintable (Z.land b 127) then Z.land b 127 else 32)
       /\ isPrintable c = true
       /\ (isAscii7 b = true -> isPrintable b = false -> c = 32).
Proof.
  intros Hlen Hhdr Hk.
  eexists. split; [apply parseV31_some; assumption|].
  cbn [displayText]. split.
  - unfold asciiDecode. rewrite !length_map. apply length_slice. lia.
  - cbn zeta.
    assert (Hc : nth k (map replaceControl (asciiDecode (slice buffer 2 18))) 0
                 = replaceControl (Z.land (byteAt buffer (2 + k)) 127)).
    { unfold asciiDecode. rewrite map_map.
      rewrite nth_indep with (d' := replaceControl (Z.land 0 127))
        by (rewrite length_map, length_slice; lia).
      rewrite (map_nth (fun x => replaceControl (Z.land x 127))).
      now rewrite nth_slice by lia. }
    rewrite Hc.
    pose proof (land127_range (byteAt buffer (2 + k))) as Hr.
    split; [|split].
    + rewrite replaceControl_cases.
      destruct (isPrintable _); [reflexivity|].
      unfold isAscii7.
      destruct (Z.leb_spec 0 (Z.land (byteAt buffer (2 + k)) 127)); [|lia].
      destruct (Z.leb_spec (Z.land (byteAt buffer (2 + k)) 127) 127); [|lia].
      reflexivity.
    + now apply replaceControl_printable.
    + intros Ha Hp. unfold isAscii7 in Ha.
      apply andb_true_iff in Ha as [Ha1 Ha2]. apply Z.leb_le in Ha1, Ha2.
      rewrite land127_small by lia.
      rewrite replaceControl_cases, Hp.
      unfold isAscii7.
      destruct (Z.leb_spec 0 (byteAt buffer (2 + k))); [|lia].
      destruct (Z.leb_spec (byteAt buffer (2 + k)) 127); [|lia].
      reflexivity.
Qed.

(** The packet with the text byte 0xC1, at its first character. *)
Lemma parseV31_displayText_chars_witness :
  (18 <= length highBytePacket)%nat
  /\ headerInRange (byteAt highBytePacket 0) = true
  /\ (0 < 16)%nat
  /\ exists m,
       parseV31 highBytePacket = Some m
       /\ length (displayText m) = 16%nat
       /\ let b := byteAt highBytePacket (2 + 0) in
          let c := nth 0 (displayText m) 0 in
          c = (if isPrintable (Z.land b 127) then Z.land b 127 else 32)
          /\ isPrintable c = true
          /\ (isAscii7 b = true -> isPrintable b = false -> c = 32).
Proof.
  assert (H1 : (18 <= length highBytePacket)%nat) by (vm_compute; lia).
  assert (H2 : headerInRange (byteAt highBytePacket 0) = true) by reflexivity.
  assert (H3 : (0 < 16)%nat) by lia.
  split; [exact H1|]. split; [exact H2|]. split; [exact H3|].
  exact (parseV31_displayText_chars highBytePacket 0 H1 H2 H3).
Defined.

(* ================================================================== *)
(** * V5.0: the display walk *)
(* ================================================================== *)

Lemma walkStep_none_iff (buffer : Buffer) (uni : bool) (offset : nat) :
  walkStep buffer uni offset = None
  <-> (length buffer - offset < 6)%nat
      \/ Z.land (readUInt16LE buffer (offset + 2)) 32768 <> 0
      \/ (length buffer - (offset + 6)
          < Z.to_nat (readUInt16LE buffer (offset + 4)))%nat.
Proof.
  unfold walkStep.
  destruct (Nat.ltb_spec (length buffer - offset) 6) as [H6|H6].
  { split; [intros _; now left | reflexivity]. }
  destruct (Z.eqb_spec (Z.land (readUInt16LE buffer (offset + 2)) 32768) 0)
    as [Hc|Hc]; cbn [negb].
  - destruct (Nat.ltb_spec (length buffer - (offset + 6))
                (Z.to_nat (readUInt16LE buffer (offset + 4)))) as [Ht|Ht].
    + split; [intros _; right; now right | reflexivity].
    + split; [discriminate|]. intros [H|[H|H]]; [lia|contradiction|lia].
  - split; [intros _; right; now left | reflexivity].
Qed.

Lemma walkStep_advance (buffer : Buffer) (uni : bool) (offset offset' : nat)
    (d : TslV50DisplayMessage) :
  walkStep buffer uni offset = Some (offset', d) ->
  (offset + 6 <= offset' <= length buffer)%nat.
Proof.
  unfold walkStep.
  destruct (Nat.ltb_spec (length buffer - offset) 6) as [H6|H6];
    [discriminate|].
  destruct (negb _); [discriminate|].
  destruct (Nat.ltb_spec (length buffer - (offset + 6))
              (Z.to_nat (readUInt16LE buffer (offset + 4)))) as [Ht|Ht];
    [discriminate|].
  intros H. injection H as <- _. lia.
Qed.

Lemma walk_enough_fuel (buffer : Buffer) (uni : bool) (fuel : nat) :
  forall offset acc,
    (length buffer - offset <= fuel)%nat ->
    exists ds, walk fuel buffer uni offset acc = Some ds.
Proof.
  induction fuel as [|fuel IH]; intros offset acc Hfuel; cbn [walk].
  - destruct (Nat.ltb_spec offset (length buffer)); [lia|]. now exists acc.
  - destruct (Nat.ltb_spec offset (length buffer)) as [Hlt|Hge];
      [|now exists acc].
    destruct (walkStep buffer uni offset) as [[offset' d]|] eqn:Hstep;
      [|now exists acc].
    apply walkStep_advance in Hstep. apply IH. lia.
Qed.

Lemma parseV50_none_iff (buffer : Buffer) :
  parseV50 buffer = None
  <-> (length buffer < 6)%nat
      \/ readUInt16LE buffer 0 <> Z.of_nat (length buffer) - 2.
Proof.
  unfold parseV50.
  destruct (Nat.ltb_spec (length buffer) 6) as [H6|H6].
  { split; [intros _; now left | reflexivity]. }
  destruct (Z.eqb_spec (readUInt16LE buffer 0) (Z.of_nat (length buffer) - 2))
    as [Hp|Hp]; cbn [negb].
  - split; [|intros [H|H]; [lia|contradiction]].
    destruct (negb (Z.land (byteAt buffer 3) 2 =? 0)); [discriminate|].
    destruct (walk_enough_fuel buffer
                (negb (Z.land (byteAt buffer 3) 1 =? 0))
                (length buffer) 6 []) as [ds Hds]; [lia|].
    rewrite Hds. discriminate.
  - split; [intros _; now right | reflexivity].
Qed.

Lemma parseV50_packetByteCount (buffer : Buffer) (m : TslV50Message) :
  parseV50 buffer = Some m -> packetByteCount m = readUInt16LE buffer 0.
Proof.
  unfold parseV50.
  destruct (length buffer <? 6)%nat; [discriminate|].
  destruct (negb (readUInt16LE buffer 0 =? _)); [discriminate|].
  destruct (negb (Z.land (byteAt buffer 3) 2 =? 0)).
  - intros H. injection H as <-. reflexivity.
  - destruct (walk _ _ _ _ _); [|discriminate].
    intros H. injection H as <-. reflexivity.
Qed.

(** C10: the display loop of [parseV50] ends on every buffer.  An iteration
    leaves the loop exactly when fewer than six bytes remain, or the
    control-data bit is set, or the declared text length exceeds the bytes
    left; otherwise it moves the offset forward by at least six bytes and not
    past the end.  So the loop, unrolled as many times as the buffer has
    bytes, always ends, and [parseV50] answers on every buffer: [null] exactly
    on the two structural failures, a message otherwise. *)
Theorem parseV50_walk_terminates (buffer : Buffer) (uni : bool) :
  (forall offset,
      match walkStep buffer uni offset with
      | None =>
        (length buffer - offset < 6)%nat
        \/ Z.land (readUInt16LE buffer (offset + 2)) 32768 <> 0
        \/ (length buffer - (offset + 6)
            < Z.to_nat (readUInt16LE buffer (offset + 4)))%nat
      | Some (offset', _) => (offset + 6 <= offset' <= length buffer)%nat
      end)
  /\ (forall offset acc,
         exists ds,
           walk (length buffer - offset) buffer uni offset acc = Some ds)
  /\ (exists ds, walk (length buffer) buffer uni 6 [] = Some ds)
  /\ (parseV50 buffer = None
      <-> (length buffer < 6)%nat
          \/ readUInt16LE buffer 0 <> Z.of_nat (length buffer) - 2)
  /\ ((6 <= length buffer)%nat ->
      readUInt16LE buffer 0 = Z.of_nat (length buffer) - 2 ->
      exists m, parseV50 buffer = Some m).
Proof.
  split; [|split; [|split; [|split]]].
  - intros offset.
    destruct (walkStep buffer uni offset) as [[offset' d]|] eqn:Hstep.
    + now apply walkStep_advance in Hstep.
    + now apply (proj1 (walkStep_none_iff buffer uni offset)).
  - intros offset acc. apply walk_enough_fuel. lia.
  - apply walk_enough_fuel. lia.
  - apply parseV50_none_iff.
  - intros Hlen Hpbc.
    destruct (parseV50 buffer) as [m|] eqn:Hp; [now exists m|].
    apply parseV50_none_iff in Hp. destruct Hp; [lia|contradiction].
Qed.

(* ================================================================== *)
(** * V5.0: the encoder and the packet byte count *)
(* ================================================================== *)

Lemma isU16_spec (v : Z) : isU16 v = true <-> 0 <= v <= 65535.
Proof.
  unfold isU16. rewrite andb_true_iff, !Z.leb_le. tauto.
Qed.

Lemma writeUInt16LE_some (v : Z) :
  isU16 v = true -> writeUInt16LE v = Some [v mod 256; v / 256].
Proof. unfold writeUInt16LE, isU16. now intros ->. Qed.

Lemma writeUInt16LE_inv (v : Z) (b : Buffer) :
  writeUInt16LE v = Some b -> isU16 v = true /\ b = [v mod 256; v / 256].
Proof.
  unfold writeUInt16LE, isU16.
  destruct (_ && _); [|discriminate]. intros H. injection H as <-. now split.
Qed.

Lemma u16_recompose (v : Z) : v mod 256 + 256 * (v / 256) = v.
Proof. pose proof (Z.div_mod v 256). lia. Qed.

Lemma displayControl_range (d : TslV50DisplayMessage) :
  0 <= displayControl d <= 255.
Proof.
  destruct d as [i r t l b s]. unfold displayControl. cbn [dRightTally
    dTextTally dLeftTally dBrightness].
  destruct r, t, l, b; vm_compute; split; discriminate.
Qed.

Lemma displaySize_eq (uni : bool) (d : TslV50DisplayMessage) :
  displaySize uni d = 6 + Z.of_nat (length (textBytes uni d)).
Proof. reflexivity. Qed.

Lemma dataSize_acc (uni : bool) (ds : list TslV50DisplayMessage) (a : Z) :
  fold_left (fun size d => size + (6 + Z.of_nat (length (textBytes uni d))))
            ds a
  = a + fold_right (fun d s => displaySize uni d + s) 0 ds.
Proof.
  revert a. induction ds as [|d ds IH]; intros a; cbn [fold_left fold_right].
  - lia.
  - rewrite IH, (displaySize_eq uni d). lia.
Qed.

Lemma dataSize_eq (m : TslV50Message) :
  dataSize m
  = 4 + fold_right (fun d s => displaySize (unicode (flags m)) d + s) 0
                   (displays m).
Proof. unfold dataSize. apply dataSize_acc. Qed.

Lemma buildDisplay_inv (uni : bool) (d : TslV50DisplayMessage) (b : Buffer) :
  buildDisplay uni d = Some b ->
  isU16 (index d) = true
  /\ isU16 (Z.of_nat (length (textBytes uni d))) = true
  /\ b = [index d mod 256; index d / 256;
          displayControl d mod 256; displayControl d / 256;
          Z.of_nat (length (textBytes uni d)) mod 256;
          Z.of_nat (length (textBytes uni d)) / 256]
         ++ textBytes uni d.
Proof.
  unfold buildDisplay.
  destruct (writeUInt16LE (index d)) as [ib|] eqn:Hi; [|discriminate].
  destruct (writeUInt16LE (displayControl d)) as [cb|] eqn:Hc; [|discriminate].
  destruct (writeUInt16LE (Z.of_nat _)) as [lb|] eqn:Hl; [|discriminate].
  apply writeUInt16LE_inv in Hi as [Hi ->].
  apply writeUInt16LE_inv in Hc as [Hc ->].
  apply writeUInt16LE_inv in Hl as [Hl ->].
  intros H. injection H as <-. repeat split; assumption.
Qed.

Lemma buildDisplay_some (uni : bool) (d : TslV50DisplayMessage) :
  isU16 (index d) = true ->
  isU16 (Z.of_nat (length (textBytes uni d))) = true ->
  exists b, buildDisplay uni d = Some b.
Proof.
  intros Hi Hl. unfold buildDisplay.
  rewrite (writeUInt16LE_some _ Hi).
  rewrite (writeUInt16LE_some (displayControl d))
    by (apply isU16_spec; pose proof (displayControl_range d); lia).
  rewrite (writeUInt16LE_some _ Hl). eauto.
Qed.

Lemma buildDisplays_length (uni : bool) (ds : list TslV50DisplayMessage) :
  forall bs,
    buildDisplays uni ds = Some bs ->
    Z.of_nat (length bs) = fold_right (fun d s => displaySize uni d + s) 0 ds.
Proof.
  induction ds as [|d ds IH]; intros bs; cbn [buildDisplays fold_right].
  - intros H. injection H as <-. reflexivity.
  - destruct (buildDisplay uni d) as [b|] eqn:Hd; [|discriminate].
    destruct (buildDisplays uni ds) as [bs'|]; [|discriminate].
    intros H. injection H as <-.
    apply buildDisplay_inv in Hd as (_ & _ & ->).
    rewrite length_app, Nat2Z.inj_add, (IH bs' eq_refl), length_app.
    rewrite (displaySize_eq uni d). cbn [length]. lia.
Qed.

Lemma displaysSize_nonneg (uni : bool) (ds : list TslV50DisplayMessage) :
  0 <= fold_right (fun d s => displaySize uni d + s) 0 ds.
Proof.
  induction ds as [|d ds IH]; cbn [fold_right]; [lia|].
  pose proof (displaySize_eq uni d). lia.
Qed.

Lemma buildDisplays_some (uni : bool) (ds : list TslV50DisplayMessage) :
  forallb (fun d => isU16 (index d)) ds = true ->
  fold_right (fun d s => displaySize uni d + s) 0 ds <= 65535 ->
  exists bs, buildDisplays uni ds = Some bs.
Proof.
  induction ds as [|d ds IH]; cbn [forallb fold_right buildDisplays].
  - eauto.
  - intros Hidx Hsize. apply andb_true_iff in Hidx as [Hi Hrest].
    pose proof (displaysSize_nonneg uni ds) as Hnn.
    pose proof (displaySize_eq uni d) as Hd.
    destruct (buildDisplay_some uni d Hi) as [b ->].
    { apply isU16_spec. lia. }
    destruct (IH Hrest) as [bs ->]; [lia|].
    eauto.
Qed.

Lemma buildV50_inv (m : TslV50Message) (buf : Buffer) :
  buildV50 m = Some buf ->
  exists bs,
    buildDisplays (unicode (flags m)) (displays m) = Some bs
    /\ isU16 (dataSize m) = true
    /\ isU16 (screen m) = true
    /\ buf = [dataSize m mod 256; dataSize m / 256;
              u8 (minorVersion m); u8 (flagsByte (flags m));
              screen m mod 256; screen m / 256] ++ bs.
Proof.
  unfold buildV50.
  destruct (writeUInt16LE (dataSize m)) as [pb|] eqn:Hp; [|discriminate].
  destruct (writeUInt16LE (screen m)) as [sb|] eqn:Hs; [|discriminate].
  destruct (buildDisplays _ _) as [bs|]; [|discriminate].
  apply writeUInt16LE_inv in Hp as [Hp ->].
  apply writeUInt16LE_inv in Hs as [Hs ->].
  intros H. injection H as <-. exists bs. repeat split; assumption.
Qed.

Lemma buildV50_some (m : TslV50Message) :
  encodableV50 m = true -> exists buf, buildV50 m = Some buf.
Proof.
  unfold encodableV50. intros H.
  apply andb_true_iff in H as [H Hidx]. apply andb_true_iff in H as [Hsz Hscr].
  unfold buildV50.
  rewrite (writeUInt16LE_some _ Hsz), (writeUInt16LE_some _ Hscr).
  destruct (buildDisplays_some (unicode (flags m)) (displays m) Hidx)
    as [bs ->]; [|eauto].
  apply isU16_spec in Hsz. rewrite dataSize_eq in Hsz. lia.
Qed.

(** The byte count at the front of an encoding is its length minus two. *)
Lemma buildV50_pbc (m : TslV50Message) (buf : Buffer) :
  buildV50 m = Some buf ->
  (6 <= length buf)%nat
  /\ Z.of_nat (length buf) = dataSize m + 2
  /\ readUInt16LE buf 0 = dataSize m.
Proof.
  intros H. apply buildV50_inv in H as (bs & Hbs & Hsz & _ & ->).
  apply buildDisplays_length in Hbs.
  split; [cbn [length app]; lia|]. split.
  - rewrite dataSize_eq, <- Hbs, length_app, Nat2Z.inj_add. cbn [length]. lia.
  - unfold readUInt16LE, byteAt. cbn [nth app Nat.add]. apply u16_recompose.
Qed.

Lemma parse_V50_only_if_detected (buffer : Buffer) (y : TslV50Message) :
  parse buffer = Some (MsgV50 y) -> detectVersion buffer = Some V5_0.
Proof.
  unfold parse. destruct (detectVersion buffer) as [[| |]|];
    try discriminate; try reflexivity.
  - destruct (parseV31 buffer); discriminate.
  - destruct (parseV40 buffer); discriminate.
Qed.

(** C9: [buildV50] does not read the [packetByteCount] of its input.  For
    every V5.0 message that it encodes (the computed size, the screen and the
    display indices fit 16 bits, else [writeUInt16LE] throws), whatever
    [packetByteCount] holds, the same buffer comes out; its first 16 bits are
    the size recomputed from the content, 4 plus 6 plus the text byte length
    per display, which is the length of the buffer minus two; and decoding the
    buffer gives a V5.0 message that carries this recomputed count. *)
Theorem buildV50_recomputes_packetByteCount (x : TslV50Message) :
  encodableV50 x = true ->
  exists buf,
    buildV50 x = Some buf
    /\ (forall v, buildV50 (withPacketByteCount x v) = Some buf)
    /\ dataSize x
       = 4 + fold_right
               (fun d s => 6 + Z.of_nat (length (textBytes (unicode (flags x)) d))
                           + s)
               0 (displays x)
    /\ readUInt16LE buf 0 = dataSize x
    /\ readUInt16LE buf 0 = Z.of_nat (length buf) - 2
    /\ exists msg,
         parse buf = Some (MsgV50 msg)
         /\ packetByteCount msg = dataSize x.
Proof.
  intros Henc. destruct (buildV50_some x Henc) as [buf Hbuf].
  exists buf. destruct (buildV50_pbc x buf Hbuf) as (Hlen & Hsize & Hpbc).
  split; [exact Hbuf|]. split; [intros v; exact Hbuf|].
  split; [apply dataSize_eq|]. split; [exact Hpbc|].
  assert (Hinv : readUInt16LE buf 0 = Z.of_nat (length buf) - 2) by lia.
  split; [exact Hinv|].
  destruct (parseV50 buf) as [msg|] eqn:Hparse.
  - exists msg. split.
    + unfold parse. rewrite (detectVersion_V50_intro buf Hlen Hinv), Hparse.
      reflexivity.
    + rewrite (parseV50_packetByteCount buf msg Hparse). exact Hpbc.
  - apply parseV50_none_iff in Hparse. destruct Hparse; [lia|contradiction].
Qed.

(** The message of [createSimpleV50], which declares a byte count of 0: its
    encoding starts with the count 15, and decodes to a message that declares
    15. *)
Lemma buildV50_recomputes_packetByteCount_witness :
  encodableV50 simpleV50 = true
  /\ exists buf,
       buildV50 simpleV50 = Some buf
       /\ (forall v, buildV50 (withPacketByteCount simpleV50 v) = Some buf)
       /\ dataSize simpleV50
          = 4 + fold_right
                  (fun d s =>
                     6 + Z.of_nat
                           (length (textBytes (unicode (flags simpleV50)) d))
                     + s)
                  0 (displays simpleV50)
       /\ readUInt16LE buf 0 = dataSize simpleV50
       /\ readUInt16LE buf 0 = Z.of_nat (length buf) - 2
       /\ exists msg,
            parse buf = Some (MsgV50 msg)
            /\ packetByteCount msg = dataSize simpleV50.
Proof.
  assert (H : encodableV50 simpleV50 = true) by reflexivity.
  split; [exact H|].
  exact (buildV50_recomputes_packetByteCount simpleV50 H).
Defined.

Lemma length_removelast_pred (buf : Buffer) :
  length (removelast buf) = pred (length buf).
Proof.
  rewrite removelast_firstn_len, length_firstn. lia.
Qed.

Lemma byteAt_removelast (buf : Buffer) (i : nat) :
  (i < pred (length buf))%nat -> byteAt (removelast buf) i = byteAt buf i.
Proof.
  intros H. unfold byteAt.
  rewrite removelast_firstn_len, nth_firstn.
  destruct (Nat.ltb_spec i (pred (length buf))); [reflexivity|lia].
Qed.

Lemma byteAt_app_l (buf extra : Buffer) (i : nat) :
  (i < length buf)%nat -> byteAt (buf ++ extra) i = byteAt buf i.
Proof. intros H. unfold byteAt. now apply app_nth1. Qed.

(** C4 (as stated, refuted): the encoding of [longTextV50] has 130 bytes and
    starts with 0x80.  With one byte appended, or with its last byte removed,
    the V5.0 test of [detectVersion] fails, the first byte passes for a V3.1
    header, and [parse] returns a V3.1 message, not a failure. *)
Lemma parse_resized_V50_is_V31 :
  (option_map (fun buf => option_map version (parse (buf ++ [0])))
              (buildV50 longTextV50)
   = Some (Some V3_1)
   /\ option_map (fun buf => option_map version (parse (removelast buf)))
                 (buildV50 longTextV50)
      = Some (Some V3_1))
  /\ ~ (forall (x : TslV50Message) (buf : Buffer) (b : Z),
           buildV50 x = Some buf ->
           parse (removelast buf) = None /\ parse (buf ++ [b]) = None).
Proof.
  split.
  - split; vm_compute; reflexivity.
  - intros H.
    destruct (buildV50 longTextV50) as [buf|] eqn:Hb; [|discriminate Hb].
    destruct (H longTextV50 buf 0 Hb) as [_ Hp].
    vm_compute in Hb. injection Hb as <-.
    vm_compute in Hp. discriminate Hp.
Qed.

(** C4 (amended): for any buffer produced by [buildV50], removing its last
    byte or appending one byte gives a buffer that the V5.0 decoder
    [parseV50] rejects and that [detectVersion] does not classify V5.0, because
    the stored byte count no longer equals the length minus two; so [parse]
    never returns a V5.0 message for it (it returns a failure or, when the
    first byte lies in 0x80..0xFE, what the V3.1/V4.0 decoder makes of the
    bytes). *)
Theorem parseV50_rejects_resized (x : TslV50Message) (buf : Buffer) (b : Z) :
  buildV50 x = Some buf ->
  parseV50 (removelast buf) = None
  /\ parseV50 (buf ++ [b]) = None
  /\ detectVersion (removelast buf) <> Some V5_0
  /\ detectVersion (buf ++ [b]) <> Some V5_0
  /\ (forall y, parse (removelast buf) <> Some (MsgV50 y))
  /\ (forall y, parse (buf ++ [b]) <> Some (MsgV50 y)).
Proof.
  intros Hbuild. destruct (buildV50_pbc x buf Hbuild) as (Hlen & Hsize & Hpbc).
  assert (Hshort :
            (length (removelast buf) < 6)%nat
            \/ readUInt16LE (removelast buf) 0
               <> Z.of_nat (length (removelast buf)) - 2).
  { rewrite length_removelast_pred.
    destruct (Nat.eq_dec (length buf) 6) as [H6|H6]; [left; lia|right].
    unfold readUInt16LE. rewrite !byteAt_removelast by (cbn; lia).
    fold (readUInt16LE buf 0). lia. }
  assert (Hlong :
            (length (buf ++ [b]) < 6)%nat
            \/ readUInt16LE (buf ++ [b]) 0
               <> Z.of_nat (length (buf ++ [b])) - 2).
  { right. rewrite length_app. cbn [length].
    unfold readUInt16LE. rewrite !byteAt_app_l by (cbn; lia).
    fold (readUInt16LE buf 0). lia. }
  assert (Hd1 : detectVersion (removelast buf) <> Some V5_0).
  { intros H. apply detectVersion_V50_elim in H. destruct Hshort; lia. }
  assert (Hd2 : detectVersion (buf ++ [b]) <> Some V5_0).
  { intros H. apply detectVersion_V50_elim in H. destruct Hlong; lia. }
  split; [now apply parseV50_none_iff|].
  split; [now apply parseV50_none_iff|].
  split; [exact Hd1|]. split; [exact Hd2|].
  split; intros y Hy; apply parse_V50_only_if_detected in Hy; contradiction.
Qed.

(** The encoding of [longTextV50], and the appended byte 0. *)
Lemma parseV50_rejects_resized_witness :
  let buf := 128 :: 0 :: 0 :: 0 :: 0 :: 0
             :: 0 :: 0 :: 0 :: 0 :: 118 :: 0 :: repeat 65 118 in
  buildV50 longTextV50 = Some buf
  /\ parseV50 (removelast buf) = None
  /\ parseV50 (buf ++ [0]) = None
  /\ detectVersion (removelast buf) <> Some V5_0
  /\ detectVersion (buf ++ [0]) <> Some V5_0
  /\ (forall y, parse (removelast buf) <> Some (MsgV50 y))
  /\ (forall y, parse (buf ++ [0]) <> Some (MsgV50 y)).
Proof.
  intro buf.
  assert (H : buildV50 longTextV50 = Some buf) by reflexivity.
  split; [exact H|].
  exact (parseV50_rejects_resized longTextV50 buf 0 H).
Defined.

(* ================================================================== *)
(** * Round trip, V3.1 and V4.0 *)
(* ================================================================== *)

Lemma firstn_exact {A : Type} (n : nat) (l r : list A) :
  length l = n -> firstn n (l ++ r) = l.
Proof.
  intros <-. rewrite firstn_app, Nat.sub_diag, firstn_all, firstn_O.
  apply app_nil_r.
Qed.

Lemma isPrintable_spec (c : Z) : isPrintable c = true <-> 32 <= c <= 126.
Proof. unfold isPrintable. rewrite andb_true_iff, !Z.leb_le. tauto. Qed.

Lemma pad16_eq (s : JsString) :
  pad16 s = firstn 16 s ++ repeat 32 (16 - length s).
Proof.
  unfold pad16, padEnd. rewrite firstn_app.
  f_equal. apply firstn_all2. rewrite repeat_length. lia.
Qed.

Lemma pad16_length (s : JsString) : length (pad16 s) = 16%nat.
Proof.
  rewrite pad16_eq, length_app, length_firstn, repeat_length. lia.
Qed.

Lemma pad16_printable (s : JsString) :
  forallb isPrintable (firstn 16 s) = true ->
  forallb isPrintable (pad16 s) = true.
Proof.
  intros H. rewrite pad16_eq, forallb_app, H. cbn [andb].
  apply forallb_forall. intros c Hc. apply repeat_spec in Hc. now subst c.
Qed.

Lemma ascii_printable_roundtrip (t : JsString) :
  forallb isPrintable t = true ->
  map replaceControl (asciiDecode (asciiEncode t)) = t.
Proof.
  unfold asciiDecode, asciiEncode. rewrite !map_map.
  induction t as [|c t IH]; cbn [forallb map]; [reflexivity|].
  intros H. apply andb_true_iff in H as [Hc Ht].
  rewrite (IH Ht). f_equal.
  pose proof (proj1 (isPrintable_spec c) Hc) as Hr.
  rewrite Z.mod_small by lia. rewrite land127_small by lia.
  now rewrite replaceControl_cases, Hc.
Qed.

Lemma controlByte_decode (m : TslBaseMessage) :
  let c := u8 (controlByte m) in
  0 <= c <= 63
  /\ negb (Z.land c 1 =? 0) = tally1 m
  /\ negb (Z.land c 2 =? 0) = tally2 m
  /\ negb (Z.land c 4 =? 0) = tally3 m
  /\ negb (Z.land c 8 =? 0) = tally4 m
  /\ Brightness_of_Z (Z.land (Z.shiftr c 4) 3) = brightness m.
Proof.
  destruct m as [a t1 t2 t3 t4 b s].
  destruct t1, t2, t3, t4, b; vm_compute;
    repeat split; solve [reflexivity | discriminate].
Qed.

Lemma parseTallyByte_build (t : TallyTriple) :
  parseTallyByte (u8 (buildTallyByte t)) = t.
Proof. destruct t as [l x r]. destruct l, x, r; reflexivity. Qed.

Lemma validV31_spec (m : TslBaseMessage) :
  validV31 m = true ->
  0 <= address m <= 126
  /\ forallb isPrintable (firstn 16 (displayText m)) = true.
Proof.
  unfold validV31. intros H.
  apply andb_true_iff in H as [H Ht]. apply andb_true_iff in H as [H1 H2].
  apply Z.leb_le in H1, H2. now split.
Qed.

Lemma buildV31_length (m : TslBaseMessage) : length (buildV31 m) = 18%nat.
Proof.
  unfold buildV31, asciiEncode. cbn [length].
  now rewrite length_map, pad16_length.
Qed.

Lemma buildV31_header (m : TslBaseMessage) (rest : Buffer) :
  validV31 m = true ->
  byteAt (buildV31 m ++ rest) 0 = address m + 128
  /\ headerInRange (byteAt (buildV31 m ++ rest) 0) = true.
Proof.
  intros Hv. apply validV31_spec in Hv as [Ha _].
  unfold buildV31, byteAt, u8. cbn [app nth].
  rewrite Z.mod_small by lia. split; [reflexivity|].
  unfold headerInRange. apply andb_true_iff. rewrite !Z.leb_le. lia.
Qed.

Lemma buildV31_pbc (m : TslBaseMessage) (rest : Buffer) :
  validV31 m = true ->
  readUInt16LE (buildV31 m ++ rest) 0
  = address m + 128 + 256 * u8 (controlByte m).
Proof.
  intros Hv. apply validV31_spec in Hv as [Ha _].
  unfold readUInt16LE, buildV31, byteAt, u8. cbn [app nth Nat.add].
  rewrite (Z.mod_small (address m + 128)) by lia. reflexivity.
Qed.

Lemma parseV31_buildV31_app (m : TslBaseMessage) (rest : Buffer) :
  validV31 m = true ->
  parseV31 (buildV31 m ++ rest) = Some (padded m).
Proof.
  intros Hv.
  destruct (buildV31_header m rest Hv) as [Hh Hr].
  rewrite parseV31_some;
    [|rewrite length_app, buildV31_length; lia|exact Hr].
  rewrite Hh.
  apply validV31_spec in Hv as [Ha Ht].
  assert (Hc : byteAt (buildV31 m ++ rest) 1 = u8 (controlByte m))
    by reflexivity.
  rewrite Hc.
  destruct (controlByte_decode m) as (_ & -> & -> & -> & -> & ->).
  assert (Hs : slice (buildV31 m ++ rest) 2 18
               = asciiEncode (pad16 (displayText m))).
  { unfold slice, buildV31. cbn [app skipn Nat.sub].
    apply firstn_exact. unfold asciiEncode.
    now rewrite length_map, pad16_length. }
  rewrite Hs, ascii_printable_roundtrip by now apply pad16_printable.
  unfold padded. do 2 f_equal. lia.
Qed.

Lemma detectVersion_V31_intro (buffer : Buffer) :
  (18 <= length buffer)%nat ->
  headerInRange (byteAt buffer 0) = true ->
  readUInt16LE buffer 0 <> Z.of_nat (length buffer) - 2 ->
  (length buffer = 18%nat \/ byteAt buffer 18 <> expectedChecksum buffer) ->
  detectVersion buffer = Some V3_1.
Proof.
  intros Hlen Hhdr Hpbc Hck. unfold detectVersion.
  destruct (Nat.ltb_spec (length buffer) 2); [lia|].
  destruct (Z.eqb_spec (readUInt16LE buffer 0) (Z.of_nat (length buffer) - 2));
    [contradiction|].
  rewrite andb_false_r, Hhdr.
  destruct Hck as [H18|Hne].
  - rewrite H18. reflexivity.
  - destruct (Z.eqb_spec (byteAt buffer 18) (expectedChecksum buffer));
      [contradiction|].
    now rewrite andb_false_r.
Qed.

Lemma sum18_firstn (buf : Buffer) : sum18 (firstn 18 buf) = sum18 buf.
Proof.
  unfold sum18, byteAt. cbn [seq fold_left].
  rewrite !nth_firstn. reflexivity.
Qed.

Lemma expectedChecksum_prefix (a b : Buffer) :
  firstn 18 a = firstn 18 b -> expectedChecksum a = expectedChecksum b.
Proof.
  intros H. unfold expectedChecksum.
  now rewrite <- (sum18_firstn a), <- (sum18_firstn b), H.
Qed.

Lemma expectedChecksum_range (buf : Buffer) :
  0 <= expectedChecksum buf <= 127.
Proof. apply land127_range. Qed.

Lemma firstn18_buildV31_app (m : TslBaseMessage) (rest : Buffer) :
  firstn 18 (buildV31 m ++ rest) = buildV31 m.
Proof.
  apply firstn_exact, buildV31_length.
Qed.

Lemma byteAt_after_buildV31 (m : TslBaseMessage) (rest : Buffer) (k : nat) :
  byteAt (buildV31 m ++ rest) (18 + k) = byteAt rest k.
Proof.
  unfold byteAt. rewrite <- (buildV31_length m). apply app_nth2_plus.
Qed.

Lemma buildV40_checksum (m : TslV40Message) :
  byteAt (buildV40 m) 18 = expectedChecksum (buildV40 m).
Proof.
  unfold buildV40. rewrite (byteAt_after_buildV31 _ _ 0).
  cbn [byteAt nth]. unfold u8.
  rewrite Z.mod_small
    by (pose proof (expectedChecksum_range
                      (buildV31 (base m) ++ [0; 0; 0; 0])); lia).
  apply expectedChecksum_prefix. now rewrite !firstn18_buildV31_app.
Qed.

Lemma buildV40_length (m : TslV40Message) : length (buildV40 m) = 22%nat.
Proof. unfold buildV40. now rewrite length_app, buildV31_length. Qed.

Lemma parse_buildV31 (m : TslBaseMessage) :
  validV31 m = true ->
  parseV31 (buildV31 m) = Some (padded m)
  /\ parse (buildV31 m) = Some (MsgV31 (padded m)).
Proof.
  intros Hv.
  pose proof (parseV31_buildV31_app m [] Hv) as Hp.
  pose proof (buildV31_header m [] Hv) as [Hh Hr].
  pose proof (buildV31_pbc m [] Hv) as Hpbc.
  rewrite app_nil_r in *. split; [exact Hp|].
  unfold parse. rewrite detectVersion_V31_intro, Hp; try reflexivity.
  - rewrite buildV31_length. lia.
  - exact Hr.
  - rewrite Hpbc, buildV31_length.
    apply validV31_spec in Hv as [Ha _].
    destruct (controlByte_decode m) as (Hc & _). cbn zeta in Hc. lia.
  - left. apply buildV31_length.
Qed.

Lemma parse_buildV40 (m : TslV40Message) :
  validV40 m = true ->
  parseV40 (buildV40 m) = Some (paddedV40 m)
  /\ parse (buildV40 m) = Some (MsgV40 (paddedV40 m)).
Proof.
  intros Hv. unfold validV40 in Hv.
  assert (Hp : parseV40 (buildV40 m) = Some (paddedV40 m)).
  { unfold parseV40. rewrite buildV40_length. cbn [Nat.ltb Nat.leb].
    rewrite buildV40_checksum, Z.eqb_refl. cbn [negb].
    unfold buildV40 at 1. rewrite (parseV31_buildV31_app _ _ Hv).
    unfold buildV40 at 1 2 3.
    rewrite (byteAt_after_buildV31 _ _ 1), (byteAt_after_buildV31 _ _ 2),
      (byteAt_after_buildV31 _ _ 3).
    cbn [byteAt nth]. rewrite !parseTallyByte_build. reflexivity. }
  split; [exact Hp|].
  unfold parse.
  assert (Hd : detectVersion (buildV40 m) = Some V4_0).
  { unfold detectVersion. rewrite buildV40_length. cbn [Nat.ltb Nat.leb].
    rewrite buildV40_checksum, Z.eqb_refl.
    unfold buildV40.
    destruct (buildV31_header (base m) [u8 (expectedChecksum
                (buildV31 (base m) ++ [0; 0; 0; 0])); 2;
                u8 (buildTallyByte (leftDisplay m));
                u8 (buildTallyByte (rightDisplay m))] Hv) as [Hh ->].
    rewrite buildV31_pbc by exact Hv.
    apply validV31_spec in Hv as [Ha _].
    destruct (controlByte_decode (base m)) as (Hc & _). cbn zeta in Hc.
    destruct (Z.eqb_spec (address (base m) + 128
                          + 256 * u8 (controlByte (base m)))
                (Z.of_nat 22 - 2)); [lia|reflexivity]. }
  now rewrite Hd, Hp.
Qed.

(* ================================================================== *)
(** * Round trip, V5.0 *)
(* ================================================================== *)

Lemma byteAt_app_r (pre s : Buffer) (k : nat) :
  byteAt (pre ++ s) (length pre + k) = byteAt s k.
Proof. unfold byteAt. apply app_nth2_plus. Qed.

Lemma readUInt16LE_app_r (pre s : Buffer) (k : nat) :
  readUInt16LE (pre ++ s) (length pre + k) = readUInt16LE s k.
Proof.
  unfold readUInt16LE.
  now rewrite <- Nat.add_assoc, !byteAt_app_r.
Qed.

Lemma slice_app_r (pre s : Buffer) (a b : nat) :
  slice (pre ++ s) (length pre + a) (length pre + b) = slice s a b.
Proof.
  unfold slice. rewrite skipn_app.
  rewrite (skipn_all2 pre) by lia.
  cbn [app]. f_equal; [lia|f_equal; lia].
Qed.

(** The loop body reads the buffer relative to its offset. *)
Lemma walkStep_app_r (pre s : Buffer) (uni : bool) (off : nat) :
  walkStep (pre ++ s) uni (length pre + off)
  = option_map (fun r => ((length pre + fst r)%nat, snd r))
               (walkStep s uni off).
Proof.
  unfold walkStep. rewrite length_app.
  replace (length pre + length s - (length pre + off))%nat
    with (length s - off)%nat by lia.
  destruct (length s - off <? 6)%nat; [reflexivity|].
  rewrite <- !Nat.add_assoc, !readUInt16LE_app_r.
  destruct (negb _); [reflexivity|].
  replace (length pre + length s - (length pre + (off + 6)))%nat
    with (length s - (off + 6))%nat by lia.
  destruct (_ <? _)%nat; [reflexivity|].
  cbn [option_map fst snd].
  rewrite slice_app_r. do 2 f_equal; try lia.
Qed.

Lemma utf16le_roundtrip (t : JsString) :
  forallb isU16 t = true -> utf16leDecode (utf16leEncode t) = t.
Proof.
  induction t as [|c t IH]; cbn [forallb]; [reflexivity|].
  intros H. apply andb_true_iff in H as [Hc Ht].
  unfold utf16leEncode. cbn [flat_map app utf16leDecode].
  fold (utf16leEncode t). rewrite (IH Ht). f_equal.
  apply isU16_spec in Hc.
  rewrite (Z.mod_small (c / 256)).
  - apply u16_recompose.
  - split; [apply Z.div_pos; lia|apply Z.div_lt_upper_bound; lia].
Qed.

Lemma ascii7_roundtrip (t : JsString) :
  forallb isAscii7 t = true -> asciiDecode (asciiEncode t) = t.
Proof.
  unfold asciiDecode, asciiEncode. rewrite map_map.
  induction t as [|c t IH]; cbn [forallb map]; [reflexivity|].
  intros H. apply andb_true_iff in H as [Hc Ht].
  rewrite (IH Ht). f_equal.
  unfold isAscii7 in Hc. apply andb_true_iff in Hc as [H0 H1].
  apply Z.leb_le in H0, H1.
  rewrite Z.mod_small by lia. apply land127_small. lia.
Qed.

Lemma text_roundtrip (uni : bool) (d : TslV50DisplayMessage) :
  forallb (if uni then isU16 else isAscii7) (text d) = true ->
  (if uni then utf16leDecode (textBytes uni d)
   else asciiDecode (textBytes uni d)) = text d.
Proof.
  unfold textBytes. destruct uni.
  - apply utf16le_roundtrip.
  - apply ascii7_roundtrip.
Qed.

Lemma displayControl_decode (d : TslV50DisplayMessage) :
  let c := displayControl d in
  c mod 256 + 256 * (c / 256) = c
  /\ Z.land c 32768 = 0
  /\ TallyState_of_Z (Z.land c 3) = dRightTally d
  /\ TallyState_of_Z (Z.land (Z.shiftr c 2) 3) = dTextTally d
  /\ TallyState_of_Z (Z.land (Z.shiftr c 4) 3) = dLeftTally d
  /\ Brightness_of_Z (Z.land (Z.shiftr c 6) 3) = dBrightness d.
Proof.
  destruct d as [i r t l b s]. unfold displayControl.
  cbn [dRightTally dTextTally dLeftTally dBrightness].
  destruct r, t, l, b; vm_compute; repeat split; reflexivity.
Qed.

(** One loop iteration on the bytes of one encoded display followed by
    anything: the display comes back and the offset is past its bytes. *)
Lemma walkStep_buildDisplay (uni : bool) (d : TslV50DisplayMessage)
    (b rest : Buffer) :
  buildDisplay uni d = Some b ->
  validDisplay uni d = true ->
  walkStep (b ++ rest) uni 0 = Some (length b, d).
Proof.
  intros Hb Hv. apply buildDisplay_inv in Hb as (Hi & Hl & ->).
  unfold validDisplay in Hv. apply andb_true_iff in Hv as [_ Ht].
  set (tb := textBytes uni d) in *.
  unfold walkStep.
  replace ((length _ - 0 <? 6)%nat) with false
    by (symmetry; apply Nat.ltb_ge; cbn [length app]; lia).
  unfold readUInt16LE, byteAt. cbn [app nth Nat.add].
  destruct (displayControl_decode d) as (Hc & Hbit & Hr & Hx & Hlf & Hbr).
  cbn zeta in *.
  rewrite Hc, Hbit. cbn [Z.eqb negb].
  rewrite !u16_recompose, Nat2Z.id, Hr, Hx, Hlf, Hbr.
  replace ((_ <? length tb)%nat) with false
    by (symmetry; apply Nat.ltb_ge; cbn [length]; rewrite length_app; lia).
  assert (Hs : slice (index d mod 256 :: index d / 256
                      :: displayControl d mod 256 :: displayControl d / 256
                      :: Z.of_nat (length tb) mod 256
                      :: Z.of_nat (length tb) / 256 :: tb ++ rest)
                     6 (6 + length tb) = tb).
  { unfold slice. replace (6 + length tb - 6)%nat with (length tb) by lia.
    cbn [skipn]. now apply firstn_exact. }
  cbn [Nat.add] in Hs. rewrite Hs. subst tb. rewrite (text_roundtrip uni d Ht).
  do 2 f_equal; try (destruct d; reflexivity);
    cbn [length app]; rewrite ?length_app; lia.
Qed.

(** The loop on the bytes of a list of encoded displays, entered at their
    first byte, pushes exactly these displays. *)
Lemma walk_buildDisplays (uni : bool) (ds : list TslV50DisplayMessage) :
  forall pre bs acc fuel,
    buildDisplays uni ds = Some bs ->
    forallb (validDisplay uni) ds = true ->
    (length ds <= fuel)%nat ->
    walk fuel (pre ++ bs) uni (length pre) acc = Some (acc ++ ds).
Proof.
  induction ds as [|d ds IH]; intros pre bs acc fuel Hbs Hv Hfuel;
    cbn [buildDisplays forallb] in Hbs, Hv.
  - injection Hbs as <-. rewrite !app_nil_r.
    destruct fuel; cbn [walk]; now rewrite Nat.ltb_irrefl.
  - destruct (buildDisplay uni d) as [b|] eqn:Hd; [|discriminate].
    destruct (buildDisplays uni ds) as [bs'|] eqn:Hds; [|discriminate].
    injection Hbs as <-. apply andb_true_iff in Hv as [Hvd Hvs].
    destruct fuel as [|fuel]; [cbn [length] in Hfuel; lia|].
    cbn [walk].
    pose proof (walkStep_buildDisplay uni d b bs' Hd Hvd) as Hstep.
    pose proof (walkStep_app_r pre (b ++ bs') uni 0) as Hshift.
    rewrite Nat.add_0_r, Hstep in Hshift. cbn [option_map fst snd] in Hshift.
    rewrite Hshift.
    assert (Hb6 : (6 <= length b)%nat).
    { apply buildDisplay_inv in Hd as (_ & _ & ->).
      rewrite length_app. cbn [length]. lia. }
    destruct (Nat.ltb_spec (length pre) (length (pre ++ b ++ bs')))
      as [_|Hge]; [|rewrite !length_app in Hge; lia].
    rewrite <- length_app, app_assoc.
    rewrite (IH (pre ++ b) bs' (acc ++ [d]) fuel eq_refl Hvs)
      by (cbn [length] in Hfuel; lia).
    now rewrite <- app_assoc.
Qed.

Lemma buildDisplays_length_ge (uni : bool) (ds : list TslV50DisplayMessage) :
  forall bs,
    buildDisplays uni ds = Some bs -> (length ds <= length bs)%nat.
Proof.
  intros bs H. apply buildDisplays_length in H.
  assert (Z.of_nat (length ds)
          <= fold_right (fun d s => displaySize uni d + s) 0 ds); [|lia].
  clear. induction ds as [|d ds IH]; cbn [fold_right length]; [lia|].
  pose proof (displaySize_eq uni d). lia.
Qed.

Lemma flagsByte_decode (f : TslV50Flags) :
  let b := u8 (flagsByte f) in
  negb (Z.land b 1 =? 0) = unicode f
  /\ negb (Z.land b 2 =? 0) = screenControl f.
Proof. destruct f as [[|] [|]]; split; reflexivity. Qed.

Lemma validV50_spec (m : TslV50Message) :
  validV50 m = true ->
  packetByteCount m = dataSize m
  /\ isU16 (dataSize m) = true
  /\ 0 <= minorVersion m <= 255
  /\ isU16 (screen m) = true
  /\ (screenControl (flags m) = true -> displays m = [])
  /\ forallb (validDisplay (unicode (flags m))) (displays m) = true.
Proof.
  unfold validV50. intros H.
  apply andb_true_iff in H as [H Hds]. apply andb_true_iff in H as [H Hsc].
  apply andb_true_iff in H as [H Hscr]. apply andb_true_iff in H as [H Hver].
  apply andb_true_iff in H as [Hpbc Hsz].
  apply Z.eqb_eq in Hpbc. unfold is_byte in Hver.
  apply andb_true_iff in Hver as [Hv0 Hv1]. apply Z.leb_le in Hv0, Hv1.
  repeat split; try assumption.
  intros Hflag. rewrite Hflag in Hsc. cbn [negb orb] in Hsc.
  destruct (displays m); [reflexivity|discriminate].
Qed.

Lemma validV50_encodable (m : TslV50Message) :
  validV50 m = true -> encodableV50 m = true.
Proof.
  intros H. apply validV50_spec in H as (_ & Hsz & _ & Hscr & _ & Hds).
  unfold encodableV50. rewrite Hsz, Hscr. cbn [andb].
  apply forallb_forall. intros d Hd.
  rewrite forallb_forall in Hds. specialize (Hds d Hd).
  unfold validDisplay in Hds. now apply andb_true_iff in Hds as [? _].
Qed.

Lemma parse_buildV50 (m : TslV50Message) :
  validV50 m = true ->
  exists buf,
    buildV50 m = Some buf
    /\ parseV50 buf = Some m
    /\ parse buf = Some (MsgV50 m).
Proof.
  intros Hv.
  destruct (buildV50_some m (validV50_encodable m Hv)) as [buf Hbuf].
  exists buf. split; [exact Hbuf|].
  destruct (buildV50_pbc m buf Hbuf) as (Hlen & Hsize & Hpbc).
  assert (Hparse : parseV50 buf = Some m).
  { apply validV50_spec in Hv as (Hdecl & Hsz & Hver & Hscr & Hsc & Hds).
    apply buildV50_inv in Hbuf as (bs & Hbs & _ & _ & Hshape).
    unfold parseV50.
    destruct (Nat.ltb_spec (length buf) 6); [lia|].
    rewrite Hpbc.
    replace (Z.of_nat (length buf) - 2) with (dataSize m) by lia.
    rewrite Z.eqb_refl. cbn [negb].
    assert (H2 : byteAt buf 2 = minorVersion m).
    { rewrite Hshape. cbn. unfold u8. apply Z.mod_small. lia. }
    assert (H3 : byteAt buf 3 = u8 (flagsByte (flags m)))
      by (rewrite Hshape; reflexivity).
    assert (H4 : readUInt16LE buf 4 = screen m).
    { rewrite Hshape. unfold readUInt16LE, byteAt. cbn [app nth Nat.add].
      apply u16_recompose. }
    rewrite H2, H3, H4.
    destruct (flagsByte_decode (flags m)) as [-> ->].
    remember (dataSize m) as D eqn:HD in *.
    destruct m as [pbc ver [uni sc] scr ds].
    cbn [packetByteCount minorVersion flags screen displays unicode
           screenControl] in *.
    subst pbc. destruct sc.
    - now rewrite (Hsc eq_refl).
    - pose proof (walk_buildDisplays uni ds
                    [D mod 256; D / 256;
                     u8 ver; u8 (flagsByte (mkFlags uni false));
                     scr mod 256; scr / 256] bs [] (length buf) Hbs Hds)
        as Hwalk.
      rewrite <- Hshape in Hwalk. cbn [length app] in Hwalk.
      rewrite Hwalk; [reflexivity|].
      pose proof (buildDisplays_length_ge uni ds bs Hbs).
      rewrite Hshape, length_app. lia. }
  split; [exact Hparse|].
  unfold parse. rewrite detectVersion_V50_intro, Hparse; try reflexivity.
  - exact Hlen.
  - lia.
Qed.

(* ================================================================== *)
(** * Round trip of the three versions *)
(* ================================================================== *)

(** C1 (as stated, refuted): three values with the address and every enum
    field in range that do not come back.  A V5.0 message with the
    screen-control flag and one display is encoded with its display and
    decoded without it; the message of [createSimpleV50], which declares a
    byte count of 0, comes back declaring 15; a V3.1 text that holds a TAB
    comes back with a space in its place.  So the round trip does not hold
    for every value whose address and enum fields are in range. *)
Lemma roundtrip_counterexamples :
  (packetByteCount screenControlV50 = dataSize screenControlV50
   /\ option_map parse (buildV50 screenControlV50)
      = Some (Some (MsgV50 {| packetByteCount := 11; minorVersion := 0;
                              flags := {| unicode := false;
                                          screenControl := true |};
                              screen := 0; displays := [] |}))
   /\ displays screenControlV50 <> [])
  /\ (option_map (option_map
                    (fun m => match m with
                              | MsgV50 y => packetByteCount y
                              | _ => -1
                              end))
                 (option_map parse (buildV50 simpleV50))
      = Some (Some 15)
      /\ packetByteCount simpleV50 = 0)
  /\ (option_map (fun m => match m with
                           | MsgV31 y => displayText y
                           | _ => []
                           end)
                 (parse (buildV31 tabTextV31))
      = Some (repeat 32 16)
      /\ pad16 (displayText tabTextV31) = 9 :: repeat 32 15)
  /\ ~ (forall x : TslMessage,
           addressInRange x = true ->
           exists buf,
             encode x = Some buf /\ parse buf = Some (expectedDecode x)).
Proof.
  split; [|split; [|split]].
  - repeat split; try reflexivity. discriminate.
  - split; reflexivity.
  - split; reflexivity.
  - intros H.
    destruct (H (MsgV50 screenControlV50) eq_refl) as (buf & Hb & Hp).
    vm_compute in Hb. injection Hb as <-.
    vm_compute in Hp. discriminate Hp.
Qed.

(** C1 (amended): round trip for the values that the codec carries.  A V3.1
    or V4.0 value with its address in 0..126 and the first 16 characters of
    its text printable ASCII (0x20..0x7E) decodes, by its own decoder and by
    the auto-detecting [parse], to the same value with the text space-padded
    or truncated to 16 characters.  A V5.0 value comes back unchanged when
    its declared byte count is the size of its encoding (at most 65535), the
    minor version fits a byte, the screen and display indices fit 16 bits,
    the text is 7-bit ASCII when the unicode flag is off (any UTF-16 code
    units when it is on), and it has no display when the screen-control flag
    is set. *)
Theorem encode_parse_roundtrip (x : TslMessage) :
  validMessage x = true ->
  exists buf,
    encode x = Some buf
    /\ decodeAs (version x) buf = Some (expectedDecode x)
    /\ parse buf = Some (expectedDecode x)
    /\ version (expectedDecode x) = version x.
Proof.
  destruct x as [b|v|v]; cbn [validMessage encode version expectedDecode
                               decodeAs]; intros Hv.
  - exists (buildV31 b). destruct (parse_buildV31 b Hv) as [H1 H2].
    rewrite H1, H2. repeat split; reflexivity.
  - exists (buildV40 v). destruct (parse_buildV40 v Hv) as [H1 H2].
    rewrite H1, H2. repeat split; reflexivity.
  - destruct (parse_buildV50 v Hv) as (buf & Hb & H1 & H2).
    exists buf. rewrite H1, H2. repeat split; try reflexivity. exact Hb.
Qed.

(** The example of the specification: "CAM 1" at address 1 is encoded as
    0x81, 0x31, "CAM 1" and 11 spaces, and decoded to the padded message. *)
Lemma encode_parse_roundtrip_witness :
  validMessage (MsgV31 cam1) = true
  /\ exists buf,
       encode (MsgV31 cam1) = Some buf
       /\ decodeAs (version (MsgV31 cam1)) buf
          = Some (expectedDecode (MsgV31 cam1))
       /\ parse buf = Some (expectedDecode (MsgV31 cam1))
       /\ version (expectedDecode (MsgV31 cam1)) = version (MsgV31 cam1).
Proof.
  assert (H : validMessage (MsgV31 cam1) = true) by reflexivity.
  split; [exact H|].
  exact (encode_parse_roundtrip (MsgV31 cam1) H).
Defined.

(* ================================================================== *)
(** * V4.0 checksum *)
(* ================================================================== *)

Lemma length_setByte (buf : Buffer) (i : nat) (v : Z) :
  (i < length buf)%nat -> length (setByte buf i v) = length buf.
Proof.
  intros H. unfold setByte.
  rewrite length_app, length_firstn. cbn [length]. rewrite length_skipn. lia.
Qed.

Lemma byteAt_setByte_other (buf : Buffer) (i j : nat) (v : Z) :
  (i < length buf)%nat -> j <> i ->
  byteAt (setByte buf i v) j = byteAt buf j.
Proof.
  intros Hi Hj. unfold setByte, byteAt.
  destruct (Nat.lt_ge_cases j i) as [Hlt|Hge].
  - rewrite app_nth1 by (rewrite length_firstn; lia).
    rewrite nth_firstn.
    destruct (Nat.ltb_spec j i); [reflexivity|lia].
  - rewrite app_nth2 by (rewrite length_firstn; lia).
    rewrite length_firstn.
    replace (Nat.min i (length buf)) with i by lia.
    destruct (j - i)%nat as [|k] eqn:Hk; [lia|].
    cbn [nth]. rewrite nth_skipn. f_equal. lia.
Qed.

Lemma detectVersion_V40_elim (buffer : Buffer) :
  detectVersion buffer = Some V4_0 ->
  byteAt buffer 18 = expectedChecksum buffer.
Proof.
  unfold detectVersion.
  destruct (length buffer <? 2)%nat; [discriminate|].
  destruct (_ && _); [discriminate|].
  destruct (headerInRange _); [|discriminate].
  destruct (18 <? length buffer)%nat; cbn [andb]; [|discriminate].
  destruct (Z.eqb_spec (byteAt buffer 18) (expectedChecksum buffer));
    [trivial|discriminate].
Qed.

Lemma parse_V40_only_if_detected (buffer : Buffer) (y : TslV40Message) :
  parse buffer = Some (MsgV40 y) -> detectVersion buffer = Some V4_0.
Proof.
  unfold parse. destruct (detectVersion buffer) as [[| |]|];
    try discriminate; try reflexivity.
  - destruct (parseV31 buffer); discriminate.
  - destruct (parseV50 buffer); discriminate.
Qed.

(** C3 (as stated, refuted): in the encoding of [darkV40], whose checksum
    byte is 0x1F, replacing the text byte 'A' by 'B' breaks the checksum, and
    [parse] returns a V3.1 message (text "B"), not a failure; replacing the
    header byte 0x80 by 0x14 breaks the checksum too, and [parse] returns a
    V5.0 message, since the first 16 bits are then 20, the length minus
    two. *)
Lemma parse_mutated_V40_not_failure :
  (byteAt (buildV40 darkV40) 2 <> 66
   /\ expectedChecksum (setByte (buildV40 darkV40) 2 66)
      <> byteAt (buildV40 darkV40) 18
   /\ option_map version (parse (setByte (buildV40 darkV40) 2 66))
      = Some V3_1)
  /\ (byteAt (buildV40 darkV40) 0 <> 20
      /\ expectedChecksum (setByte (buildV40 darkV40) 0 20)
         <> byteAt (buildV40 darkV40) 18
      /\ option_map version (parse (setByte (buildV40 darkV40) 0 20))
         = Some V5_0)
  /\ ~ (forall (m : TslV40Message) (i : nat) (v : Z),
           (i < 18)%nat ->
           is_byte v = true ->
           v <> byteAt (buildV40 m) i ->
           expectedChecksum (setByte (buildV40 m) i v)
           <> byteAt (buildV40 m) 18 ->
           parse (setByte (buildV40 m) i v) = None).
Proof.
  split; [|split].
  - vm_compute. repeat split; try reflexivity; discriminate.
  - vm_compute. repeat split; try reflexivity; discriminate.
  - intros H.
    assert (Hp : parse (setByte (buildV40 darkV40) 2 66) = None).
    { apply H; [lia|reflexivity| |]; vm_compute; discriminate. }
    vm_compute in Hp. discriminate Hp.
Qed.

(** C3 (amended): for any buffer produced by [buildV40], after a change of
    one of the bytes 0..17 that does not preserve the checksum (the checksum
    of the changed bytes differs from the one stored at byte 18), the V4.0
    decoder [parseV40] fails, [detectVersion] does not answer V4.0 and [parse]
    never returns a V4.0 message; [parse] does not fail for all that: when the
    first byte is still a header (0x80..0xFE) and the first 16 bits are not
    20, it returns the V3.1 reading of the first 18 bytes. *)
Theorem parseV40_rejects_mutation (m : TslV40Message) (i : nat) (v : Z) :
  (i < 18)%nat ->
  expectedChecksum (setByte (buildV40 m) i v) <> byteAt (buildV40 m) 18 ->
  parseV40 (setByte (buildV40 m) i v) = None
  /\ detectVersion (setByte (buildV40 m) i v) <> Some V4_0
  /\ (forall y, parse (setByte (buildV40 m) i v) <> Some (MsgV40 y))
  /\ (headerInRange (byteAt (setByte (buildV40 m) i v) 0) = true ->
      readUInt16LE (setByte (buildV40 m) i v) 0 <> 20 ->
      exists y,
        parseV31 (setByte (buildV40 m) i v) = Some y
        /\ parse (setByte (buildV40 m) i v) = Some (MsgV31 y)).
Proof.
  intros Hi Hck.
  set (mutated := setByte (buildV40 m) i v) in *.
  assert (Hlen : length mutated = 22%nat).
  { unfold mutated. rewrite length_setByte; rewrite buildV40_length; lia. }
  assert (H18 : byteAt mutated 18 = byteAt (buildV40 m) 18).
  { unfold mutated. apply byteAt_setByte_other;
      [rewrite buildV40_length|]; lia. }
  assert (Hne : byteAt mutated 18 <> expectedChecksum mutated)
    by (rewrite H18; intros E; apply Hck; now rewrite E).
  assert (Hd : detectVersion mutated <> Some V4_0)
    by (intros E; now apply detectVersion_V40_elim in E).
  split; [|split; [exact Hd|split]].
  - unfold parseV40. rewrite Hlen. cbn [Nat.ltb Nat.leb].
    destruct (parseV31 mutated); [|reflexivity].
    destruct (Z.eqb_spec (byteAt mutated 18) (expectedChecksum mutated));
      [contradiction|reflexivity].
  - intros y Hy. now apply parse_V40_only_if_detected in Hy.
  - intros Hhdr Hpbc.
    eexists. split; [apply parseV31_some; [lia|exact Hhdr]|].
    unfold parse. rewrite detectVersion_V31_intro.
    + rewrite parseV31_some by (lia || exact Hhdr). reflexivity.
    + lia.
    + exact Hhdr.
    + rewrite Hlen. exact Hpbc.
    + now right.
Qed.

(** The encoding of [darkV40] with the text byte 'A' replaced by 'B'. *)
Lemma parseV40_rejects_mutation_witness :
  (2 < 18)%nat
  /\ expectedChecksum (setByte (buildV40 darkV40) 2 66)
     <> byteAt (buildV40 darkV40) 18
  /\ parseV40 (setByte (buildV40 darkV40) 2 66) = None
  /\ detectVersion (setByte (buildV40 darkV40) 2 66) <> Some V4_0
  /\ (forall y, parse (setByte (buildV40 darkV40) 2 66) <> Some (MsgV40 y))
  /\ (headerInRange (byteAt (setByte (buildV40 darkV40) 2 66) 0) = true ->
      readUInt16LE (setByte (buildV40 darkV40) 2 66) 0 <> 20 ->
      exists y,
        parseV31 (setByte (buildV40 darkV40) 2 66) = Some y
        /\ parse (setByte (buildV40 darkV40) 2 66) = Some (MsgV31 y)).
Proof.
  assert (H1 : (2 < 18)%nat) by lia.
  assert (H2 : expectedChecksum (setByte (buildV40 darkV40) 2 66)
               <> byteAt (buildV40 darkV40) 18)
    by (vm_compute; discriminate).
  split; [exact H1|]. split; [exact H2|].
  exact (parseV40_rejects_mutation darkV40 2 66 H1 H2).
Defined.

(* ================================================================== *)
(** * The TCP receive loop *)
(* ================================================================== *)

(** The loop always ends, and it leaves the receive buffer empty: no byte is
    kept from one chunk to the next. *)
Lemma receiveLoop_total (fuel : nat) :
  forall buf,
    (length buf <= fuel)%nat ->
    exists ps, receiveLoop fuel buf = Some ([], ps).
Proof.
  induction fuel as [|fuel IH]; intros buf Hfuel.
  - destruct buf; [|cbn [length] in Hfuel; lia]. now exists [].
  - cbn [receiveLoop].
    destruct (Nat.ltb_spec 0 (length buf)) as [Hpos|Hzero].
    2:{ destruct buf; [|cbn [length] in Hzero; lia]. now exists []. }
    destruct (unwrapFromTcp buf); [eauto|].
    assert (Hcont : forall n, (0 < n)%nat ->
              exists ps,
                match receiveLoop fuel (skipn n buf) with
                | Some (b, ps) => Some (b, parsePacket (firstn n buf) :: ps)
                | None => None
                end = Some ([], ps)).
    { intros n Hn. destruct (IH (skipn n buf)) as [ps Hps].
      - rewrite length_skipn. lia.
      - rewrite Hps. eauto. }
    destruct (18 <=? length buf)%nat; [|eauto].
    destruct (detectVersion buf) as [[| |]|]; [| |eauto|eauto].
    + apply Hcont. lia.
    + destruct (22 <=? length buf)%nat; [apply Hcont; lia|eauto].
Qed.

Lemma handleData_total (receiveBuffer data : Buffer) :
  exists ps, handleData receiveBuffer data = Some ([], ps).
Proof. unfold handleData. apply receiveLoop_total. lia. Qed.

Lemma findStart_skip (l rest : Buffer) :
  forallb (fun b => negb (b =? DLE)) l = true ->
  findStart (l ++ rest) = findStart rest.
Proof.
  induction l as [|a l IH]; cbn [forallb app]; [reflexivity|].
  intros H. apply andb_true_iff in H as [Ha Hl].
  apply negb_true_iff in Ha.
  cbn [findStart]. rewrite Ha. cbn [andb].
  destruct (l ++ rest) as [|b1 tl] eqn:E.
  - apply app_eq_nil in E as [_ ->]. reflexivity.
  - now apply IH.
Qed.

Lemma findStart_cons2 (a b : Z) (rest : Buffer) :
  findStart (a :: b :: rest)
  = if (a =? DLE) && (b =? STX) then Some rest else findStart (b :: rest).
Proof. reflexivity. Qed.

Lemma chunkOf_cons (m : TslBaseMessage) (grp : list TslBaseMessage) :
  chunkOf (m :: grp) = buildV31 m ++ chunkOf grp.
Proof. reflexivity. Qed.

Lemma chunkOf_length (grp : list TslBaseMessage) :
  length (chunkOf grp) = (18 * length grp)%nat.
Proof.
  induction grp as [|m grp IH]; [reflexivity|].
  rewrite chunkOf_cons, length_app, buildV31_length, IH. cbn [length]. lia.
Qed.

Lemma buildV31_tail_no_DLE (m : TslBaseMessage) :
  validV31 m = true ->
  forallb (fun b => negb (b =? DLE))
          (u8 (controlByte m) :: asciiEncode (pad16 (displayText m))) = true.
Proof.
  intros Hv. apply validV31_spec in Hv as [_ Ht].
  apply pad16_printable in Ht.
  cbn [forallb]. apply andb_true_iff. split.
  - destruct (controlByte_decode m) as (Hc & _). cbn zeta in Hc.
    apply negb_true_iff, Z.eqb_neq. unfold DLE. lia.
  - unfold asciiEncode. rewrite forallb_forall in *. intros b Hb.
    apply in_map_iff in Hb as (c & <- & Hc). specialize (Ht c Hc).
    apply isPrintable_spec in Ht.
    apply negb_true_iff, Z.eqb_neq. rewrite Z.mod_small by lia.
    unfold DLE. lia.
Qed.

Lemma unwrapFromTcp_chunkOf (grp : list TslBaseMessage) :
  forallb validV31 grp = true ->
  chunkOk grp = true ->
  unwrapFromTcp (chunkOf grp) = None.
Proof.
  intros Hv Hok. unfold unwrapFromTcp.
  assert (H : findStart (chunkOf grp) = None); [|now rewrite H].
  induction grp as [|m grp IH]; [reflexivity|].
  cbn [forallb chunkOk] in Hv, Hok.
  apply andb_true_iff in Hv as [Hm Hg].
  apply andb_true_iff in Hok as [Hok Hrest].
  apply andb_true_iff in Hok as [Hstart _].
  rewrite chunkOf_cons. unfold buildV31. cbn [app].
  rewrite findStart_cons2.
  assert (Hpair : (u8 (address m + 128) =? DLE)
                  && (u8 (controlByte m) =? STX) = false).
  { apply negb_true_iff in Hstart. unfold startsWithDleStx in Hstart.
    pose proof (validV31_spec m Hm) as [Ha _].
    unfold u8 at 1. rewrite Z.mod_small by lia.
    unfold DLE, STX.
    destruct (Z.eqb_spec (address m + 128) 254) as [E|E]; [|reflexivity].
    replace (address m) with 126 in Hstart by lia.
    exact Hstart. }
  rewrite Hpair.
  change (u8 (controlByte m)
          :: asciiEncode (pad16 (displayText m)) ++ chunkOf grp)
    with ((u8 (controlByte m) :: asciiEncode (pad16 (displayText m)))
          ++ chunkOf grp).
  rewrite (findStart_skip
             (u8 (controlByte m) :: asciiEncode (pad16 (displayText m)))
             (chunkOf grp))
    by now apply buildV31_tail_no_DLE.
  now apply IH.
Qed.

Lemma detectVersion_chunkOf (m : TslBaseMessage)
    (grp : list TslBaseMessage) :
  forallb validV31 (m :: grp) = true ->
  chunkOk (m :: grp) = true ->
  detectVersion (chunkOf (m :: grp)) = Some V3_1.
Proof.
  intros Hv Hok. cbn [forallb chunkOk] in Hv, Hok.
  apply andb_true_iff in Hv as [Hm Hg].
  apply andb_true_iff in Hok as [Hok _].
  apply andb_true_iff in Hok as [_ Halias].
  apply negb_true_iff, Z.eqb_neq in Halias.
  pose proof (chunkOf_length (m :: grp)) as Hlen. cbn [length] in Hlen.
  rewrite chunkOf_cons in *.
  apply detectVersion_V31_intro.
  - lia.
  - now apply buildV31_header.
  - rewrite buildV31_pbc by exact Hm. rewrite Hlen. lia.
  - destruct grp as [|m' grp']; [left; rewrite Hlen; reflexivity|right].
    rewrite (byteAt_after_buildV31 m _ 0).
    cbn [forallb] in Hg. apply andb_true_iff in Hg as [Hm' _].
    rewrite chunkOf_cons.
    destruct (buildV31_header m' (chunkOf grp') Hm') as [-> _].
    apply validV31_spec in Hm' as [Ha _].
    pose proof (expectedChecksum_range
                  (buildV31 m ++ buildV31 m' ++ chunkOf grp')).
    lia.
Qed.

Lemma parsePacket_buildV31 (m : TslBaseMessage) :
  validV31 m = true ->
  parsePacket (buildV31 m)
  = {| rawData := buildV31 m;
       parsed := Some (MsgV31 (padded m));
       failed := false |}.
Proof.
  intros Hv. unfold parsePacket.
  now rewrite (proj2 (parse_buildV31 m Hv)).
Qed.

Lemma receiveLoop_chunkOf (grp : list TslBaseMessage) :
  forall fuel,
    forallb validV31 grp = true ->
    chunkOk grp = true ->
    (length grp <= fuel)%nat ->
    receiveLoop fuel (chunkOf grp)
    = Some ([], map (fun m => {| rawData := buildV31 m;
                                 parsed := Some (MsgV31 (padded m));
                                 failed := false |}) grp).
Proof.
  induction grp as [|m grp IH]; intros fuel Hv Hok Hfuel.
  - destruct fuel; reflexivity.
  - destruct fuel as [|fuel]; [cbn [length] in Hfuel; lia|].
    cbn [receiveLoop].
    pose proof (chunkOf_length (m :: grp)) as Hlen. cbn [length] in Hlen.
    destruct (Nat.ltb_spec 0 (length (chunkOf (m :: grp)))); [|lia].
    rewrite (unwrapFromTcp_chunkOf _ Hv Hok).
    destruct (Nat.leb_spec 18 (length (chunkOf (m :: grp)))); [|lia].
    rewrite (detectVersion_chunkOf m grp Hv Hok).
    rewrite chunkOf_cons, firstn18_buildV31_app.
    replace (skipn 18 (buildV31 m ++ chunkOf grp)) with (chunkOf grp).
    2:{ rewrite skipn_app, buildV31_length, Nat.sub_diag.
        rewrite skipn_all2 by (rewrite buildV31_length; lia).
        reflexivity. }
    cbn [forallb chunkOk] in Hv, Hok.
    apply andb_true_iff in Hv as [Hm Hg].
    apply andb_true_iff in Hok as [_ Hrest].
    rewrite (IH fuel Hg Hrest) by (cbn [length] in Hfuel; lia).
    rewrite (parsePacket_buildV31 m Hm). reflexivity.
Qed.

Lemma handleChunks_groups (groups : list (list TslBaseMessage)) :
  forallb (forallb validV31) groups = true ->
  forallb chunkOk groups = true ->
  handleChunks [] (map chunkOf groups)
  = Some ([], map (fun m => {| rawData := buildV31 m;
                               parsed := Some (MsgV31 (padded m));
                               failed := false |}) (concat groups)).
Proof.
  induction groups as [|grp groups IH]; intros Hv Hok; [reflexivity|].
  cbn [forallb] in Hv, Hok.
  apply andb_true_iff in Hv as [Hv1 Hv2].
  apply andb_true_iff in Hok as [Hok1 Hok2].
  cbn [map handleChunks]. unfold handleData. cbn [app].
  rewrite (receiveLoop_chunkOf grp _ Hv1 Hok1)
    by (rewrite chunkOf_length; lia).
  rewrite (IH Hv2 Hok2). cbn [concat]. now rewrite map_app.
Qed.

Lemma concat_chunkOf (groups : list (list TslBaseMessage)) :
  concat (map chunkOf groups) = concat (map buildV31 (concat groups)).
Proof.
  induction groups as [|grp groups IH]; [reflexivity|].
  cbn [map concat]. rewrite map_app, concat_app, IH. reflexivity.
Qed.

(** C6 (as stated, refuted): one valid V3.1 packet delivered in two chunks,
    of 10 and of 8 bytes.  Each chunk is emitted as a packet of its own that
    does not decode: two packets for one message, and no decoded content.  So
    the loop does not emit the N messages for every way of cutting the
    bytes into chunks. *)
Lemma handleChunks_split_packet :
  (validV31 cam1 = true
   /\ firstn 10 (buildV31 cam1) ++ skipn 10 (buildV31 cam1) = buildV31 cam1
   /\ option_map (fun r => map parsed (snd r))
                 (handleChunks [] [firstn 10 (buildV31 cam1);
                                   skipn 10 (buildV31 cam1)])
      = Some [None; None]
   /\ parse (buildV31 cam1) = Some (MsgV31 (padded cam1)))
  /\ ~ (forall (msgs : list TslBaseMessage) (chunks : list Buffer),
           forallb validV31 msgs = true ->
           concat chunks = concat (map buildV31 msgs) ->
           exists buf packets,
             handleChunks [] chunks = Some (buf, packets)
             /\ length packets = length msgs
             /\ map parsed packets
                = map (fun m => Some (MsgV31 (padded m))) msgs).
Proof.
  split.
  - repeat split; reflexivity.
  - intros H.
    destruct (H [cam1] [firstn 10 (buildV31 cam1); skipn 10 (buildV31 cam1)]
                eq_refl eq_refl) as (buf & packets & Hh & Hl & _).
    vm_compute in Hh. injection Hh as <- <-. discriminate Hl.
Qed.

(** C6 (amended): the receive loop keeps no byte from one chunk to the next,
    so the chunk boundaries must fall between packets.  For every sequence of
    valid V3.1 messages (address in 0..126, printable text) delivered in
    chunks that each hold whole 18-byte packets, where no packet starts with
    the delimiter bytes FE 02 and no packet has first 16 bits equal to the
    number of bytes from its start to the end of its chunk minus two, the
    loop emits exactly one Parsed Packet per message, in order, whose raw
    bytes are the packet and whose decoded content is the message with its
    text padded to 16 characters; the receive buffer is empty at the end. *)
Theorem handleChunks_whole_packets (groups : list (list TslBaseMessage)) :
  forallb (forallb validV31) groups = true ->
  forallb chunkOk groups = true ->
  exists packets,
    handleChunks [] (map chunkOf groups) = Some ([], packets)
    /\ concat (map chunkOf groups) = concat (map buildV31 (concat groups))
    /\ length packets = length (concat groups)
    /\ map rawData packets = map buildV31 (concat groups)
    /\ map parsed packets
       = map (fun m => Some (MsgV31 (padded m))) (concat groups)
    /\ map parsed packets
       = map (fun m => parse (buildV31 m)) (concat groups).
Proof.
  intros Hv Hok. eexists. split; [now apply handleChunks_groups|].
  split; [|split; [|split; [|split]]].
  - apply concat_chunkOf.
  - now rewrite length_map.
  - now rewrite map_map.
  - now rewrite map_map.
  - rewrite map_map. cbn [parsed].
    apply map_ext_in. intros m Hm.
    assert (Hvm : validV31 m = true).
    { apply in_concat in Hm as (grp & Hgrp & Hin).
      rewrite forallb_forall in Hv. specialize (Hv grp Hgrp).
      rewrite forallb_forall in Hv. now apply Hv. }
    now rewrite (proj2 (parse_buildV31 m Hvm)).
Qed.

(** Three "CAM 1" packets: two in a first chunk, one in a second. *)
Lemma handleChunks_whole_packets_witness :
  let groups := [[cam1; cam1]; [cam1]] in
  forallb (forallb validV31) groups = true
  /\ forallb chunkOk groups = true
  /\ exists packets,
       handleChunks [] (map chunkOf groups) = Some ([], packets)
       /\ concat (map chunkOf groups) = concat (map buildV31 (concat groups))
       /\ length packets = length (concat groups)
       /\ map rawData packets = map buildV31 (concat groups)
       /\ map parsed packets
          = map (fun m => Some (MsgV31 (padded m))) (concat groups)
       /\ map parsed packets
          = map (fun m => parse (buildV31 m)) (concat groups).
Proof.
  intro groups.
  assert (H1 : forallb (forallb validV31) groups = true) by reflexivity.
  assert (H2 : forallb chunkOk groups = true) by reflexivity.
  split; [exact H1|]. split; [exact H2|].
  exact (handleChunks_whole_packets groups H1 H2).
Defined.

(* ================================================================== *)
(** * The encoders produce byte sequences *)
(* ================================================================== *)

Lemma is_byte_u8 (v : Z) : is_byte (u8 v) = true.
Proof.
  unfold is_byte, u8. pose proof (Z.mod_pos_bound v 256).
  apply andb_true_iff. rewrite !Z.leb_le. lia.
Qed.

Lemma is_buffer_app (a b : Buffer) :
  is_buffer (a ++ b) = is_buffer a && is_buffer b.
Proof. apply forallb_app. Qed.

Lemma is_buffer_asciiEncode (s : JsString) : is_buffer (asciiEncode s) = true.
Proof.
  unfold is_buffer, asciiEncode. apply forallb_forall. intros b Hb.
  apply in_map_iff in Hb as (c & <- & _). apply (is_byte_u8 c).
Qed.

Lemma is_buffer_utf16leEncode (s : JsString) :
  is_buffer (utf16leEncode s) = true.
Proof.
  unfold is_buffer, utf16leEncode.
  induction s as [|c s IH]; [reflexivity|].
  cbn [flat_map app forallb]. rewrite IH.
  change (c mod 256) with (u8 c).
  change ((c / 256) mod 256) with (u8 (c / 256)).
  now rewrite !is_byte_u8.
Qed.

Lemma is_buffer_writeUInt16LE (v : Z) (b : Buffer) :
  writeUInt16LE v = Some b -> is_buffer b = true.
Proof.
  intros H. apply writeUInt16LE_inv in H as [Hv ->].
  apply isU16_spec in Hv. cbn [is_buffer forallb].
  change (v mod 256) with (u8 v).
  rewrite (is_byte_u8 v). unfold is_byte.
  assert (0 <= v / 256 <= 255)
    by (split; [apply Z.div_pos; lia|apply Z.lt_succ_r,
                                     Z.div_lt_upper_bound; lia]).
  cbn [andb]. rewrite andb_true_r.
  apply andb_true_iff. rewrite !Z.leb_le. lia.
Qed.

Lemma is_buffer_cons (b : Z) (buf : Buffer) :
  is_buffer (b :: buf) = is_byte b && is_buffer buf.
Proof. reflexivity. Qed.

Lemma is_buffer_buildV31 (m : TslBaseMessage) : is_buffer (buildV31 m) = true.
Proof.
  unfold buildV31.
  now rewrite !is_buffer_cons, !is_byte_u8, is_buffer_asciiEncode.
Qed.

Lemma is_buffer_buildV40 (m : TslV40Message) : is_buffer (buildV40 m) = true.
Proof.
  unfold buildV40. rewrite is_buffer_app, is_buffer_buildV31.
  rewrite !is_buffer_cons, !is_byte_u8. reflexivity.
Qed.

Lemma is_buffer_buildDisplays (uni : bool) (ds : list TslV50DisplayMessage) :
  forall bs, buildDisplays uni ds = Some bs -> is_buffer bs = true.
Proof.
  induction ds as [|d ds IH]; intros bs; cbn [buildDisplays].
  - intros H. injection H as <-. reflexivity.
  - unfold buildDisplay.
    destruct (writeUInt16LE (index d)) as [ib|] eqn:Hi; [|discriminate].
    destruct (writeUInt16LE (displayControl d)) as [cb|] eqn:Hc;
      [|discriminate].
    destruct (writeUInt16LE (Z.of_nat _)) as [lb|] eqn:Hl; [|discriminate].
    destruct (buildDisplays uni ds) as [bs'|]; [|discriminate].
    intros H. injection H as <-.
    rewrite !is_buffer_app, (is_buffer_writeUInt16LE _ _ Hi),
      (is_buffer_writeUInt16LE _ _ Hc), (is_buffer_writeUInt16LE _ _ Hl),
      (IH bs' eq_refl).
    unfold textBytes. destruct uni;
      [rewrite is_buffer_utf16leEncode|rewrite is_buffer_asciiEncode];
      reflexivity.
Qed.

Lemma is_buffer_buildV50 (m : TslV50Message) (buf : Buffer) :
  buildV50 m = Some buf -> is_buffer buf = true.
Proof.
  unfold buildV50.
  destruct (writeUInt16LE (dataSize m)) as [pb|] eqn:Hp; [|discriminate].
  destruct (writeUInt16LE (screen m)) as [sb|] eqn:Hs; [|discriminate].
  destruct (buildDisplays _ _) as [bs|] eqn:Hb; [|discriminate].
  intros H. injection H as <-.
  repeat (rewrite is_buffer_app || rewrite is_buffer_cons).
  rewrite (is_buffer_writeUInt16LE _ _ Hp), (is_buffer_writeUInt16LE _ _ Hs),
    (is_buffer_buildDisplays _ _ _ Hb), !is_byte_u8.
  reflexivity.
Qed.

(** [buildV50] returns a buffer exactly for the encodable messages. *)
Lemma buildV50_some_iff (m : TslV50Message) :
  (exists buf, buildV50 m = Some buf) <-> encodableV50 m = true.
Proof.
  split; [|apply buildV50_some].
  intros [buf H]. apply buildV50_inv in H as (bs & Hbs & Hsz & Hscr & _).
  unfold encodableV50. rewrite Hsz, Hscr. cbn [andb].
  clear Hsz Hscr. revert bs Hbs.
  induction (displays m) as [|d ds IH]; intros bs Hbs; [reflexivity|].
  cbn [buildDisplays forallb] in *.
  destruct (buildDisplay _ d) as [b|] eqn:Hd; [|discriminate].
  destruct (buildDisplays _ ds) as [bs'|]; [|discriminate].
  apply buildDisplay_inv in Hd as (-> & _). cbn [andb].
  now apply (IH bs').
Qed.

(** The example of the specification: [buildV31] of "CAM 1" at address 1 with
    tally 1 and full brightness is 0x81, 0x31, "CAM 1" and 11 spaces. *)
Lemma buildV31_cam1_bytes :
  buildV31 cam1 = 129 :: 49 :: [67; 65; 77; 32; 49] ++ repeat 32 11.
Proof. reflexivity. Qed.

(* ================================================================== *)
(** * What survives an encoding, in general *)
(* ================================================================== *)

Lemma header_of_address (a : Z) :
  headerInRange (u8 (a + 128)) = (a mod 256 <=? 126)
  /\ (a mod 256 <= 126 -> u8 (a + 128) - 128 = a mod 256).
Proof.
  unfold u8, headerInRange.
  pose proof (Z.mod_pos_bound a 256 ltac:(lia)) as Hr.
  rewrite Zplus_mod.
  change (128 mod 256) with 128.
  destruct (Z.lt_ge_cases (a mod 256) 128) as [Hlt|Hge].
  - rewrite (Z.mod_small (a mod 256 + 128)) by lia. split; [|lia].
    destruct (Z.leb_spec 128 (a mod 256 + 128));
      destruct (Z.leb_spec (a mod 256 + 128) 254);
      destruct (Z.leb_spec (a mod 256) 126); cbn [andb]; lia.
  - assert (E : (a mod 256 + 128) mod 256 = a mod 256 - 128).
    { symmetry. apply (Z.mod_unique _ _ 1); lia. }
    rewrite E. split; [|lia].
    destruct (Z.leb_spec 128 (a mod 256 - 128));
      destruct (Z.leb_spec (a mod 256) 126); cbn [andb]; lia.
Qed.

Lemma slice_text_buildV31 (m : TslBaseMessage) (rest : Buffer) :
  slice (buildV31 m ++ rest) 2 18 = asciiEncode (pad16 (displayText m)).
Proof.
  unfold slice, buildV31. cbn [app skipn Nat.sub].
  apply firstn_exact. unfold asciiEncode.
  now rewrite length_map, pad16_length.
Qed.

Lemma parseV31_buildV31_in_range (m : TslBaseMessage) (rest : Buffer) :
  address m mod 256 <= 126 ->
  parseV31 (buildV31 m ++ rest)
  = Some {| address := address m mod 256;
            tally1 := tally1 m; tally2 := tally2 m;
            tally3 := tally3 m; tally4 := tally4 m;
            brightness := brightness m;
            displayText := sanitize16 (displayText m) |}.
Proof.
  intros Hle.
  destruct (header_of_address (address m)) as [Hh Ha].
  assert (H0 : byteAt (buildV31 m ++ rest) 0 = u8 (address m + 128))
    by reflexivity.
  rewrite parseV31_some.
  - rewrite H0, (Ha Hle).
    change (byteAt (buildV31 m ++ rest) 1) with (u8 (controlByte m)).
    destruct (controlByte_decode m) as (_ & -> & -> & -> & -> & ->).
    rewrite slice_text_buildV31.
    unfold sanitize16, asciiDecode, asciiEncode. now rewrite !map_map.
  - rewrite length_app, buildV31_length. lia.
  - rewrite H0, Hh. now apply Z.leb_le.
Qed.

Lemma parseV31_buildV31_out_of_range (m : TslBaseMessage) (rest : Buffer) :
  126 < address m mod 256 ->
  parseV31 (buildV31 m ++ rest) = None.
Proof.
  intros Hgt.
  destruct (header_of_address (address m)) as [Hh _].
  assert (H0 : byteAt (buildV31 m ++ rest) 0 = u8 (address m + 128))
    by reflexivity.
  unfold parseV31.
  destruct (length (buildV31 m ++ rest) <? 18)%nat; [reflexivity|].
  rewrite H0. unfold headerInRange in Hh.
  destruct (Z.leb_spec (address m mod 256) 126); [lia|].
  destruct (Z.ltb_spec (u8 (address m + 128)) 128);
    destruct (Z.ltb_spec 254 (u8 (address m + 128)));
    cbn [orb]; try reflexivity.
  destruct (Z.leb_spec 128 (u8 (address m + 128)));
    destruct (Z.leb_spec (u8 (address m + 128)) 254);
    cbn [andb] in Hh; try lia; discriminate Hh.
Qed.

(** X1.  [buildV31] does not check its input, and [parseV31] reads the
    encoding back as follows, whatever follows the 18 bytes: it succeeds
    exactly when the address modulo 256 is at most 126; the decoded address
    is the address modulo 256, the tallies and the brightness are those
    given, and the text is the given text padded or cut to 16 code units,
    each cut to 7 bits with control characters replaced by spaces. *)
Theorem parseV31_buildV31_any (m : TslBaseMessage) (rest : Buffer) :
  parseV31 (buildV31 m ++ rest)
  = if address m mod 256 <=? 126
    then Some {| address := address m mod 256;
                 tally1 := tally1 m; tally2 := tally2 m;
                 tally3 := tally3 m; tally4 := tally4 m;
                 brightness := brightness m;
                 displayText := sanitize16 (displayText m) |}
    else None.
Proof.
  destruct (Z.leb_spec (address m mod 256) 126) as [Hle|Hgt].
  - now apply parseV31_buildV31_in_range.
  - now apply parseV31_buildV31_out_of_range.
Qed.

Lemma pad16_id (s : JsString) : length s = 16%nat -> pad16 s = s.
Proof.
  intros H. rewrite pad16_eq, H. cbn [Nat.sub repeat].
  rewrite app_nil_r. apply firstn_all2. lia.
Qed.

Lemma parseV31_inv (buffer : Buffer) (m : TslBaseMessage) :
  parseV31 buffer = Some m ->
  (18 <= length buffer)%nat
  /\ headerInRange (byteAt buffer 0) = true
  /\ address m = byteAt buffer 0 - 128
  /\ displayText m = map replaceControl (asciiDecode (slice buffer 2 18)).
Proof.
  unfold parseV31.
  destruct (Nat.ltb_spec (length buffer) 18); [discriminate|].
  destruct (Z.ltb_spec (byteAt buffer 0) 128); [discriminate|].
  destruct (Z.ltb_spec 254 (byteAt buffer 0)); [discriminate|].
  cbn [orb]. intros E. injection E as <-. cbn [address displayText].
  repeat split; try lia.
  unfold headerInRange. apply andb_true_iff. rewrite !Z.leb_le. lia.
Qed.

Lemma parseV31_valid (buffer : Buffer) (m : TslBaseMessage) :
  parseV31 buffer = Some m ->
  validV31 m = true /\ length (displayText m) = 16%nat.
Proof.
  intros H. apply parseV31_inv in H as (Hlen & Hh & Ha & Ht).
  unfold headerInRange in Hh. apply andb_true_iff in Hh as [H1 H2].
  apply Z.leb_le in H1, H2.
  assert (Hl : length (displayText m) = 16%nat).
  { rewrite Ht. unfold asciiDecode. rewrite !length_map.
    apply length_slice. lia. }
  split; [|exact Hl].
  unfold validV31. rewrite Ha.
  apply andb_true_iff. split.
  - apply andb_true_iff. rewrite !Z.leb_le. lia.
  - rewrite firstn_all2 by lia. rewrite Ht.
    apply forallb_forall. intros c Hc.
    unfold asciiDecode in Hc. rewrite map_map in Hc.
    apply in_map_iff in Hc as (b & <- & _).
    apply replaceControl_printable, land127_range.
Qed.

Lemma padded_id (m : TslBaseMessage) :
  length (displayText m) = 16%nat -> padded m = m.
Proof.
  intros H. unfold padded. rewrite (pad16_id _ H). now destruct m.
Qed.

(** X2.  What [parseV31] returns is a valid V3.1 value with a text of exactly
    16 printable characters, and it is a fixed point of the codec: encoding
    it with [buildV31] and decoding again, by [parseV31] or by [parse], gives
    the same value. *)
Theorem parseV31_result_fixed_point (buffer : Buffer) (m : TslBaseMessage) :
  parseV31 buffer = Some m ->
  validV31 m = true
  /\ length (displayText m) = 16%nat
  /\ forallb isPrintable (displayText m) = true
  /\ parseV31 (buildV31 m) = Some m
  /\ parse (buildV31 m) = Some (MsgV31 m).
Proof.
  intros H. destruct (parseV31_valid buffer m H) as [Hv Hl].
  destruct (parse_buildV31 m Hv) as [H1 H2].
  rewrite (padded_id m Hl) in H1, H2.
  repeat split; try assumption.
  apply validV31_spec in Hv as [_ Ht]. now rewrite firstn_all2 in Ht by lia.
Qed.

Lemma parseV31_result_fixed_point_witness :
  parseV31 highBytePacket
  = Some {| address := 0;
            tally1 := false; tally2 := false;
            tally3 := false; tally4 := false;
            brightness := BR_OFF;
            displayText := 65 :: repeat 32 15 |}
  /\ parse (buildV31 {| address := 0;
                        tally1 := false; tally2 := false;
                        tally3 := false; tally4 := false;
                        brightness := BR_OFF;
                        displayText := 65 :: repeat 32 15 |})
     = Some (MsgV31 {| address := 0;
                       tally1 := false; tally2 := false;
                       tally3 := false; tally4 := false;
                       brightness := BR_OFF;
                       displayText := 65 :: repeat 32 15 |}).
Proof.
  assert (H : parseV31 highBytePacket
              = Some {| address := 0;
                        tally1 := false; tally2 := false;
                        tally3 := false; tally4 := false;
                        brightness := BR_OFF;
                        displayText := 65 :: repeat 32 15 |})
    by reflexivity.
  split; [exact H|].
  exact (proj2 (proj2 (proj2 (proj2
           (parseV31_result_fixed_point highBytePacket _ H))))).
Defined.

Lemma parseV40_inv (buffer : Buffer) (m : TslV40Message) :
  parseV40 buffer = Some m ->
  (22 <= length buffer)%nat
  /\ parseV31 buffer = Some (base m)
  /\ byteAt buffer 18 = expectedChecksum buffer
  /\ Z.land (byteAt buffer 19) 15 <= Z.of_nat (length buffer) - 20
  /\ leftDisplay m = parseTallyByte (byteAt buffer 20)
  /\ rightDisplay m = parseTallyByte (byteAt buffer 21).
Proof.
  unfold parseV40.
  destruct (Nat.ltb_spec (length buffer) 22); [discriminate|].
  destruct (parseV31 buffer) as [v31|]; [|discriminate].
  destruct (Z.eqb_spec (byteAt buffer 18) (expectedChecksum buffer));
    [|discriminate].
  cbn [negb].
  destruct (Z.ltb_spec (Z.of_nat (length buffer))
              (20 + Z.land (byteAt buffer 19) 15)); [discriminate|].
  intros E. injection E as <-. cbn [base leftDisplay rightDisplay].
  repeat split; try assumption; lia.
Qed.

(** X3.  What [parseV40] returns is a fixed point of the codec: encoding it
    with [buildV40] and decoding again, by [parseV40] or by [parse], gives
    the same value; its text has 16 printable characters. *)
Theorem parseV40_result_fixed_point (buffer : Buffer) (m : TslV40Message) :
  parseV40 buffer = Some m ->
  validV40 m = true
  /\ length (displayText (base m)) = 16%nat
  /\ parseV40 (buildV40 m) = Some m
  /\ parse (buildV40 m) = Some (MsgV40 m).
Proof.
  intros H. apply parseV40_inv in H as (_ & H31 & _).
  destruct (parseV31_valid buffer (base m) H31) as [Hv Hl].
  destruct (parse_buildV40 m Hv) as [H1 H2].
  assert (E : paddedV40 m = m).
  { unfold paddedV40. rewrite (padded_id _ Hl). now destruct m. }
  rewrite E in H1, H2. repeat split; assumption.
Qed.

Lemma parseV40_result_fixed_point_witness :
  parseV40 (buildV40 darkV40) = Some (paddedV40 darkV40)
  /\ parse (buildV40 (paddedV40 darkV40))
     = Some (MsgV40 (paddedV40 darkV40)).
Proof.
  assert (H : parseV40 (buildV40 darkV40) = Some (paddedV40 darkV40))
    by reflexivity.
  split; [exact H|].
  exact (proj2 (proj2 (proj2
           (parseV40_result_fixed_point (buildV40 darkV40) _ H)))).
Defined.

(* ================================================================== *)
(** * Decoding, then encoding *)
(* ================================================================== *)

Lemma small_Z_cases (n : nat) (P : Z -> bool) :
  forallb P (map Z.of_nat (seq 0 n)) = true ->
  forall c, 0 <= c < Z.of_nat n -> P c = true.
Proof.
  intros H c Hc. rewrite forallb_forall in H. apply H.
  apply in_map_iff. exists (Z.to_nat c). split; [lia|].
  apply in_seq. lia.
Qed.

Lemma controlByte_of_decoded (c : Z) (a : Z) (s : JsString) :
  0 <= c <= 63 ->
  u8 (controlByte
        {| address := a;
           tally1 := negb (Z.land c 1 =? 0);
           tally2 := negb (Z.land c 2 =? 0);
           tally3 := negb (Z.land c 4 =? 0);
           tally4 := negb (Z.land c 8 =? 0);
           brightness := Brightness_of_Z (Z.land (Z.shiftr c 4) 3);
           displayText := s |}) = c.
Proof.
  intros Hc.
  apply Z.eqb_eq.
  apply (small_Z_cases 64
           (fun c => u8 (controlByte
                           {| address := 0;
                              tally1 := negb (Z.land c 1 =? 0);
                              tally2 := negb (Z.land c 2 =? 0);
                              tally3 := negb (Z.land c 4 =? 0);
                              tally4 := negb (Z.land c 8 =? 0);
                              brightness :=
                                Brightness_of_Z (Z.land (Z.shiftr c 4) 3);
                              displayText := [] |}) =? c));
    [vm_compute; reflexivity|lia].
Qed.

Lemma buildTallyByte_of_parsed (b : Z) :
  0 <= b <= 63 -> u8 (buildTallyByte (parseTallyByte b)) = b.
Proof.
  intros Hb. apply Z.eqb_eq.
  apply (small_Z_cases 64
           (fun b => u8 (buildTallyByte (parseTallyByte b)) =? b));
    [vm_compute; reflexivity|lia].
Qed.

Lemma ascii_encode_of_decoded (t : Buffer) :
  forallb isPrintable t = true ->
  asciiEncode (map replaceControl (asciiDecode t)) = t.
Proof.
  unfold asciiEncode, asciiDecode. rewrite !map_map.
  induction t as [|b t IH]; cbn [forallb map]; [reflexivity|].
  intros H. apply andb_true_iff in H as [Hb Ht].
  rewrite (IH Ht). f_equal.
  pose proof (proj1 (isPrintable_spec b) Hb).
  rewrite land127_small by lia.
  rewrite replaceControl_cases, Hb. apply Z.mod_small. lia.
Qed.

Lemma buildV31_of_parsed (h c : Z) (t : Buffer) :
  headerInRange h = true ->
  0 <= c <= 63 ->
  length t = 16%nat ->
  forallb isPrintable t = true ->
  exists m,
    parseV31 (h :: c :: t) = Some m /\ buildV31 m = h :: c :: t.
Proof.
  intros Hh Hc Hl Ht.
  eexists. split.
  - apply parseV31_some; [cbn [length]; lia|exact Hh].
  - unfold buildV31. cbn [address displayText byteAt nth].
    unfold headerInRange in Hh. apply andb_true_iff in Hh as [H1 H2].
    apply Z.leb_le in H1, H2.
    assert (Hs : slice (h :: c :: t) 2 18 = t).
    { unfold slice. cbn [skipn Nat.sub]. apply firstn_all2. lia. }
    rewrite Hs, controlByte_of_decoded by exact Hc.
    rewrite pad16_id by (unfold asciiDecode; now rewrite !length_map).
    rewrite ascii_encode_of_decoded by exact Ht.
    unfold u8. rewrite Z.mod_small by lia. do 2 f_equal. lia.
Qed.

(** X4.  Encoding is a left inverse of decoding on canonical V3.1 packets:
    for a buffer of exactly 18 bytes with its header in 0x80..0xFE, the two
    high bits of the control byte clear and 16 printable text bytes,
    [parseV31] succeeds and [buildV31] of its result is the buffer, byte for
    byte.  So two different canonical packets never decode to the same
    message. *)
Theorem buildV31_parseV31_canonical (buffer : Buffer) :
  length buffer = 18%nat ->
  headerInRange (byteAt buffer 0) = true ->
  0 <= byteAt buffer 1 <= 63 ->
  forallb isPrintable (slice buffer 2 18) = true ->
  exists m, parseV31 buffer = Some m /\ buildV31 m = buffer.
Proof.
  intros Hl Hh Hc Ht.
  destruct buffer as [|h [|c t]]; try (cbn [length] in Hl; lia).
  assert (Hs : slice (h :: c :: t) 2 18 = t).
  { unfold slice. cbn [skipn Nat.sub]. apply firstn_all2.
    cbn [length] in Hl. lia. }
  rewrite Hs in Ht. cbn [byteAt nth] in Hh, Hc.
  apply buildV31_of_parsed; try assumption. cbn [length] in Hl. lia.
Qed.

Lemma buildV31_parseV31_canonical_witness :
  let buffer := buildV31 cam1 in
  length buffer = 18%nat
  /\ headerInRange (byteAt buffer 0) = true
  /\ 0 <= byteAt buffer 1 <= 63
  /\ forallb isPrintable (slice buffer 2 18) = true
  /\ exists m, parseV31 buffer = Some m /\ buildV31 m = buffer.
Proof.
  intro buffer.
  assert (H1 : length buffer = 18%nat) by reflexivity.
  assert (H2 : headerInRange (byteAt buffer 0) = true) by reflexivity.
  assert (H3 : 0 <= byteAt buffer 1 <= 63) by (vm_compute; split; discriminate).
  assert (H4 : forallb isPrintable (slice buffer 2 18) = true) by reflexivity.
  split; [exact H1|]. split; [exact H2|]. split; [exact H3|].
  split; [exact H4|].
  exact (buildV31_parseV31_canonical buffer H1 H2 H3 H4).
Defined.

(** X5.  Encoding is a left inverse of decoding on canonical V4.0 packets:
    for a buffer of exactly 22 bytes whose first 18 bytes are a canonical
    V3.1 packet, whose byte 18 is the checksum, whose VBC byte is 0x02 and
    whose two tally bytes have their two high bits clear, [parseV40] succeeds
    and [buildV40] of its result is the buffer, byte for byte. *)
Theorem buildV40_parseV40_canonical (buffer : Buffer) :
  length buffer = 22%nat ->
  headerInRange (byteAt buffer 0) = true ->
  0 <= byteAt buffer 1 <= 63 ->
  forallb isPrintable (slice buffer 2 18) = true ->
  byteAt buffer 18 = expectedChecksum buffer ->
  byteAt buffer 19 = 2 ->
  0 <= byteAt buffer 20 <= 63 ->
  0 <= byteAt buffer 21 <= 63 ->
  exists m, parseV40 buffer = Some m /\ buildV40 m = buffer.
Proof.
  intros Hl Hh Hc Ht Hk Hv H20 H21.
  assert (Hl18 : length (firstn 18 buffer) = 18%nat)
    by (rewrite length_firstn; lia).
  destruct (buildV31_parseV31_canonical (firstn 18 buffer)) as (b & Hp & Hb).
  - exact Hl18.
  - unfold byteAt in *. now rewrite nth_firstn.
  - unfold byteAt in *. now rewrite nth_firstn.
  - unfold slice in *. cbn [Nat.sub] in *.
    rewrite skipn_firstn_comm. cbn [Nat.sub].
    rewrite firstn_firstn. exact Ht.
  - assert (Hp' : parseV31 buffer = Some b).
    { rewrite (parseV31_some buffer) by (lia || exact Hh).
      rewrite (parseV31_some (firstn 18 buffer)) in Hp.
      - rewrite <- Hp. unfold byteAt, slice. rewrite !nth_firstn.
        cbn [Nat.ltb Nat.leb Nat.sub].
        rewrite skipn_firstn_comm. cbn [Nat.sub].
        now rewrite firstn_firstn.
      - lia.
      - unfold byteAt in *. now rewrite nth_firstn. }
    exists {| base := b;
              leftDisplay := parseTallyByte (byteAt buffer 20);
              rightDisplay := parseTallyByte (byteAt buffer 21) |}.
    split.
    + unfold parseV40. rewrite Hl, Hp', Hk, Z.eqb_refl, Hv. reflexivity.
    + unfold buildV40. cbn [base leftDisplay rightDisplay].
      rewrite !buildTallyByte_of_parsed by assumption.
      rewrite Hb.
      rewrite (expectedChecksum_prefix (firstn 18 buffer ++ [0; 0; 0; 0])
                 buffer)
        by (rewrite firstn_exact by exact Hl18; reflexivity).
      rewrite <- Hk, <- Hv.
      unfold u8. rewrite Z.mod_small
        by (rewrite Hk; pose proof (expectedChecksum_range buffer); lia).
      transitivity (firstn 18 buffer ++ skipn 18 buffer);
        [|apply firstn_skipn].
      f_equal.
      assert (Hb18 : forall k,
                 byteAt buffer (18 + k) = nth k (skipn 18 buffer) 0)
        by (intros k; unfold byteAt; now rewrite nth_skipn).
      assert (Hl4 : length (skipn 18 buffer) = 4%nat)
        by (rewrite length_skipn; lia).
      pose proof (Hb18 0%nat) as E0. pose proof (Hb18 1%nat) as E1.
      pose proof (Hb18 2%nat) as E2. pose proof (Hb18 3%nat) as E3.
      cbn [Nat.add] in E0, E1, E2, E3. rewrite E0, E1, E2, E3.
      destruct (skipn 18 buffer) as [|x0 [|x1 [|x2 [|x3 [|x4 tl]]]]];
        cbn [length] in Hl4; try lia.
      reflexivity.
Qed.

Lemma buildV40_parseV40_canonical_witness :
  let buffer := buildV40 darkV40 in
  length buffer = 22%nat
  /\ exists m, parseV40 buffer = Some m /\ buildV40 m = buffer.
Proof.
  intro buffer. split; [reflexivity|].
  apply (buildV40_parseV40_canonical buffer);
    try reflexivity; vm_compute; split; discriminate.
Defined.

(* ================================================================== *)
(** * Detection and decoding together *)
(* ================================================================== *)

Lemma detectVersion_length (buffer : Buffer) (v : ProtocolVersion) :
  detectVersion buffer = Some v -> (2 <= length buffer)%nat.
Proof.
  unfold detectVersion.
  destruct (Nat.ltb_spec (length buffer) 2); [discriminate|]. lia.
Qed.

Lemma parseV50_length (buffer : Buffer) (m : TslV50Message) :
  parseV50 buffer = Some m -> (6 <= length buffer)%nat.
Proof.
  unfold parseV50.
  destruct (Nat.ltb_spec (length buffer) 6); [discriminate|]. lia.
Qed.

(** X6.  Whatever [parse] returns was decoded by the parser of the version
    that [detectVersion] answers, and no short buffer parses: a V3.1 message
    needs at least 18 bytes, a V4.0 message at least 22 and a V5.0 message at
    least 6, so [parse] fails on every buffer of fewer than 6 bytes.  A
    V3.1 or V4.0 message returned by [parse] has its address in 0..126 and a
    text of 16 printable characters. *)
Theorem parse_sound (buffer : Buffer) (m : TslMessage) :
  parse buffer = Some m ->
  detectVersion buffer = Some (version m)
  /\ decodeAs (version m) buffer = Some m
  /\ (6 <= length buffer)%nat
  /\ match m with
     | MsgV31 b => (18 <= length buffer)%nat /\ validV31 b = true
                   /\ length (displayText b) = 16%nat
     | MsgV40 v => (22 <= length buffer)%nat /\ validV40 v = true
                   /\ length (displayText (base v)) = 16%nat
                   /\ byteAt buffer 18 = expectedChecksum buffer
     | MsgV50 v => packetByteCount v = Z.of_nat (length buffer) - 2
     end.
Proof.
  unfold parse.
  destruct (detectVersion buffer) as [[| |]|] eqn:Hd; [| | |discriminate].
  - destruct (parseV31 buffer) as [b|] eqn:Hp; [|discriminate].
    intros E. injection E as <-. cbn [version decodeAs]. rewrite Hp.
    destruct (parseV31_valid buffer b Hp) as [Hv Hl].
    apply parseV31_inv in Hp as (Hlen & _).
    repeat split; try assumption; lia.
  - destruct (parseV40 buffer) as [v|] eqn:Hp; [|discriminate].
    intros E. injection E as <-. cbn [version decodeAs]. rewrite Hp.
    apply parseV40_inv in Hp as (Hlen & H31 & Hck & _).
    destruct (parseV31_valid buffer (base v) H31) as [Hv Hl].
    repeat split; try assumption; lia.
  - destruct (parseV50 buffer) as [v|] eqn:Hp; [|discriminate].
    intros E. injection E as <-. cbn [version decodeAs]. rewrite Hp.
    pose proof (parseV50_length buffer v Hp) as Hlen.
    apply detectVersion_V50_elim in Hd as [_ Hpbc].
    rewrite (parseV50_packetByteCount buffer v Hp).
    repeat split; try assumption.
Qed.

Lemma parse_sound_witness :
  parse (buildV31 cam1) = Some (MsgV31 (padded cam1))
  /\ detectVersion (buildV31 cam1) = Some V3_1.
Proof.
  assert (H : parse (buildV31 cam1) = Some (MsgV31 (padded cam1)))
    by reflexivity.
  split; [exact H|].
  exact (proj1 (parse_sound (buildV31 cam1) _ H)).
Defined.

(** X7.  [parse] succeeds on every buffer that [detectVersion] classifies
    V5.0, with the byte count, the minor version, the flags and the screen
    read from the six header bytes; and on a buffer classified V3.1 it
    succeeds exactly when the buffer has at least 18 bytes. *)
Theorem parse_after_detect (buffer : Buffer) :
  (detectVersion buffer = Some V5_0 ->
   exists m,
     parse buffer = Some (MsgV50 m)
     /\ packetByteCount m = Z.of_nat (length buffer) - 2
     /\ minorVersion m = byteAt buffer 2
     /\ unicode (flags m) = negb (Z.land (byteAt buffer 3) 1 =? 0)
     /\ screenControl (flags m) = negb (Z.land (byteAt buffer 3) 2 =? 0)
     /\ screen m = readUInt16LE buffer 4
     /\ (screenControl (flags m) = true -> displays m = []))
  /\ (detectVersion buffer = Some V3_1 ->
      (parse buffer = None <-> (length buffer < 18)%nat)).
Proof.
  split.
  - intros Hd. unfold parse. rewrite Hd.
    apply detectVersion_V50_elim in Hd as [Hlen Hpbc].
    unfold parseV50.
    destruct (Nat.ltb_spec (length buffer) 6); [lia|].
    rewrite Hpbc, Z.eqb_refl. cbn [negb].
    destruct (negb (Z.land (byteAt buffer 3) 2 =? 0)) eqn:Hsc.
    + eexists. split; [reflexivity|].
      cbn [packetByteCount minorVersion flags unicode screenControl screen
             displays].
      repeat split; reflexivity.
    + destruct (walk_enough_fuel buffer
                  (negb (Z.land (byteAt buffer 3) 1 =? 0))
                  (length buffer) 6 []) as [ds Hds]; [lia|].
      rewrite Hds. eexists. split; [reflexivity|].
      cbn [packetByteCount minorVersion flags unicode screenControl screen
             displays].
      repeat split; try reflexivity. discriminate.
  - intros Hd. unfold parse. rewrite Hd.
    assert (Hh : headerInRange (byteAt buffer 0) = true).
    { revert Hd. unfold detectVersion.
      destruct (length buffer <? 2)%nat; [discriminate|].
      destruct (_ && _); [discriminate|].
      destruct (headerInRange _); [reflexivity|discriminate]. }
    destruct (Nat.lt_ge_cases (length buffer) 18) as [Hlt|Hge].
    + split; [intros _; exact Hlt|intros _].
      unfold parseV31.
      destruct (Nat.ltb_spec (length buffer) 18); [reflexivity|lia].
    + rewrite parseV31_some by assumption.
      split; [discriminate|lia].
Qed.

(** X8.  A buffer of 19, 20 or 21 bytes with a V3.1 header whose byte 18
    equals the checksum of the first 18 bytes (and whose first 16 bits are
    not its length minus two) is classified V4.0 and then rejected by
    [parseV40], which wants 22 bytes: [parse] fails on it, although
    [parseV31] decodes its first 18 bytes. *)
Theorem parse_short_V40_fails (buffer : Buffer) :
  (19 <= length buffer <= 21)%nat ->
  headerInRange (byteAt buffer 0) = true ->
  readUInt16LE buffer 0 <> Z.of_nat (length buffer) - 2 ->
  byteAt buffer 18 = expectedChecksum buffer ->
  detectVersion buffer = Some V4_0
  /\ parse buffer = None
  /\ exists m, parseV31 buffer = Some m.
Proof.
  intros Hlen Hh Hpbc Hck.
  assert (Hd : detectVersion buffer = Some V4_0).
  { unfold detectVersion.
    destruct (Nat.ltb_spec (length buffer) 2); [lia|].
    destruct (Z.eqb_spec (readUInt16LE buffer 0)
                (Z.of_nat (length buffer) - 2)); [contradiction|].
    rewrite andb_false_r, Hh.
    destruct (Nat.ltb_spec 18 (length buffer)); [|lia].
    now rewrite Hck, Z.eqb_refl. }
  split; [exact Hd|]. split.
  - unfold parse. rewrite Hd. unfold parseV40.
    destruct (Nat.ltb_spec (length buffer) 22); [reflexivity|lia].
  - eexists. apply parseV31_some; [lia|exact Hh].
Qed.

Lemma parse_short_V40_fails_witness :
  let buffer := firstn 20 (buildV40 darkV40) in
  (19 <= length buffer <= 21)%nat
  /\ headerInRange (byteAt buffer 0) = true
  /\ readUInt16LE buffer 0 <> Z.of_nat (length buffer) - 2
  /\ byteAt buffer 18 = expectedChecksum buffer
  /\ detectVersion buffer = Some V4_0
  /\ parse buffer = None
  /\ exists m, parseV31 buffer = Some m.
Proof.
  intro buffer.
  assert (H1 : (19 <= length buffer <= 21)%nat) by (vm_compute; lia).
  assert (H2 : headerInRange (byteAt buffer 0) = true) by reflexivity.
  assert (H3 : readUInt16LE buffer 0 <> Z.of_nat (length buffer) - 2)
    by (vm_compute; discriminate).
  assert (H4 : byteAt buffer 18 = expectedChecksum buffer) by reflexivity.
  split; [exact H1|]. split; [exact H2|]. split; [exact H3|].
  split; [exact H4|].
  exact (parse_short_V40_fails buffer H1 H2 H3 H4).
Defined.

(* ================================================================== *)
(** * The V4.0 checksum *)
(* ================================================================== *)

Lemma expectedChecksum_mod (buf : Buffer) :
  expectedChecksum buf = (- sum18 buf) mod 128.
Proof.
  unfold expectedChecksum. rewrite land127_mod. f_equal.
  generalize (sum18 buf). intros s. unfold Z.lnot. lia.
Qed.

Lemma checksum_zero_sum (buf : Buffer) :
  byteAt buf 18 = expectedChecksum buf ->
  (sum18 buf + byteAt buf 18) mod 128 = 0.
Proof.
  intros ->. rewrite expectedChecksum_mod.
  rewrite Zplus_mod_idemp_r.
  generalize (sum18 buf). intros s.
  replace (s + - s) with 0 by lia. reflexivity.
Qed.

(** X9.  The checksum [(~sum + 1) & 0x7F] is the two's complement of the sum
    modulo 128: in every buffer that [buildV40] produces, and in every buffer
    that [parseV40] accepts, bytes 0 to 18 add up to a multiple of 128; and
    the checksum byte that [buildV40] writes is at most 0x7F, so it is never
    a V3.1/V4.0 header byte. *)
Theorem checksum_sums_to_zero :
  (forall m : TslV40Message,
      (sum18 (buildV40 m) + byteAt (buildV40 m) 18) mod 128 = 0
      /\ 0 <= byteAt (buildV40 m) 18 <= 127
      /\ headerInRange (byteAt (buildV40 m) 18) = false)
  /\ (forall (buffer : Buffer) (m : TslV40Message),
         parseV40 buffer = Some m ->
         (sum18 buffer + byteAt buffer 18) mod 128 = 0)
  /\ (forall buffer : Buffer,
         detectVersion buffer = Some V4_0 ->
         (sum18 buffer + byteAt buffer 18) mod 128 = 0).
Proof.
  split; [|split].
  - intros m. pose proof (buildV40_checksum m) as Hk.
    pose proof (expectedChecksum_range (buildV40 m)) as Hr.
    split; [now apply checksum_zero_sum|]. rewrite Hk.
    split; [exact Hr|].
    unfold headerInRange.
    destruct (Z.leb_spec 128 (expectedChecksum (buildV40 m)));
      [lia|reflexivity].
  - intros buffer m H. apply parseV40_inv in H as (_ & _ & Hk & _).
    now apply checksum_zero_sum.
  - intros buffer H. apply detectVersion_V40_elim in H.
    now apply checksum_zero_sum.
Qed.

(* ================================================================== *)
(** * V5.0: what the display walk returns *)
(* ================================================================== *)

Lemma utf16leDecode_length (n : nat) :
  forall buf, (length buf <= n)%nat ->
              (2 * length (utf16leDecode buf) <= length buf)%nat.
Proof.
  induction n as [|n IH]; intros buf Hn.
  - destruct buf; [cbn; lia|cbn [length] in Hn; lia].
  - destruct buf as [|lo [|hi rest]]; cbn [utf16leDecode length]; try lia.
    specialize (IH rest). cbn [length] in Hn.
    assert (length rest <= n)%nat by lia. specialize (IH H). lia.
Qed.

Lemma utf16leEncode_length (s : JsString) :
  length (utf16leEncode s) = (2 * length s)%nat.
Proof.
  unfold utf16leEncode. induction s as [|c s IH]; [reflexivity|].
  cbn [flat_map app length]. rewrite IH. lia.
Qed.

Lemma walkStep_size (buffer : Buffer) (uni : bool) (offset offset' : nat)
    (d : TslV50DisplayMessage) :
  walkStep buffer uni offset = Some (offset', d) ->
  displaySize uni d <= Z.of_nat offset' - Z.of_nat offset.
Proof.
  unfold walkStep.
  destruct (Nat.ltb_spec (length buffer - offset) 6); [discriminate|].
  destruct (negb _); [discriminate|].
  destruct (Nat.ltb_spec (length buffer - (offset + 6))
              (Z.to_nat (readUInt16LE buffer (offset + 4)))) as [|Hfit];
    [discriminate|].
  intros E. injection E as <- <-.
  set (tl := Z.to_nat (readUInt16LE buffer (offset + 4))) in *.
  assert (Hs : length (slice buffer (offset + 6) (offset + 6 + tl)) = tl).
  { rewrite length_slice by lia. lia. }
  rewrite displaySize_eq. unfold textBytes. cbn [text].
  destruct uni.
  - rewrite utf16leEncode_length.
    pose proof (utf16leDecode_length _ _ (Nat.le_refl
                  (length (slice buffer (offset + 6) (offset + 6 + tl))))).
    lia.
  - unfold asciiEncode, asciiDecode. rewrite !length_map. lia.
Qed.

Lemma walk_size (fuel : nat) (buffer : Buffer) (uni : bool) :
  forall offset acc ds,
    walk fuel buffer uni offset acc = Some ds ->
    (offset <= length buffer)%nat ->
    fold_right (fun d s => displaySize uni d + s) 0 ds
    <= fold_right (fun d s => displaySize uni d + s) 0 acc
       + Z.of_nat (length buffer) - Z.of_nat offset.
Proof.
  induction fuel as [|fuel IH]; intros offset acc ds; cbn [walk].
  - destruct (offset <? length buffer)%nat; [discriminate|].
    intros E Hle. injection E as <-. lia.
  - destruct (Nat.ltb_spec offset (length buffer)) as [Hlt|Hge].
    + destruct (walkStep buffer uni offset) as [[offset' d]|] eqn:Hstep.
      * intros Hw _.
        pose proof (walkStep_advance _ _ _ _ _ Hstep) as Hadv.
        apply IH in Hw; [|lia].
        pose proof (walkStep_size _ _ _ _ _ Hstep) as Hd.
        assert (Hacc : fold_right (fun d s => displaySize uni d + s) 0
                                  (acc ++ [d])
                       = fold_right (fun d s => displaySize uni d + s) 0 acc
                         + displaySize uni d).
        { clear. induction acc as [|a acc IHa]; cbn [app fold_right]; lia. }
        lia.
      * intros E Hle. injection E as <-. lia.
    + intros E Hle. injection E as <-. lia.
Qed.

Lemma is_byte_byteAt (buffer : Buffer) (i : nat) :
  is_buffer buffer = true -> 0 <= byteAt buffer i <= 255.
Proof.
  intros Hb. unfold byteAt.
  destruct (Nat.lt_ge_cases i (length buffer)) as [Hlt|Hge].
  - unfold is_buffer in Hb. rewrite forallb_forall in Hb.
    specialize (Hb (nth i buffer 0) (nth_In buffer 0 Hlt)).
    unfold is_byte in Hb. apply andb_true_iff in Hb as [H0 H1].
    apply Z.leb_le in H0, H1. lia.
  - rewrite nth_overflow by lia. lia.
Qed.

Lemma isU16_readUInt16LE (buffer : Buffer) (off : nat) :
  is_buffer buffer = true -> isU16 (readUInt16LE buffer off) = true.
Proof.
  intros Hb. apply isU16_spec. unfold readUInt16LE.
  pose proof (is_byte_byteAt buffer off Hb).
  pose proof (is_byte_byteAt buffer (off + 1) Hb). lia.
Qed.

Lemma walk_indices (fuel : nat) (buffer : Buffer) (uni : bool) :
  is_buffer buffer = true ->
  forall offset acc ds,
    walk fuel buffer uni offset acc = Some ds ->
    forallb (fun d => isU16 (index d)) acc = true ->
    forallb (fun d => isU16 (index d)) ds = true.
Proof.
  intros Hb. induction fuel as [|fuel IH]; intros offset acc ds; cbn [walk].
  - destruct (offset <? length buffer)%nat; [discriminate|].
    intros E. now injection E as <-.
  - destruct (offset <? length buffer)%nat;
      [|intros E; now injection E as <-].
    destruct (walkStep buffer uni offset) as [[offset' d]|] eqn:Hstep;
      [|intros E; now injection E as <-].
    intros Hw Hacc. apply (IH _ _ _ Hw).
    rewrite forallb_app, Hacc. cbn [forallb andb]. rewrite andb_true_r.
    revert Hstep. unfold walkStep.
    destruct (_ <? 6)%nat; [discriminate|].
    destruct (negb _); [discriminate|].
    destruct (_ <? _)%nat; [discriminate|].
    intros E. injection E as _ <-. cbn [index].
    now apply isU16_readUInt16LE.
Qed.

(** X10.  A decoded V5.0 message never holds more than its bytes: for every
    buffer that [parseV50] accepts, the size that [buildV50] would compute for
    the decoded message (4 plus, per display, 6 plus the text bytes) is at
    most the decoded packet byte count, which is the buffer length minus two;
    so the buffer holds at least six bytes per decoded display after its six
    header bytes, and [buildV50] encodes the decoded message again into a
    buffer that is not longer than the one decoded. *)
Theorem parseV50_content_bound (buffer : Buffer) (m : TslV50Message) :
  parseV50 buffer = Some m ->
  packetByteCount m = Z.of_nat (length buffer) - 2
  /\ dataSize m <= packetByteCount m
  /\ (6 + 6 * length (displays m) <= length buffer)%nat
  /\ (is_buffer buffer = true ->
      exists again,
        buildV50 m = Some again /\ (length again <= length buffer)%nat).
Proof.
  intros Hp. pose proof (parseV50_packetByteCount _ _ Hp) as Hpbc.
  assert (Hcount : forall uni ds,
             Z.of_nat (6 * length ds)
             <= fold_right (fun d s => displaySize uni d + s) 0 ds).
  { intros uni ds. induction ds as [|d ds IH]; cbn [fold_right length]; [lia|].
    pose proof (displaySize_eq uni d). lia. }
  assert (Hmain : packetByteCount m = Z.of_nat (length buffer) - 2
                  /\ dataSize m <= packetByteCount m
                  /\ (6 + 6 * length (displays m) <= length buffer)%nat
                  /\ screen m = readUInt16LE buffer 4
                  /\ (is_buffer buffer = true ->
                      forallb (fun d => isU16 (index d)) (displays m) = true)).
  { revert Hp. unfold parseV50.
    destruct (Nat.ltb_spec (length buffer) 6) as [|Hlen]; [discriminate|].
    destruct (Z.eqb_spec (readUInt16LE buffer 0)
                (Z.of_nat (length buffer) - 2)) as [Heq|]; [|discriminate].
    cbn [negb]. rewrite Hpbc, Heq.
    destruct (negb (Z.land (byteAt buffer 3) 2 =? 0)).
    - intros E. injection E as <-. rewrite dataSize_eq.
      cbn [displays flags unicode fold_right length screen forallb].
      repeat split; lia.
    - destruct (walk _ _ _ _ _) as [ds|] eqn:Hw; [|discriminate].
      intros E. injection E as <-. rewrite dataSize_eq.
      cbn [displays flags unicode screen].
      pose proof (walk_size _ _ _ _ _ _ Hw ltac:(lia)) as Hsize.
      cbn [fold_right] in Hsize.
      specialize (Hcount (negb (Z.land (byteAt buffer 3) 1 =? 0)) ds).
      repeat split; try lia.
      intros Hb. now apply (walk_indices _ _ _ Hb _ _ _ Hw). }
  destruct Hmain as (H1 & H2 & H3 & Hscr & Hidx).
  repeat split; try assumption.
  intros Hb.
  assert (Hu : isU16 (packetByteCount m) = true)
    by (rewrite Hpbc; now apply isU16_readUInt16LE).
  apply isU16_spec in Hu.
  assert (H4 : 4 <= dataSize m).
  { rewrite dataSize_eq.
    pose proof (displaysSize_nonneg (unicode (flags m)) (displays m)). lia. }
  destruct (buildV50_some m) as [again Hagain].
  - unfold encodableV50. rewrite (Hidx Hb), Hscr.
    rewrite (isU16_readUInt16LE buffer 4 Hb).
    rewrite (proj2 (isU16_spec (dataSize m))) by lia. reflexivity.
  - exists again. split; [exact Hagain|].
    destruct (buildV50_pbc m again Hagain) as (_ & Hl & _). lia.
Qed.

Lemma parseV50_content_bound_witness :
  parseV50 [20; 0; 0; 0; 7; 0; 3; 0; 225; 0; 2; 0; 65; 66;
            3; 0; 0; 128; 2; 0; 65; 66]
  = Some {| packetByteCount := 20; minorVersion := 0;
            flags := {| unicode := false; screenControl := false |};
            screen := 7;
            displays := [ {| index := 3;
                             dRightTally := TS_RED; dTextTally := TS_OFF;
                             dLeftTally := TS_GREEN; dBrightness := BR_FULL;
                             text := [65; 66] |} ] |}
  /\ dataSize {| packetByteCount := 20; minorVersion := 0;
                 flags := {| unicode := false; screenControl := false |};
                 screen := 7;
                 displays := [ {| index := 3;
                                  dRightTally := TS_RED; dTextTally := TS_OFF;
                                  dLeftTally := TS_GREEN;
                                  dBrightness := BR_FULL;
                                  text := [65; 66] |} ] |} <= 20.
Proof.
  assert (H : parseV50 [20; 0; 0; 0; 7; 0; 3; 0; 225; 0; 2; 0; 65; 66;
                        3; 0; 0; 128; 2; 0; 65; 66]
              = Some {| packetByteCount := 20; minorVersion := 0;
                        flags := {| unicode := false;
                                    screenControl := false |};
                        screen := 7;
                        displays := [ {| index := 3;
                                         dRightTally := TS_RED;
                                         dTextTally := TS_OFF;
                                         dLeftTally := TS_GREEN;
                                         dBrightness := BR_FULL;
                                         text := [65; 66] |} ] |})
    by reflexivity.
  split; [exact H|].
  exact (proj1 (proj2 (parseV50_content_bound _ _ H))).
Defined.

Lemma u16_wrap (c : Z) :
  0 <= c <= 65535 -> c mod 256 + 256 * ((c / 256) mod 256) = c.
Proof.
  intros H. rewrite (Z.mod_small (c / 256)).
  - apply u16_recompose.
  - split; [apply Z.div_pos; lia|apply Z.div_lt_upper_bound; lia].
Qed.

Lemma text_decoded (uni : bool) (d : TslV50DisplayMessage) :
  isJsString (text d) = true ->
  (if uni then utf16leDecode (textBytes uni d)
   else asciiDecode (textBytes uni d))
  = text (decodedDisplay uni d).
Proof.
  intros Hs. unfold textBytes, decodedDisplay. cbn [text]. destruct uni.
  - apply utf16le_roundtrip. exact Hs.
  - unfold asciiDecode, asciiEncode. now rewrite map_map.
Qed.

Lemma walkStep_buildDisplay_any (uni : bool) (d : TslV50DisplayMessage)
    (b rest : Buffer) :
  buildDisplay uni d = Some b ->
  isJsString (text d) = true ->
  walkStep (b ++ rest) uni 0 = Some (length b, decodedDisplay uni d).
Proof.
  intros Hb Ht. apply buildDisplay_inv in Hb as (Hi & Hl & ->).
  set (tb := textBytes uni d) in *.
  unfold walkStep.
  replace ((length _ - 0 <? 6)%nat) with false
    by (symmetry; apply Nat.ltb_ge; cbn [length app]; lia).
  unfold readUInt16LE, byteAt. cbn [app nth Nat.add].
  destruct (displayControl_decode d) as (Hc & Hbit & Hr & Hx & Hlf & Hbr).
  cbn zeta in *.
  rewrite Hc, Hbit. cbn [Z.eqb negb].
  rewrite !u16_recompose, Nat2Z.id, Hr, Hx, Hlf, Hbr.
  replace ((_ <? length tb)%nat) with false
    by (symmetry; apply Nat.ltb_ge; cbn [length]; rewrite length_app; lia).
  assert (Hs : slice (index d mod 256 :: index d / 256
                      :: displayControl d mod 256 :: displayControl d / 256
                      :: Z.of_nat (length tb) mod 256
                      :: Z.of_nat (length tb) / 256 :: tb ++ rest)
                     6 (6 + length tb) = tb).
  { unfold slice. replace (6 + length tb - 6)%nat with (length tb) by lia.
    cbn [skipn]. now apply firstn_exact. }
  cbn [Nat.add] in Hs. rewrite Hs. subst tb.
  rewrite (text_decoded uni d Ht).
  do 2 f_equal; try reflexivity;
    cbn [length app]; rewrite ?length_app; lia.
Qed.

(** The loop on the bytes of encoded displays followed by bytes on which an
    iteration leaves the loop. *)
Lemma walk_buildDisplays_then_stop (uni : bool)
    (ds : list TslV50DisplayMessage) (junk : Buffer) :
  walkStep junk uni 0 = None ->
  forall pre bs acc fuel,
    buildDisplays uni ds = Some bs ->
    forallb (fun d => isJsString (text d)) ds = true ->
    (length ds < fuel)%nat ->
    walk fuel (pre ++ bs ++ junk) uni (length pre) acc
    = Some (acc ++ map (decodedDisplay uni) ds).
Proof.
  intros Hjunk.
  induction ds as [|d ds IH]; intros pre bs acc fuel Hbs Hv Hfuel;
    cbn [buildDisplays forallb] in Hbs, Hv.
  - injection Hbs as <-. cbn [app map]. rewrite app_nil_r.
    destruct fuel as [|fuel]; [lia|]. cbn [walk].
    destruct (length pre <? length (pre ++ junk))%nat; [|reflexivity].
    pose proof (walkStep_app_r pre junk uni 0) as Hshift.
    rewrite Nat.add_0_r, Hjunk in Hshift. now rewrite Hshift.
  - destruct (buildDisplay uni d) as [b|] eqn:Hd; [|discriminate].
    destruct (buildDisplays uni ds) as [bs'|] eqn:Hds; [|discriminate].
    injection Hbs as <-. apply andb_true_iff in Hv as [Hvd Hvs].
    destruct fuel as [|fuel]; [lia|].
    cbn [walk]. rewrite <- app_assoc.
    pose proof (walkStep_buildDisplay_any uni d b (bs' ++ junk) Hd Hvd)
      as Hstep.
    pose proof (walkStep_app_r pre (b ++ bs' ++ junk) uni 0) as Hshift.
    rewrite Nat.add_0_r, Hstep in Hshift. cbn [option_map fst snd] in Hshift.
    rewrite Hshift.
    assert (Hb6 : (6 <= length b)%nat).
    { apply buildDisplay_inv in Hd as (_ & _ & ->).
      rewrite length_app. cbn [length]. lia. }
    destruct (Nat.ltb_spec (length pre) (length (pre ++ b ++ bs' ++ junk)))
      as [_|Hge]; [|rewrite !length_app in Hge; lia].
    rewrite <- length_app, (app_assoc pre b).
    rewrite (IH (pre ++ b) bs' (acc ++ [decodedDisplay uni d]) fuel eq_refl Hvs)
      by (cbn [length] in Hfuel; lia).
    cbn [map]. now rewrite <- app_assoc.
Qed.

(** X11.  What [parse] makes of any message that [buildV50] encodes (size,
    screen and indices within 16 bits; texts of 16-bit code units): a V5.0
    message with the byte count recomputed, the minor version reduced modulo
    256, the same flags and screen, and, unless the screen-control flag is
    set (then no display comes back), the same displays in the same order,
    with the text unchanged in unicode mode and every code unit cut to 7 bits
    in ASCII mode. *)
Theorem parse_buildV50_any (m : TslV50Message) :
  encodableV50 m = true ->
  forallb (fun d => isJsString (text d)) (displays m) = true ->
  exists buf,
    buildV50 m = Some buf
    /\ parseV50 buf = Some (decodedV50 m)
    /\ parse buf = Some (MsgV50 (decodedV50 m)).
Proof.
  intros Henc Htext.
  destruct (buildV50_some m Henc) as [buf Hbuf].
  exists buf. split; [exact Hbuf|].
  destruct (buildV50_pbc m buf Hbuf) as (Hlen & Hsize & Hpbc).
  assert (Hparse : parseV50 buf = Some (decodedV50 m)).
  { apply buildV50_inv in Hbuf as (bs & Hbs & _ & _ & Hshape).
    unfold parseV50.
    destruct (Nat.ltb_spec (length buf) 6); [lia|].
    rewrite Hpbc.
    replace (Z.of_nat (length buf) - 2) with (dataSize m) by lia.
    rewrite Z.eqb_refl. cbn [negb].
    assert (H2 : byteAt buf 2 = u8 (minorVersion m))
      by (rewrite Hshape; reflexivity).
    assert (H3 : byteAt buf 3 = u8 (flagsByte (flags m)))
      by (rewrite Hshape; reflexivity).
    assert (H4 : readUInt16LE buf 4 = screen m).
    { rewrite Hshape. unfold readUInt16LE, byteAt. cbn [app nth Nat.add].
      apply u16_recompose. }
    rewrite H2, H3, H4.
    destruct (flagsByte_decode (flags m)) as [-> ->].
    unfold decodedV50.
    remember (dataSize m) as D eqn:HD in *.
    destruct m as [pbc ver [uni sc] scr ds].
    cbn [packetByteCount minorVersion flags screen displays unicode
           screenControl] in *.
    destruct sc; [reflexivity|].
    pose proof (walk_buildDisplays_then_stop uni ds [] eq_refl
                  [D mod 256; D / 256;
                   u8 ver; u8 (flagsByte (mkFlags uni false));
                   scr mod 256; scr / 256] bs [] (length buf) Hbs Htext)
      as Hwalk.
    rewrite app_nil_r, <- Hshape in Hwalk. cbn [length app] in Hwalk.
    rewrite Hwalk; [reflexivity|].
    pose proof (buildDisplays_length_ge uni ds bs Hbs).
    rewrite Hshape, length_app. cbn [length]. lia. }
  split; [exact Hparse|].
  unfold parse. rewrite detectVersion_V50_intro, Hparse; try reflexivity.
  - exact Hlen.
  - lia.
Qed.

Lemma parse_buildV50_any_witness :
  encodableV50 screenControlV50 = true
  /\ forallb (fun d => isJsString (text d)) (displays screenControlV50) = true
  /\ exists buf,
       buildV50 screenControlV50 = Some buf
       /\ parseV50 buf = Some (decodedV50 screenControlV50)
       /\ parse buf = Some (MsgV50 (decodedV50 screenControlV50)).
Proof.
  assert (H1 : encodableV50 screenControlV50 = true) by reflexivity.
  assert (H2 : forallb (fun d => isJsString (text d))
                       (displays screenControlV50) = true) by reflexivity.
  split; [exact H1|]. split; [exact H2|].
  exact (parse_buildV50_any screenControlV50 H1 H2).
Defined.

(** X12.  The display walk stops quietly.  Take six header bytes without the
    screen-control flag, then the bytes of displays as [buildV50] writes
    them, then trailing bytes on which an iteration leaves the loop (fewer
    than six bytes, or a control word with bit 15 set, or a declared text
    length beyond the end), the first 16 bits being the total length minus
    two.  [parseV50] accepts the buffer and returns exactly the displays
    before the trailing bytes; the trailing bytes are ignored, not an
    error. *)
Theorem parseV50_ignores_trailing (hdr bs junk : Buffer)
    (ds : list TslV50DisplayMessage) :
  length hdr = 6%nat ->
  readUInt16LE hdr 0 = Z.of_nat (length (hdr ++ bs ++ junk)) - 2 ->
  Z.land (byteAt hdr 3) 2 = 0 ->
  buildDisplays (negb (Z.land (byteAt hdr 3) 1 =? 0)) ds = Some bs ->
  forallb (fun d => isJsString (text d)) ds = true ->
  ((length junk < 6)%nat
   \/ Z.land (readUInt16LE junk 2) 32768 <> 0
   \/ (length junk - 6 < Z.to_nat (readUInt16LE junk 4))%nat) ->
  exists m,
    parseV50 (hdr ++ bs ++ junk) = Some m
    /\ displays m
       = map (decodedDisplay (negb (Z.land (byteAt hdr 3) 1 =? 0))) ds
    /\ packetByteCount m = Z.of_nat (length (hdr ++ bs ++ junk)) - 2.
Proof.
  intros Hl Hpbc Hsc Hbs Htext Hjunk.
  set (uni := negb (Z.land (byteAt hdr 3) 1 =? 0)) in *.
  assert (Hstop : walkStep junk uni 0 = None).
  { apply walkStep_none_iff. cbn [Nat.add]. rewrite Nat.sub_0_r.
    exact Hjunk. }
  assert (Hrd : forall k, (k < 6)%nat ->
                          byteAt (hdr ++ bs ++ junk) k = byteAt hdr k)
    by (intros k Hk; apply byteAt_app_l; lia).
  unfold parseV50.
  destruct (Nat.ltb_spec (length (hdr ++ bs ++ junk)) 6) as [Hlt|_];
    [rewrite length_app in Hlt; lia|].
  assert (Hp0 : readUInt16LE (hdr ++ bs ++ junk) 0 = readUInt16LE hdr 0)
    by (unfold readUInt16LE; rewrite !Hrd by (cbn; lia); reflexivity).
  rewrite Hp0, Hpbc, Z.eqb_refl. cbn [negb].
  rewrite !Hrd by lia. rewrite Hsc. cbn [Z.eqb negb].
  fold uni.
  pose proof (walk_buildDisplays_then_stop uni ds junk Hstop hdr bs []
                (length (hdr ++ bs ++ junk)) Hbs Htext) as Hwalk.
  rewrite Hl in Hwalk. rewrite Hwalk.
  - eexists. split; [reflexivity|]. split; reflexivity.
  - pose proof (buildDisplays_length_ge uni ds bs Hbs).
    rewrite !length_app. lia.
Qed.

(** Two displays, then a control-data entry (bit 15 of its control word
    set). *)
Lemma parseV50_ignores_trailing_witness :
  let d := {| index := 3; dRightTally := TS_RED; dTextTally := TS_OFF;
              dLeftTally := TS_GREEN; dBrightness := BR_FULL;
              text := [65; 66] |} in
  let hdr := [26; 0; 0; 0; 7; 0] in
  let bs := [3; 0; 225; 0; 2; 0; 65; 66; 3; 0; 225; 0; 2; 0; 65; 66] in
  let junk := [9; 0; 0; 128; 0; 0] in
  exists m,
    parseV50 (hdr ++ bs ++ junk) = Some m
    /\ displays m = map (decodedDisplay false) [d; d]
    /\ packetByteCount m = Z.of_nat (length (hdr ++ bs ++ junk)) - 2.
Proof.
  intros d hdr bs junk.
  apply (parseV50_ignores_trailing hdr bs junk [d; d]);
    try reflexivity.
  right. left. vm_compute. discriminate.
Defined.

(* ================================================================== *)
(** * TCP framing: delimiters, garbage and several frames *)
(* ================================================================== *)

Lemma findStart_some_split (buffer rest : Buffer) :
  findStart buffer = Some rest ->
  exists pre, buffer = pre ++ DLE :: STX :: rest
              /\ findStart (pre ++ [DLE]) = None.
Proof.
  revert rest. induction buffer as [|b0 tl IH]; intros rest;
    [discriminate|].
  destruct tl as [|b1 tl']; [discriminate|].
  rewrite findStart_cons2.
  destruct (Z.eqb_spec b0 DLE) as [->|Hb0]; cbn [andb].
  - destruct (Z.eqb_spec b1 STX) as [->|Hb1].
    + intros E. injection E as <-. exists []. split; reflexivity.
    + intros H. destruct (IH rest H) as (pre & Hpre & Hnone).
      exists (DLE :: pre). split; [cbn [app]; now rewrite Hpre|].
      cbn [app]. destruct pre as [|p0 pre'].
      * cbn [app] in *. reflexivity.
      * cbn [app] in *. rewrite findStart_cons2.
        injection Hpre as -> _.
        destruct (Z.eqb_spec p0 STX); [contradiction|].
        rewrite andb_false_r. exact Hnone.
  - intros H. destruct (IH rest H) as (pre & Hpre & Hnone).
    exists (b0 :: pre). split; [cbn [app]; now rewrite Hpre|].
    cbn [app]. destruct pre as [|p0 pre'].
    + cbn [app]. rewrite findStart_cons2.
      destruct (Z.eqb_spec b0 DLE); [contradiction|]. reflexivity.
    + cbn [app] in *. rewrite findStart_cons2.
      destruct (Z.eqb_spec b0 DLE); [contradiction|]. exact Hnone.
Qed.

Lemma findStart_app_delim (pre rest : Buffer) :
  findStart pre = None ->
  findStart (pre ++ DLE :: STX :: rest) = Some rest.
Proof.
  induction pre as [|p0 pre IH]; intros Hnone.
  - cbn [app]. rewrite findStart_cons2, !Z.eqb_refl. reflexivity.
  - destruct pre as [|p1 pre'].
    + cbn [app]. rewrite findStart_cons2.
      replace ((p0 =? DLE) && (DLE =? STX)) with false
        by (now rewrite andb_false_r).
      rewrite findStart_cons2, !Z.eqb_refl. reflexivity.
    + rewrite findStart_cons2 in Hnone. cbn [app].
      rewrite findStart_cons2.
      destruct ((p0 =? DLE) && (p1 =? STX)); [discriminate|].
      now apply IH.
Qed.

Lemma findStart_none_no_delim (buffer : Buffer) :
  findStart buffer = None ->
  forall pre rest, buffer <> pre ++ DLE :: STX :: rest.
Proof.
  intros Hnone pre. revert buffer Hnone.
  induction pre as [|p0 pre IH]; intros buffer Hnone rest E; subst buffer.
  - cbn [app] in Hnone. rewrite findStart_cons2, !Z.eqb_refl in Hnone.
    discriminate.
  - cbn [app] in Hnone.
    destruct (pre ++ DLE :: STX :: rest) as [|q0 tl] eqn:Etl;
      [now destruct pre|].
    rewrite findStart_cons2 in Hnone.
    destruct ((p0 =? DLE) && (q0 =? STX)); [discriminate|].
    rewrite <- Etl in Hnone. exact (IH _ Hnone rest eq_refl).
Qed.

(** X13.  [unwrapFromTcp] answers [null] exactly on the buffers that hold no
    DLE byte directly followed by an STX byte (so on every buffer of fewer
    than two bytes); otherwise it de-stuffs everything after the first such
    pair and drops what precedes it. *)
Theorem unwrapFromTcp_delimiter (buffer : Buffer) :
  (unwrapFromTcp buffer = None
   <-> forall pre rest, buffer <> pre ++ DLE :: STX :: rest)
  /\ (forall payload,
         unwrapFromTcp buffer = Some payload ->
         exists pre rest,
           buffer = pre ++ DLE :: STX :: rest
           /\ (forall pre' rest', pre ++ [DLE] <> pre' ++ DLE :: STX :: rest')
           /\ payload = destuff rest)
  /\ ((length buffer < 2)%nat -> unwrapFromTcp buffer = None).
Proof.
  unfold unwrapFromTcp. split; [|split].
  - destruct (findStart buffer) as [rest|] eqn:Hf.
    + split; [discriminate|]. intros H. exfalso.
      destruct (findStart_some_split _ _ Hf) as (pre & -> & _).
      exact (H pre rest eq_refl).
    + split; [intros _; now apply findStart_none_no_delim|reflexivity].
  - intros payload.
    destruct (findStart buffer) as [rest|] eqn:Hf; [|discriminate].
    intros E. injection E as <-.
    destruct (findStart_some_split _ _ Hf) as (pre & -> & Hnone).
    exists pre, rest. split; [reflexivity|]. split; [|reflexivity].
    now apply findStart_none_no_delim.
  - intros Hlen. destruct buffer as [|b0 [|b1 tl]]; try reflexivity.
    cbn [length] in Hlen. lia.
Qed.

Lemma unwrap_after_garbage (garbage x : Buffer) :
  unwrapFromTcp garbage = None ->
  unwrapFromTcp (garbage ++ wrapForTcp x) = Some x.
Proof.
  unfold unwrapFromTcp, wrapForTcp. intros Hg.
  destruct (findStart garbage) eqn:Hf; [discriminate|].
  rewrite (findStart_app_delim garbage _ Hf).
  now rewrite destuff_stuff.
Qed.

(** X14.  Resynchronisation: bytes that hold no DLE directly followed by STX,
    put in front of a frame, are skipped; [unwrapFromTcp] returns the payload
    of the frame. *)
Theorem unwrapFromTcp_skips_garbage (garbage x : Buffer) :
  unwrapFromTcp garbage = None ->
  unwrapFromTcp (garbage ++ wrapForTcp x) = Some x.
Proof.
  intros Hg. unfold unwrapFromTcp in *.
  destruct (findStart garbage) as [r|] eqn:Hf; [discriminate Hg|].
  unfold wrapForTcp.
  rewrite (findStart_app_delim garbage _ Hf).
  f_equal. apply destuff_stuff.
Qed.

Lemma unwrapFromTcp_skips_garbage_witness :
  unwrapFromTcp [1; 254; 254; 3] = None
  /\ unwrapFromTcp ([1; 254; 254; 3] ++ wrapForTcp [7; 254; 2])
     = Some [7; 254; 2].
Proof.
  assert (H : unwrapFromTcp [1; 254; 254; 3] = None) by reflexivity.
  split; [exact H|].
  exact (unwrapFromTcp_skips_garbage [1; 254; 254; 3] [7; 254; 2] H).
Defined.

Lemma destuff_stuff_app (x rest : Buffer) :
  destuff (flat_map (fun byte => if byte =? DLE then [byte; DLE] else [byte]) x
           ++ rest)
  = x ++ destuff rest.
Proof.
  induction x as [|b x IH]; [reflexivity|].
  cbn [flat_map].
  destruct (Z.eqb_spec b DLE) as [->|Hb].
  - cbn [app destuff]. rewrite Z.eqb_refl. cbn [andb]. now rewrite IH.
  - cbn [app]. rewrite destuff_cons_other by assumption. now rewrite IH.
Qed.

Lemma destuff_delim (s : Buffer) :
  destuff (DLE :: STX :: s) = DLE :: STX :: destuff s.
Proof.
  change (destuff (DLE :: STX :: s)) with (DLE :: destuff (STX :: s)).
  now rewrite destuff_cons_other by discriminate.
Qed.

(** X15.  The frame is taken to run to the end of the buffer: of two frames
    in one buffer, [unwrapFromTcp] returns the first payload, then the two
    delimiter bytes of the second frame as data, then the second payload; and
    bytes that follow a frame are de-stuffed into its payload. *)
Theorem unwrapFromTcp_two_frames (x y tail : Buffer) :
  unwrapFromTcp (wrapForTcp x ++ wrapForTcp y) = Some (x ++ DLE :: STX :: y)
  /\ unwrapFromTcp (wrapForTcp x ++ tail) = Some (x ++ destuff tail).
Proof.
  unfold unwrapFromTcp, wrapForTcp. cbn [app findStart].
  rewrite !Z.eqb_refl. cbn [andb].
  rewrite !destuff_stuff_app. split; [|reflexivity].
  now rewrite destuff_delim, destuff_stuff.
Qed.

Lemma wrapForTcp_length (x : Buffer) :
  length (wrapForTcp x)
  = (2 + length x + count_occ Z.eq_dec x DLE)%nat.
Proof.
  assert (H : length (flat_map (fun byte => if byte =? DLE then [byte; DLE]
                                            else [byte]) x)
              = (length x + count_occ Z.eq_dec x DLE)%nat).
  { induction x as [|b x IH]; [reflexivity|].
    cbn [flat_map count_occ]. rewrite length_app, IH.
    destruct (Z.eqb_spec b DLE) as [->|Hb].
    - destruct (Z.eq_dec DLE DLE); [|contradiction]. cbn [length]. lia.
    - destruct (Z.eq_dec b DLE); [contradiction|]. cbn [length]. lia. }
  unfold wrapForTcp. cbn [length]. rewrite H. lia.
Qed.

Lemma destuff_cons2 (b0 b1 : Z) (rest : Buffer) :
  destuff (b0 :: b1 :: rest)
  = if (b0 =? DLE) && (b1 =? DLE) then DLE :: destuff rest
    else b0 :: destuff (b1 :: rest).
Proof. reflexivity. Qed.

Lemma destuff_length (n : nat) :
  forall buf, (length buf <= n)%nat -> (length (destuff buf) <= length buf)%nat.
Proof.
  induction n as [|n IH]; intros buf Hn.
  - destruct buf; [cbn; lia|cbn [length] in Hn; lia].
  - destruct buf as [|b0 [|b1 rest]]; [cbn; lia|cbn; lia|].
    rewrite destuff_cons2. cbn [length] in Hn.
    destruct ((b0 =? DLE) && (b1 =? DLE)); cbn [length].
    + specialize (IH rest ltac:(lia)). lia.
    + specialize (IH (b1 :: rest) ltac:(cbn [length]; lia)).
      cbn [length] in IH. lia.
Qed.

Lemma destuff_is_buffer (n : nat) :
  forall buf, (length buf <= n)%nat -> is_buffer buf = true ->
              is_buffer (destuff buf) = true.
Proof.
  induction n as [|n IH]; intros buf Hn Hb.
  - destruct buf; [reflexivity|cbn [length] in Hn; lia].
  - destruct buf as [|b0 [|b1 rest]]; [assumption|assumption|].
    rewrite destuff_cons2.
    cbn [length] in Hn. rewrite !is_buffer_cons in Hb.
    apply andb_true_iff in Hb as [H0 Hb]. apply andb_true_iff in Hb as [H1 Hr].
    destruct ((b0 =? DLE) && (b1 =? DLE)); rewrite is_buffer_cons.
    + rewrite (IH rest ltac:(lia) Hr). reflexivity.
    + rewrite H0, (IH (b1 :: rest) ltac:(cbn [length]; lia)); [reflexivity|].
      now rewrite is_buffer_cons, H1, Hr.
Qed.

Lemma is_buffer_stuff (x : Buffer) :
  is_buffer x = true ->
  is_buffer (flat_map (fun byte => if byte =? DLE then [byte; DLE]
                                   else [byte]) x) = true.
Proof.
  induction x as [|b x IH]; [reflexivity|].
  rewrite is_buffer_cons. intros H. apply andb_true_iff in H as [Hb Hx].
  cbn [flat_map]. rewrite is_buffer_app, (IH Hx), andb_true_r.
  destruct (b =? DLE); rewrite ?is_buffer_cons, Hb; reflexivity.
Qed.

(** X16.  Sizes of the framing: [wrapForTcp] adds the two delimiter bytes and
    one byte per 0xFE byte of the payload, so a frame has between
    [length + 2] and [2 * length + 2] bytes and is again a byte sequence; what
    [unwrapFromTcp] returns is at least two bytes shorter than the buffer and
    holds only bytes. *)
Theorem framing_sizes (x : Buffer) :
  length (wrapForTcp x) = (2 + length x + count_occ Z.eq_dec x DLE)%nat
  /\ (2 + length x <= length (wrapForTcp x) <= 2 + 2 * length x)%nat
  /\ (is_buffer x = true -> is_buffer (wrapForTcp x) = true)
  /\ (forall payload,
         unwrapFromTcp x = Some payload ->
         (length payload + 2 <= length x)%nat
         /\ (is_buffer x = true -> is_buffer payload = true)).
Proof.
  split; [apply wrapForTcp_length|]. split; [|split].
  - rewrite wrapForTcp_length. pose proof (count_occ_bound Z.eq_dec DLE x).
    lia.
  - intros Hb. unfold wrapForTcp. rewrite !is_buffer_cons.
    change (is_byte DLE) with true. change (is_byte STX) with true.
    cbn [andb]. now apply is_buffer_stuff.
  - intros payload. unfold unwrapFromTcp.
    destruct (findStart x) as [rest|] eqn:Hf; [|discriminate].
    intros E. injection E as <-.
    destruct (findStart_some_split _ _ Hf) as (pre & -> & _).
    split.
    + pose proof (destuff_length _ rest (Nat.le_refl _)).
      rewrite length_app. cbn [length]. lia.
    + intros Hb. rewrite is_buffer_app, !is_buffer_cons in Hb.
      apply andb_true_iff in Hb as [_ Hb].
      apply andb_true_iff in Hb as [_ Hb].
      apply andb_true_iff in Hb as [_ Hb].
      now apply (destuff_is_buffer _ rest (Nat.le_refl _)).
Qed.

(* ================================================================== *)
(** * TcpServer.handleData: what is emitted *)
(* ================================================================== *)

Lemma findStart_tail (b : Z) (buffer : Buffer) :
  findStart (b :: buffer) = None -> findStart buffer = None.
Proof.
  destruct buffer as [|b1 tl]; [reflexivity|].
  rewrite findStart_cons2. destruct (_ && _); [discriminate|trivial].
Qed.

Lemma findStart_skipn (n : nat) :
  forall buffer, findStart buffer = None -> findStart (skipn n buffer) = None.
Proof.
  induction n as [|n IH]; intros buffer H; [exact H|].
  destruct buffer as [|b tl]; [exact H|].
  cbn [skipn]. apply IH. now apply findStart_tail in H.
Qed.

Lemma receiveLoop_no_delimiter (fuel : nat) :
  forall buf,
    (length buf <= fuel)%nat ->
    findStart buf = None ->
    exists ps,
      receiveLoop fuel buf = Some ([], ps)
      /\ concat (map rawData ps) = buf
      /\ forallb (fun p => negb (length (rawData p) =? 0)%nat) ps = true.
Proof.
  induction fuel as [|fuel IH]; intros buf Hfuel Hnone.
  - destruct buf; [|cbn [length] in Hfuel; lia]. now exists [].
  - cbn [receiveLoop].
    destruct (Nat.ltb_spec 0 (length buf)) as [Hpos|Hzero].
    2:{ destruct buf; [|cbn [length] in Hzero; lia]. now exists []. }
    unfold unwrapFromTcp. rewrite Hnone.
    assert (Hraw : exists ps,
               Some (([] : Buffer), [parsePacket buf]) = Some ([], ps)
               /\ concat (map rawData ps) = buf
               /\ forallb (fun p => negb (length (rawData p) =? 0)%nat) ps
                  = true).
    { exists [parsePacket buf]. split; [reflexivity|].
      unfold parsePacket. cbn [map concat rawData forallb].
      rewrite app_nil_r. split; [reflexivity|].
      destruct (Nat.eqb_spec (length buf) 0); [lia|reflexivity]. }
    assert (Hcont : forall n, (0 < n <= length buf)%nat ->
              exists ps,
                match receiveLoop fuel (skipn n buf) with
                | Some (b, ps) => Some (b, parsePacket (firstn n buf) :: ps)
                | None => None
                end = Some ([], ps)
                /\ concat (map rawData ps) = buf
                /\ forallb (fun p => negb (length (rawData p) =? 0)%nat) ps
                   = true).
    { intros n Hn.
      destruct (IH (skipn n buf)) as (ps & Hps & Hcat & Hne).
      - rewrite length_skipn. lia.
      - now apply findStart_skipn.
      - rewrite Hps. exists (parsePacket (firstn n buf) :: ps).
        split; [reflexivity|].
        unfold parsePacket at 1 2. cbn [map concat rawData forallb].
        rewrite Hcat, firstn_skipn. split; [reflexivity|].
        rewrite Hne, length_firstn.
        destruct (Nat.eqb_spec (Nat.min n (length buf)) 0); [lia|].
        reflexivity. }
    destruct (Nat.leb_spec 18 (length buf)) as [H18|]; [|exact Hraw].
    destruct (detectVersion buf) as [[| |]|]; try exact Hraw.
    + apply Hcont. lia.
    + destruct (Nat.leb_spec 22 (length buf)); [apply Hcont; lia|exact Hraw].
Qed.

(** X17.  [TcpServer.handleData] always ends with an empty receive buffer,
    whatever the bytes.  When the bytes at hand hold no DLE directly followed
    by STX, nothing is lost or repeated: the raw data of the emitted packets,
    put end to end, are exactly the bytes received, and no emitted packet is
    empty. *)
Theorem handleData_conserves_bytes (receiveBuffer data : Buffer) :
  (exists ps, handleData receiveBuffer data = Some ([], ps))
  /\ (unwrapFromTcp (receiveBuffer ++ data) = None ->
      exists ps,
        handleData receiveBuffer data = Some ([], ps)
        /\ concat (map rawData ps) = receiveBuffer ++ data
        /\ forallb (fun p => negb (length (rawData p) =? 0)%nat) ps = true).
Proof.
  split; [apply handleData_total|].
  intros Hnone. unfold handleData. apply receiveLoop_no_delimiter; [lia|].
  unfold unwrapFromTcp in Hnone.
  destruct (findStart (receiveBuffer ++ data)); [discriminate|reflexivity].
Qed.

(** X18.  A delimiter anywhere in the bytes at hand makes
    [TcpServer.handleData] emit one single packet: the de-stuffed bytes that
    follow the first delimiter, parsed; the bytes before the delimiter are
    dropped.  So a frame built by the handler 'build-v50-tcp' and delivered
    whole, even after bytes without delimiter, is emitted as one packet that
    decodes to the message. *)
Theorem handleData_frame (garbage : Buffer) (m : TslV50Message) :
  (forall buffer payload,
      unwrapFromTcp buffer = Some payload ->
      handleData [] buffer = Some ([], [parsePacket payload]))
  /\ (validV50 m = true ->
      unwrapFromTcp garbage = None ->
      exists frame,
        buildV50Tcp m = Some frame
        /\ handleData garbage frame
           = Some ([], [ {| rawData := destuff (skipn 2 frame);
                            parsed := Some (MsgV50 m);
                            failed := false |} ])).
Proof.
  assert (Hgen : forall buffer payload,
             unwrapFromTcp buffer = Some payload ->
             handleData [] buffer = Some ([], [parsePacket payload])).
  { intros buffer payload Hu. unfold handleData. cbn [app receiveLoop].
    destruct (Nat.ltb_spec 0 (length buffer)) as [_|Hz].
    - now rewrite Hu.
    - destruct buffer; [discriminate Hu|cbn [length] in Hz; lia]. }
  split; [exact Hgen|].
  intros Hv Hg.
  destruct (parse_buildV50 m Hv) as (buf & Hb & _ & Hp).
  exists (wrapForTcp buf). split; [unfold buildV50Tcp; now rewrite Hb|].
  pose proof (unwrap_after_garbage garbage buf Hg) as Hu.
  unfold handleData.
  assert (E : handleData [] (garbage ++ wrapForTcp buf)
              = Some ([], [parsePacket buf])) by (now apply Hgen).
  unfold handleData in E. cbn [app] in E. rewrite E.
  unfold parsePacket. rewrite Hp.
  unfold wrapForTcp. cbn [skipn]. now rewrite destuff_stuff.
Qed.

Lemma handleData_frame_witness :
  validV50 longTextV50 = true
  /\ unwrapFromTcp [1; 2; 3] = None
  /\ exists frame,
       buildV50Tcp longTextV50 = Some frame
       /\ handleData [1; 2; 3] frame
          = Some ([], [ {| rawData := destuff (skipn 2 frame);
                           parsed := Some (MsgV50 longTextV50);
                           failed := false |} ]).
Proof.
  assert (H1 : validV50 longTextV50 = true) by reflexivity.
  assert (H2 : unwrapFromTcp [1; 2; 3] = None) by reflexivity.
  split; [exact H1|]. split; [exact H2|].
  exact (proj2 (handleData_frame [1; 2; 3] longTextV50) H1 H2).
Defined.

(* ================================================================== *)
(** * TcpServer.handleData: streams of V3.1 and V4.0 packets *)
(* ================================================================== *)

(** The bytes that follow the 18 V3.1 bytes in a packet. *)
Lemma fixedBytes_split (f : FixedMessage) :
  exists suffix,
    fixedBytes f = buildV31 (fixedBase f) ++ suffix
    /\ forallb (fun b => negb (b =? DLE)) suffix = true
    /\ (length suffix = match f with FixedV31 _ => 0 | FixedV40 _ => 4 end)%nat.
Proof.
  destruct f as [m|m]; cbn [fixedBytes fixedBase].
  - exists []. now rewrite app_nil_r.
  - eexists. split; [reflexivity|]. split; [|reflexivity].
    cbn [forallb].
    pose proof (expectedChecksum_range (buildV31 (base m) ++ [0; 0; 0; 0])).
    assert (Ht : forall t, 0 <= u8 (buildTallyByte t) <= 63).
    { intros [l x r]. destruct l, x, r; vm_compute; split; discriminate. }
    pose proof (Ht (leftDisplay m)). pose proof (Ht (rightDisplay m)).
    unfold u8 at 1. rewrite Z.mod_small by lia.
    repeat (apply andb_true_iff; split); try reflexivity;
      apply negb_true_iff, Z.eqb_neq; unfold DLE; lia.
Qed.

Lemma fixedChunk_cons (f : FixedMessage) (grp : list FixedMessage) :
  fixedChunk (f :: grp) = fixedBytes f ++ fixedChunk grp.
Proof. reflexivity. Qed.

Lemma fixedBytes_length (f : FixedMessage) :
  length (fixedBytes f)
  = match f with FixedV31 _ => 18%nat | FixedV40 _ => 22%nat end.
Proof.
  destruct f; cbn [fixedBytes]; [apply buildV31_length|apply buildV40_length].
Qed.

Lemma unwrapFromTcp_fixedChunk (grp : list FixedMessage) :
  forallb (fun f => validV31 (fixedBase f)) grp = true ->
  fixedChunkOk grp = true ->
  unwrapFromTcp (fixedChunk grp) = None.
Proof.
  intros Hv Hok. unfold unwrapFromTcp.
  assert (H : findStart (fixedChunk grp) = None); [|now rewrite H].
  induction grp as [|f grp IH]; [reflexivity|].
  cbn [forallb fixedChunkOk] in Hv, Hok.
  apply andb_true_iff in Hv as [Hm Hg].
  apply andb_true_iff in Hok as [Hok Hrest].
  apply andb_true_iff in Hok as [Hstart _].
  rewrite fixedChunk_cons.
  destruct (fixedBytes_split f) as (suffix & -> & Hsuf & _).
  set (m := fixedBase f) in *.
  unfold buildV31. cbn [app]. rewrite findStart_cons2.
  assert (Hpair : (u8 (address m + 128) =? DLE)
                  && (u8 (controlByte m) =? STX) = false).
  { apply negb_true_iff in Hstart. unfold startsWithDleStx in Hstart.
    pose proof (validV31_spec m Hm) as [Ha _].
    unfold u8 at 1. rewrite Z.mod_small by lia.
    unfold DLE, STX.
    destruct (Z.eqb_spec (address m + 128) 254) as [E|E]; [|reflexivity].
    replace (address m) with 126 in Hstart by lia.
    exact Hstart. }
  rewrite Hpair.
  rewrite <- app_assoc.
  change (u8 (controlByte m)
          :: asciiEncode (pad16 (displayText m)) ++ suffix ++ fixedChunk grp)
    with ((u8 (controlByte m) :: asciiEncode (pad16 (displayText m)))
          ++ suffix ++ fixedChunk grp).
  rewrite (findStart_skip
             (u8 (controlByte m) :: asciiEncode (pad16 (displayText m)))
             (suffix ++ fixedChunk grp))
    by now apply buildV31_tail_no_DLE.
  rewrite (findStart_skip suffix (fixedChunk grp)) by exact Hsuf.
  now apply IH.
Qed.

Lemma fixedChunk_first_byte (f : FixedMessage) (grp : list FixedMessage) :
  validV31 (fixedBase f) = true ->
  128 <= byteAt (fixedChunk (f :: grp)) 0.
Proof.
  intros Hv. rewrite fixedChunk_cons.
  destruct (fixedBytes_split f) as (suffix & -> & _).
  rewrite <- app_assoc.
  destruct (buildV31_header (fixedBase f) (suffix ++ fixedChunk grp) Hv)
    as [-> _].
  apply validV31_spec in Hv as [Ha _]. lia.
Qed.

Lemma detectVersion_fixedChunk (f : FixedMessage)
    (grp : list FixedMessage) :
  forallb (fun f => validV31 (fixedBase f)) (f :: grp) = true ->
  fixedChunkOk (f :: grp) = true ->
  detectVersion (fixedChunk (f :: grp))
  = Some match f with FixedV31 _ => V3_1 | FixedV40 _ => V4_0 end.
Proof.
  intros Hv Hok. cbn [forallb fixedChunkOk] in Hv, Hok.
  apply andb_true_iff in Hv as [Hm Hg].
  apply andb_true_iff in Hok as [Hok _].
  apply andb_true_iff in Hok as [_ Halias].
  apply negb_true_iff, Z.eqb_neq in Halias.
  assert (Hpbc : readUInt16LE (fixedChunk (f :: grp)) 0
                 <> Z.of_nat (length (fixedChunk (f :: grp))) - 2).
  { rewrite fixedChunk_cons at 1.
    destruct (fixedBytes_split f) as (suffix & -> & _).
    rewrite <- app_assoc, buildV31_pbc by exact Hm. exact Halias. }
  assert (Hhdr : headerInRange (byteAt (fixedChunk (f :: grp)) 0) = true).
  { rewrite fixedChunk_cons.
    destruct (fixedBytes_split f) as (suffix & -> & _).
    rewrite <- app_assoc. now apply buildV31_header. }
  destruct f as [m|m].
  - apply detectVersion_V31_intro; try assumption.
    + rewrite fixedChunk_cons, length_app, fixedBytes_length. lia.
    + destruct grp as [|f' grp'].
      * left. rewrite fixedChunk_cons, length_app, fixedBytes_length.
        reflexivity.
      * right. rewrite fixedChunk_cons. cbn [fixedBytes].
        rewrite (byteAt_after_buildV31 m _ 0).
        cbn [forallb] in Hg. apply andb_true_iff in Hg as [Hf' _].
        pose proof (fixedChunk_first_byte f' grp' Hf').
        pose proof (expectedChecksum_range
                      (buildV31 m ++ fixedChunk (f' :: grp'))).
        lia.
  - unfold detectVersion.
    assert (Hlen : (22 <= length (fixedChunk (FixedV40 m :: grp)))%nat)
      by (rewrite fixedChunk_cons, length_app, fixedBytes_length; lia).
    destruct (Nat.ltb_spec (length (fixedChunk (FixedV40 m :: grp))) 2);
      [lia|].
    destruct (Z.eqb_spec (readUInt16LE (fixedChunk (FixedV40 m :: grp)) 0)
                (Z.of_nat (length (fixedChunk (FixedV40 m :: grp))) - 2));
      [contradiction|].
    rewrite andb_false_r, Hhdr.
    destruct (Nat.ltb_spec 18 (length (fixedChunk (FixedV40 m :: grp))));
      [|lia].
    assert (Hck : byteAt (fixedChunk (FixedV40 m :: grp)) 18
                  = expectedChecksum (fixedChunk (FixedV40 m :: grp))).
    { rewrite fixedChunk_cons. cbn [fixedBytes].
      rewrite byteAt_app_l by (rewrite buildV40_length; lia).
      rewrite buildV40_checksum.
      apply expectedChecksum_prefix.
      rewrite firstn_app, buildV40_length. cbn [Nat.sub firstn].
      now rewrite app_nil_r. }
    now rewrite Hck, Z.eqb_refl.
Qed.

Lemma parsePacket_fixedBytes (f : FixedMessage) :
  validV31 (fixedBase f) = true ->
  parsePacket (fixedBytes f)
  = {| rawData := fixedBytes f;
       parsed := Some (fixedDecoded f);
       failed := false |}.
Proof.
  intros Hv. unfold parsePacket.
  destruct f as [m|m]; cbn [fixedBytes fixedDecoded fixedBase] in *.
  - now rewrite (proj2 (parse_buildV31 m Hv)).
  - now rewrite (proj2 (parse_buildV40 m Hv)).
Qed.

Lemma receiveLoop_fixedChunk (grp : list FixedMessage) :
  forall fuel,
    forallb (fun f => validV31 (fixedBase f)) grp = true ->
    fixedChunkOk grp = true ->
    (length grp <= fuel)%nat ->
    receiveLoop fuel (fixedChunk grp)
    = Some ([], map (fun f => {| rawData := fixedBytes f;
                                 parsed := Some (fixedDecoded f);
                                 failed := false |}) grp).
Proof.
  induction grp as [|f grp IH]; intros fuel Hv Hok Hfuel.
  - destruct fuel; reflexivity.
  - destruct fuel as [|fuel]; [cbn [length] in Hfuel; lia|].
    cbn [receiveLoop].
    assert (Hlen : length (fixedChunk (f :: grp))
                   = (length (fixedBytes f) + length (fixedChunk grp))%nat)
      by (rewrite fixedChunk_cons; apply length_app).
    pose proof (fixedBytes_length f) as Hfl.
    destruct (Nat.ltb_spec 0 (length (fixedChunk (f :: grp))));
      [|destruct f; lia].
    rewrite (unwrapFromTcp_fixedChunk _ Hv Hok).
    destruct (Nat.leb_spec 18 (length (fixedChunk (f :: grp))));
      [|destruct f; lia].
    rewrite (detectVersion_fixedChunk f grp Hv Hok).
    cbn [forallb fixedChunkOk] in Hv, Hok.
    apply andb_true_iff in Hv as [Hm Hg].
    apply andb_true_iff in Hok as [_ Hrest].
    assert (Hcut : forall n, length (fixedBytes f) = n ->
                firstn n (fixedChunk (f :: grp)) = fixedBytes f
                /\ skipn n (fixedChunk (f :: grp)) = fixedChunk grp).
    { intros n <-. rewrite fixedChunk_cons. split.
      - now apply firstn_exact.
      - rewrite skipn_app, Nat.sub_diag, skipn_all. reflexivity. }
    destruct f as [m|m].
    + destruct (Hcut 18%nat Hfl) as [-> ->].
      rewrite (IH fuel Hg Hrest) by (cbn [length] in Hfuel; lia).
      now rewrite (parsePacket_fixedBytes _ Hm).
    + destruct (Nat.leb_spec 22 (length (fixedChunk (FixedV40 m :: grp))));
        [|lia].
      destruct (Hcut 22%nat Hfl) as [-> ->].
      rewrite (IH fuel Hg Hrest) by (cbn [length] in Hfuel; lia).
      now rewrite (parsePacket_fixedBytes _ Hm).
Qed.

Lemma fixedChunk_length_ge (grp : list FixedMessage) :
  (length grp <= length (fixedChunk grp))%nat.
Proof.
  induction grp as [|f grp IH]; [cbn; lia|].
  rewrite fixedChunk_cons, length_app, fixedBytes_length.
  cbn [length]. destruct f; lia.
Qed.

(** X19.  Streams that mix V3.1 and V4.0 packets.  When every chunk holds
    whole packets (18 bytes for V3.1, 22 for V4.0, in any order) of valid
    messages, no packet starts with the delimiter bytes FE 02 and no packet
    has first 16 bits equal to the number of bytes from its start to the end
    of its chunk minus two, [TcpServer.handleData] emits one Parsed Packet
    per message, in order, with the packet as raw data and the message
    (text padded to 16) as decoded content, each decoded in its own
    version. *)
Theorem handleChunks_fixed_packets (groups : list (list FixedMessage)) :
  forallb (forallb (fun f => validV31 (fixedBase f))) groups = true ->
  forallb fixedChunkOk groups = true ->
  handleChunks [] (map fixedChunk groups)
  = Some ([], map (fun f => {| rawData := fixedBytes f;
                               parsed := Some (fixedDecoded f);
                               failed := false |}) (concat groups)).
Proof.
  induction groups as [|grp groups IH]; intros Hv Hok; [reflexivity|].
  cbn [forallb] in Hv, Hok.
  apply andb_true_iff in Hv as [Hv1 Hv2].
  apply andb_true_iff in Hok as [Hok1 Hok2].
  cbn [map handleChunks]. unfold handleData. cbn [app].
  rewrite (receiveLoop_fixedChunk grp _ Hv1 Hok1)
    by (pose proof (fixedChunk_length_ge grp); lia).
  rewrite (IH Hv2 Hok2). cbn [concat]. now rewrite map_app.
Qed.

Lemma handleChunks_fixed_packets_witness :
  let groups := [[FixedV40 darkV40; FixedV31 cam1]; [FixedV40 darkV40]] in
  forallb (forallb (fun f => validV31 (fixedBase f))) groups = true
  /\ forallb fixedChunkOk groups = true
  /\ handleChunks [] (map fixedChunk groups)
     = Some ([], map (fun f => {| rawData := fixedBytes f;
                                  parsed := Some (fixedDecoded f);
                                  failed := false |}) (concat groups)).
Proof.
  intro groups.
  assert (H1 : forallb (forallb (fun f => validV31 (fixedBase f))) groups
               = true) by reflexivity.
  assert (H2 : forallb fixedChunkOk groups = true) by reflexivity.
  split; [exact H1|]. split; [exact H2|].
  exact (handleChunks_fixed_packets groups H1 H2).
Defined.

(* ================================================================== *)
(** * TcpClient.handleData *)
(* ================================================================== *)

Lemma findStart_prefix (a b : Buffer) :
  findStart (a ++ b) = None -> findStart a = None.
Proof.
  intros H. destruct (findStart a) as [r|] eqn:Ha; [|reflexivity].
  exfalso. destruct (findStart_some_split _ _ Ha) as (pre & -> & _).
  apply (findStart_none_no_delim _ H pre (r ++ b)).
  now rewrite <- app_assoc.
Qed.

Lemma clientLoop_no_delimiter (fuel : nat) :
  forall buf,
    (length buf <= fuel)%nat ->
    findStart buf = None ->
    exists rem ps,
      clientLoop fuel buf = Some (rem, ps)
      /\ concat (map rawData ps) ++ rem = buf
      /\ (length rem < 22)%nat
      /\ forallb (fun p => (length (rawData p) =? 18)%nat
                           || (length (rawData p) =? 22)%nat) ps = true.
Proof.
  induction fuel as [|fuel IH]; intros buf Hfuel Hnone.
  - destruct buf; [|cbn [length] in Hfuel; lia].
    exists [], []. repeat split; cbn; lia.
  - cbn [clientLoop].
    destruct (Nat.ltb_spec 0 (length buf)) as [Hpos|Hzero].
    2:{ exists buf, []. repeat split; lia. }
    unfold unwrapFromTcp. rewrite Hnone.
    destruct (Nat.leb_spec 18 (length buf)) as [H18|H18].
    2:{ exists buf, []. repeat split; lia. }
    set (packetLen := match detectVersion buf with
                      | Some V4_0 => 22%nat
                      | _ => 18%nat
                      end).
    assert (Hpl : packetLen = 18%nat \/ packetLen = 22%nat)
      by (unfold packetLen; destruct (detectVersion buf) as [[| |]|]; auto).
    destruct (Nat.leb_spec packetLen (length buf)) as [Hfit|Hshort].
    2:{ exists buf, []. repeat split; lia. }
    destruct (IH (skipn packetLen buf)) as (rem & ps & Hps & Hcat & Hrem & Hsz).
    + rewrite length_skipn. lia.
    + now apply findStart_skipn.
    + rewrite Hps. exists rem, (clientPacket (firstn packetLen buf) :: ps).
      split; [reflexivity|].
      cbn [map concat forallb].
      change (rawData (clientPacket (firstn packetLen buf)))
        with (firstn packetLen buf).
      rewrite <- app_assoc, Hcat, firstn_skipn, Hsz, length_firstn.
      repeat split; try assumption.
      replace (Nat.min packetLen (length buf)) with packetLen by lia.
      destruct Hpl as [-> | ->]; reflexivity.
Qed.

Lemma clientLoop_total (fuel : nat) (buf : Buffer) :
  (length buf <= fuel)%nat ->
  exists rem ps, clientLoop fuel buf = Some (rem, ps).
Proof.
  revert buf. induction fuel as [|fuel IH]; intros buf Hfuel.
  - destruct buf; [|cbn [length] in Hfuel; lia]. now exists [], [].
  - cbn [clientLoop].
    destruct (0 <? length buf)%nat; [|eauto].
    destruct (unwrapFromTcp buf); [eauto|].
    destruct (18 <=? length buf)%nat; [|eauto].
    destruct (Nat.leb_spec
                (match detectVersion buf with
                 | Some V4_0 => 22
                 | _ => 18
                 end) (length buf)) as [Hfit|]; [|eauto].
    destruct (IH (skipn
                    (match detectVersion buf with
                     | Some V4_0 => 22
                     | _ => 18
                     end) buf)) as (rem & ps & ->); [|eauto].
    rewrite length_skipn.
    destruct (detectVersion buf) as [[| |]|]; lia.
Qed.

(** X20.  [TcpClient.handleData] always ends, and unlike the server it keeps
    what it cannot cut.  When the bytes at hand hold no DLE directly followed
    by STX, every emitted packet has exactly 18 or 22 bytes, fewer than 22
    bytes stay in the receive buffer, and the emitted raw data followed by the
    bytes kept are exactly the bytes at hand: nothing is lost, repeated or
    emitted as a short remainder. *)
Theorem clientHandleData_conserves_bytes (receiveBuffer data : Buffer) :
  (exists rem ps, clientHandleData receiveBuffer data = Some (rem, ps))
  /\ (unwrapFromTcp (receiveBuffer ++ data) = None ->
      exists rem ps,
        clientHandleData receiveBuffer data = Some (rem, ps)
        /\ concat (map rawData ps) ++ rem = receiveBuffer ++ data
        /\ (length rem < 22)%nat
        /\ forallb (fun p => (length (rawData p) =? 18)%nat
                             || (length (rawData p) =? 22)%nat) ps = true)
  /\ ((length (receiveBuffer ++ data) < 18)%nat ->
      unwrapFromTcp (receiveBuffer ++ data) = None ->
      clientHandleData receiveBuffer data = Some (receiveBuffer ++ data, [])).
Proof.
  split; [|split].
  - unfold clientHandleData. apply clientLoop_total. lia.
  - intros Hnone. unfold clientHandleData.
    apply clientLoop_no_delimiter; [lia|].
    unfold unwrapFromTcp in Hnone.
    destruct (findStart (receiveBuffer ++ data)); [discriminate|reflexivity].
  - intros Hlen Hnone. unfold clientHandleData. cbn [clientLoop].
    rewrite Hnone.
    destruct (0 <? length (receiveBuffer ++ data))%nat; [|reflexivity].
    destruct (Nat.leb_spec 18 (length (receiveBuffer ++ data)));
      [lia|reflexivity].
Qed.

Lemma findStart_chunkOf (msgs : list TslBaseMessage) :
  forallb validV31 msgs = true ->
  forallb (fun m => negb (startsWithDleStx m)) msgs = true ->
  findStart (chunkOf msgs) = None.
Proof.
  intros Hv Hok.
  induction msgs as [|m msgs IH]; [reflexivity|].
  cbn [forallb] in Hv, Hok.
  apply andb_true_iff in Hv as [Hm Hg].
  apply andb_true_iff in Hok as [Hstart Hrest].
  rewrite chunkOf_cons. unfold buildV31. cbn [app].
  rewrite findStart_cons2.
  assert (Hpair : (u8 (address m + 128) =? DLE)
                  && (u8 (controlByte m) =? STX) = false).
  { apply negb_true_iff in Hstart. unfold startsWithDleStx in Hstart.
    pose proof (validV31_spec m Hm) as [Ha _].
    unfold u8 at 1. rewrite Z.mod_small by lia.
    unfold DLE, STX.
    destruct (Z.eqb_spec (address m + 128) 254) as [E|E]; [|reflexivity].
    replace (address m) with 126 in Hstart by lia.
    exact Hstart. }
  rewrite Hpair.
  change (u8 (controlByte m)
          :: asciiEncode (pad16 (displayText m)) ++ chunkOf msgs)
    with ((u8 (controlByte m) :: asciiEncode (pad16 (displayText m)))
          ++ chunkOf msgs).
  rewrite (findStart_skip
             (u8 (controlByte m) :: asciiEncode (pad16 (displayText m)))
             (chunkOf msgs))
    by now apply buildV31_tail_no_DLE.
  now apply IH.
Qed.

Lemma streamOk_no_start (msgs : list TslBaseMessage) :
  streamOk msgs = true ->
  forallb (fun m => negb (startsWithDleStx m)) msgs = true.
Proof.
  induction msgs as [|m msgs IH]; [reflexivity|].
  cbn [streamOk forallb]. intros H.
  apply andb_true_iff in H as [H Hrest]. apply andb_true_iff in H as [-> _].
  now rewrite IH.
Qed.

Lemma streamOk_app_r (grp rest : list TslBaseMessage) :
  streamOk (grp ++ rest) = true -> streamOk rest = true.
Proof.
  induction grp as [|m grp IH]; [trivial|].
  cbn [app streamOk]. intros H.
  apply andb_true_iff in H as [_ H]. now apply IH.
Qed.

Lemma chunkOf_app (a b : list TslBaseMessage) :
  chunkOf (a ++ b) = chunkOf a ++ chunkOf b.
Proof. unfold chunkOf. now rewrite map_app, concat_app. Qed.

Lemma chunkOf_first_byte (m : TslBaseMessage) (msgs : list TslBaseMessage) :
  validV31 m = true -> 128 <= byteAt (chunkOf (m :: msgs)) 0.
Proof.
  intros Hv. rewrite chunkOf_cons.
  destruct (buildV31_header m (chunkOf msgs) Hv) as [-> _].
  apply validV31_spec in Hv as [Ha _]. lia.
Qed.

(** The loop on whole packets followed by the first bytes, fewer than 18, of
    the next packet: the packets are emitted and the first bytes are kept. *)
Lemma clientLoop_stream (grp : list TslBaseMessage) :
  forall fuel rest p tail,
    forallb validV31 (grp ++ rest) = true ->
    streamOk (grp ++ rest) = true ->
    p ++ tail = chunkOf rest ->
    (length p < 18)%nat ->
    (length grp < fuel)%nat ->
    clientLoop fuel (chunkOf grp ++ p)
    = Some (p, map (fun m => {| rawData := buildV31 m;
                                parsed := Some (MsgV31 (padded m));
                                failed := false |}) grp).
Proof.
  induction grp as [|m grp IH]; intros fuel rest p tail Hv Hok Hp Hlp Hfuel.
  - cbn [chunkOf map concat app] in *.
    destruct fuel as [|fuel]; [lia|]. cbn [clientLoop].
    destruct (0 <? length p)%nat; [|reflexivity].
    assert (Hnone : findStart p = None).
    { apply (findStart_prefix p tail). rewrite Hp.
      apply findStart_chunkOf; [exact Hv|now apply streamOk_no_start]. }
    unfold unwrapFromTcp. rewrite Hnone.
    destruct (Nat.leb_spec 18 (length p)); [lia|reflexivity].
  - destruct fuel as [|fuel]; [lia|].
    assert (Hwhole : (chunkOf (m :: grp) ++ p) ++ tail
                     = chunkOf ((m :: grp) ++ rest))
      by (rewrite chunkOf_app, <- app_assoc, Hp; reflexivity).
    assert (Hnone : findStart (chunkOf (m :: grp) ++ p) = None).
    { apply (findStart_prefix _ tail). rewrite Hwhole.
      apply findStart_chunkOf; [exact Hv|now apply streamOk_no_start]. }
    assert (Hlen : length (chunkOf (m :: grp) ++ p)
                   = (18 + 18 * length grp + length p)%nat)
      by (rewrite length_app, chunkOf_length; cbn [length]; lia).
    assert (Htot : (length p <= 18 * length rest)%nat).
    { rewrite <- chunkOf_length, <- Hp, length_app. lia. }
    cbn [app forallb streamOk] in Hv, Hok.
    apply andb_true_iff in Hv as [Hm Hg].
    apply andb_true_iff in Hok as [Hok Hrest].
    apply andb_true_iff in Hok as [_ Halias].
    apply Z.ltb_lt in Halias. rewrite length_app in Halias.
    cbn [clientLoop].
    destruct (Nat.ltb_spec 0 (length (chunkOf (m :: grp) ++ p))); [|lia].
    unfold unwrapFromTcp. rewrite Hnone.
    destruct (Nat.leb_spec 18 (length (chunkOf (m :: grp) ++ p))); [|lia].
    assert (Hd : detectVersion (chunkOf (m :: grp) ++ p) = Some V3_1).
    { rewrite chunkOf_cons, <- app_assoc.
      apply detectVersion_V31_intro.
      - rewrite length_app, buildV31_length. lia.
      - now apply buildV31_header.
      - rewrite buildV31_pbc by exact Hm.
        rewrite chunkOf_cons, <- app_assoc in Hlen. rewrite Hlen. lia.
      - destruct (chunkOf grp ++ p) as [|b0 tl] eqn:Enext.
        + left. rewrite app_nil_r. apply buildV31_length.
        + right. rewrite (byteAt_after_buildV31 m _ 0).
          assert (Hb0 : 128 <= b0).
          { assert (Hfirst : byteAt (chunkOf (grp ++ rest)) 0 = b0).
            { rewrite chunkOf_app, <- Hp, app_assoc, Enext. reflexivity. }
            destruct (grp ++ rest) as [|m' r'] eqn:Egr.
            - exfalso.
              assert (Hz : length (chunkOf grp ++ p) = 0%nat).
              { apply app_eq_nil in Egr as [-> ->].
                cbn [chunkOf map concat app] in *.
                destruct p; [reflexivity|discriminate Hp]. }
              rewrite Enext in Hz. discriminate Hz.
            - cbn [forallb] in Hg. apply andb_true_iff in Hg as [Hm' _].
              rewrite <- Hfirst. now apply chunkOf_first_byte. }
          pose proof (expectedChecksum_range (buildV31 m ++ b0 :: tl)).
          cbn [byteAt nth]. lia. }
    rewrite Hd.
    destruct (Nat.leb_spec 18 (length (chunkOf (m :: grp) ++ p))); [|lia].
    rewrite chunkOf_cons, <- app_assoc, firstn18_buildV31_app.
    replace (skipn 18 (buildV31 m ++ chunkOf grp ++ p))
      with (chunkOf grp ++ p).
    2:{ rewrite skipn_app, buildV31_length, Nat.sub_diag.
        rewrite skipn_all2 by (rewrite buildV31_length; lia).
        reflexivity. }
    rewrite (IH fuel rest p tail Hg Hrest Hp Hlp)
      by (cbn [length] in Hfuel; lia).
    unfold clientPacket. rewrite (proj2 (parse_buildV31 m Hm)).
    reflexivity.
Qed.

(** A prefix of a stream of packets is whole packets followed by fewer than
    18 bytes of the next one. *)
Lemma stream_prefix_split (msgs : list TslBaseMessage) :
  forall B tail,
    B ++ tail = chunkOf msgs ->
    exists grp rest p,
      msgs = grp ++ rest
      /\ B = chunkOf grp ++ p
      /\ p ++ tail = chunkOf rest
      /\ (length p < 18)%nat.
Proof.
  induction msgs as [|m msgs IH]; intros B tail HB.
  - exists [], [], B. cbn [chunkOf map concat app] in *.
    apply app_eq_nil in HB as [-> ->]. repeat split. cbn. lia.
  - destruct (Nat.lt_ge_cases (length B) 18) as [Hlt|Hge].
    + exists [], (m :: msgs), B. repeat split; assumption.
    + rewrite chunkOf_cons in HB.
      assert (H1 : firstn 18 B = buildV31 m).
      { rewrite <- (firstn18_buildV31_app m (chunkOf msgs)), <- HB.
        rewrite firstn_app.
        replace (18 - length B)%nat with 0%nat by lia.
        cbn [firstn]. now rewrite app_nil_r. }
      assert (H2 : skipn 18 B ++ tail = chunkOf msgs).
      { assert (E : skipn 18 (B ++ tail) = chunkOf msgs).
        { rewrite HB, skipn_app, buildV31_length, Nat.sub_diag.
          rewrite skipn_all2 by (rewrite buildV31_length; lia).
          reflexivity. }
        rewrite skipn_app in E.
        replace (18 - length B)%nat with 0%nat in E by lia.
        exact E. }
      destruct (IH (skipn 18 B) tail H2) as (grp & rest & p & -> & E & Hp & Hl).
      exists (m :: grp), rest, p. repeat split; try assumption.
      rewrite chunkOf_cons, <- app_assoc, <- E, <- H1.
      symmetry. apply firstn_skipn.
Qed.

Lemma clientHandleChunks_stream (chunks : list Buffer) :
  forall rest p,
    forallb validV31 rest = true ->
    streamOk rest = true ->
    (length p < 18)%nat ->
    p ++ concat chunks = chunkOf rest ->
    clientHandleChunks p chunks
    = Some ([], map (fun m => {| rawData := buildV31 m;
                                 parsed := Some (MsgV31 (padded m));
                                 failed := false |}) rest).
Proof.
  induction chunks as [|c cs IH]; intros rest p Hv Hok Hlp Hp.
  - cbn [concat] in Hp. rewrite app_nil_r in Hp.
    assert (rest = []).
    { destruct rest as [|m r]; [reflexivity|].
      rewrite Hp, chunkOf_length in Hlp. cbn [length] in Hlp. lia. }
    subst rest. cbn [chunkOf map concat] in Hp. subst p. reflexivity.
  - cbn [concat] in Hp. rewrite app_assoc in Hp.
    destruct (stream_prefix_split rest (p ++ c) (concat cs) Hp)
      as (grp & rest' & p' & -> & EB & Hp' & Hl').
    cbn [clientHandleChunks]. unfold clientHandleData. rewrite EB.
    rewrite (clientLoop_stream grp _ rest' p' (concat cs) Hv Hok Hp' Hl').
    + rewrite forallb_app in Hv. apply andb_true_iff in Hv as [_ Hv'].
      rewrite (IH rest' p' Hv' (streamOk_app_r _ _ Hok) Hl' Hp').
      now rewrite map_app.
    + rewrite length_app, chunkOf_length. lia.
Qed.

(** X21.  [TcpClient.handleData] reassembles V3.1 packets across chunk
    boundaries.  For every stream of valid V3.1 messages in which no packet
    starts with the delimiter bytes FE 02 and every packet has first 16 bits
    larger than the number of bytes from its start to the end of the stream
    minus two, and for every way of cutting the stream into chunks, the
    client emits exactly one packet per message, in order, whose raw data are
    the 18 bytes of the packet and whose decoded content is the message (text
    padded to 16), and its receive buffer is empty at the end. *)
Theorem clientHandleChunks_any_split (msgs : list TslBaseMessage)
    (chunks : list Buffer) :
  forallb validV31 msgs = true ->
  streamOk msgs = true ->
  concat chunks = chunkOf msgs ->
  clientHandleChunks [] chunks
  = Some ([], map (fun m => {| rawData := buildV31 m;
                               parsed := Some (MsgV31 (padded m));
                               failed := false |}) msgs).
Proof.
  intros Hv Hok Hc.
  apply clientHandleChunks_stream; try assumption; cbn [length app]; lia.
Qed.

(** Two "CAM 1" packets cut after 10, 25 and 26 bytes. *)
Lemma clientHandleChunks_any_split_witness :
  let msgs := [cam1; cam1] in
  let s := chunkOf msgs in
  let chunks := [firstn 10 s; firstn 15 (skipn 10 s);
                 firstn 1 (skipn 25 s); skipn 26 s] in
  forallb validV31 msgs = true
  /\ streamOk msgs = true
  /\ concat chunks = chunkOf msgs
  /\ clientHandleChunks [] chunks
     = Some ([], map (fun m => {| rawData := buildV31 m;
                                  parsed := Some (MsgV31 (padded m));
                                  failed := false |}) msgs).
Proof.
  intros msgs s chunks.
  assert (H1 : forallb validV31 msgs = true) by reflexivity.
  assert (H2 : streamOk msgs = true) by reflexivity.
  assert (H3 : concat chunks = chunkOf msgs) by reflexivity.
  split; [exact H1|]. split; [exact H2|]. split; [exact H3|].
  exact (clientHandleChunks_any_split msgs chunks H1 H2 H3).
Defined.

(** A stream of at most seven valid packets none of which starts with FE 02
    satisfies [streamOk]: its first 16 bits are at least 128, more than any
    buffer length minus two. *)
Lemma streamOk_short (msgs : list TslBaseMessage) :
  forallb validV31 msgs = true ->
  forallb (fun m => negb (startsWithDleStx m)) msgs = true ->
  (length msgs <= 7)%nat ->
  streamOk msgs = true.
Proof.
  induction msgs as [|m msgs IH]; [reflexivity|].
  cbn [forallb streamOk length]. intros Hv Hs Hl.
  apply andb_true_iff in Hv as [Hm Hv]. apply andb_true_iff in Hs as [-> Hs].
  rewrite (IH Hv Hs) by lia. rewrite andb_true_r. cbn [negb andb].
  apply Z.ltb_lt. apply validV31_spec in Hm as [Ha _].
  destruct (controlByte_decode m) as (Hc & _). cbn zeta in Hc. lia.
Qed.

(* ================================================================== *)
(** * The helpers createSimpleV31 and createSimpleV50 *)
(* ================================================================== *)

(** X22.  [createSimpleV50] returns a buffer exactly when the index and the
    screen fit 16 bits and the text has at most 65525 code units (else
    [writeUInt16LE] throws).  The buffer then has 12 bytes plus one per code
    unit, and for a 7-bit ASCII text [parse] decodes it to a V5.0 message
    with byte count 10 plus the text length, minor version 0, both flags
    off, the given screen and one display: the given index, tallies,
    brightness and text, with the text tally off. *)
Theorem createSimpleV50_spec (idx : Z) (txt : JsString)
    (left right : TallyState) (bright : Brightness) (scr : Z) :
  ((exists buf, createSimpleV50 idx txt left right bright scr = Some buf)
   <-> isU16 idx = true /\ isU16 scr = true
       /\ Z.of_nat (length txt) <= 65525)
  /\ (forall buf,
         createSimpleV50 idx txt left right bright scr = Some buf ->
         Z.of_nat (length buf) = 12 + Z.of_nat (length txt)
         /\ (forallb isAscii7 txt = true ->
             parse buf
             = Some (MsgV50
                       {| packetByteCount := 10 + Z.of_nat (length txt);
                          minorVersion := 0;
                          flags := {| unicode := false;
                                      screenControl := false |};
                          screen := scr;
                          displays :=
                            [ {| index := idx;
                                 dRightTally := right;
                                 dTextTally := TS_OFF;
                                 dLeftTally := left;
                                 dBrightness := bright;
                                 text := txt |} ] |}))).
Proof.
  unfold createSimpleV50.
  set (d := {| index := idx; dRightTally := right; dTextTally := TS_OFF;
               dLeftTally := left; dBrightness := bright; text := txt |}).
  set (fl := {| unicode := false; screenControl := false |}).
  assert (Hsz : forall pbc, dataSize (mkV50 pbc 0 fl scr [d])
                            = 10 + Z.of_nat (length txt)).
  { intros pbc. rewrite dataSize_eq. cbn [displays flags unicode fold_right fl].
    rewrite displaySize_eq. unfold textBytes, asciiEncode. cbn [text d].
    rewrite length_map. lia. }
  split.
  - rewrite buildV50_some_iff. unfold encodableV50. rewrite Hsz.
    cbn [displays screen forallb index d].
    rewrite andb_true_r, !andb_true_iff, !isU16_spec. lia.
  - intros buf Hb.
    destruct (buildV50_pbc _ buf Hb) as (_ & Hl & _). rewrite Hsz in Hl.
    split; [lia|]. intros Hascii.
    pose proof (proj1 (buildV50_some_iff _) (ex_intro _ buf Hb)) as He.
    unfold encodableV50 in He. rewrite Hsz in He.
    cbn [displays screen forallb index d] in He.
    rewrite andb_true_r, !andb_true_iff in He. destruct He as [[Hd Hs] Hi].
    assert (Hv : validV50 (mkV50 (10 + Z.of_nat (length txt)) 0 fl scr [d])
                 = true).
    { unfold validV50, validDisplay. rewrite Hsz.
      cbn [packetByteCount minorVersion flags screen displays unicode
             screenControl forallb text index d fl negb orb].
      rewrite Z.eqb_refl, Hd, Hs, Hi, Hascii. reflexivity. }
    destruct (parse_buildV50 _ Hv) as (buf' & Hb' & _ & Hp').
    change (buildV50 (mkV50 0 0 fl scr [d]) = Some buf') in Hb'.
    assert (buf' = buf) by congruence.
    subst buf'. exact Hp'.
Qed.

(** X23.  [createSimpleV31] always returns 18 bytes, with tallies 3 and 4
    off.  [parseV31] reads them back exactly when the address modulo 256 is
    at most 126; for an address in 0..126 and a text whose first 16
    characters are printable, [parse] returns the V3.1 message with the given
    address, tallies 1 and 2, brightness and the text padded to 16. *)
Theorem createSimpleV31_spec (addr : Z) (txt : JsString) (t1 t2 : bool)
    (bright : Brightness) :
  length (createSimpleV31 addr txt t1 t2 bright) = 18%nat
  /\ parseV31 (createSimpleV31 addr txt t1 t2 bright)
     = (if addr mod 256 <=? 126
        then Some {| address := addr mod 256;
                     tally1 := t1; tally2 := t2;
                     tally3 := false; tally4 := false;
                     brightness := bright;
                     displayText := sanitize16 txt |}
        else None)
  /\ (0 <= addr <= 126 ->
      forallb isPrintable (firstn 16 txt) = true ->
      parse (createSimpleV31 addr txt t1 t2 bright)
      = Some (MsgV31 {| address := addr;
                        tally1 := t1; tally2 := t2;
                        tally3 := false; tally4 := false;
                        brightness := bright;
                        displayText := pad16 txt |})).
Proof.
  unfold createSimpleV31. split; [apply buildV31_length|]. split.
  - rewrite <- (app_nil_r (buildV31 _)).
    destruct (Z.leb_spec (addr mod 256) 126) as [Hle|Hgt].
    + now apply parseV31_buildV31_in_range.
    + now apply parseV31_buildV31_out_of_range.
  - intros Ha Ht.
    set (m := {| address := addr; tally1 := t1; tally2 := t2;
                 tally3 := false; tally4 := false;
                 brightness := bright; displayText := txt |}).
    assert (Hv : validV31 m = true).
    { unfold validV31. cbn [m address displayText]. rewrite Ht.
      apply andb_true_iff. split; [|reflexivity].
      apply andb_true_iff. rewrite !Z.leb_le. lia. }
    exact (proj2 (parse_buildV31 m Hv)).
Qed.

(* ================================================================== *)
(** * hexDump *)
(* ================================================================== *)

Lemma hexDigit_printable (d : Z) :
  0 <= d < 16 -> isPrintable (hexDigit d) = true.
Proof.
  intros H. unfold hexDigit. apply isPrintable_spec.
  destruct (Z.ltb_spec d 10); lia.
Qed.

Lemma hexDigitValue_hexDigit (d : Z) :
  0 <= d < 16 -> hexDigitValue (hexDigit d) = d.
Proof.
  intros H. unfold hexDigit, hexDigitValue.
  destruct (Z.ltb_spec d 10).
  - destruct (Z.ltb_spec (48 + d) 58); lia.
  - destruct (Z.ltb_spec (87 + d) 58); lia.
Qed.

Lemma hexValue_snoc (s : JsString) (c : Z) :
  hexValue (s ++ [c]) = 16 * hexValue s + hexDigitValue c.
Proof. unfold hexValue. now rewrite fold_left_app. Qed.

(** With fuel above [n] the digits are complete: they are printable, at least
    one, at most [k] when [n < 16 ^ k], and their value is [n]. *)
Lemma toHexFuel_spec (fuel : nat) :
  forall n, 0 <= n < Z.of_nat fuel ->
    forallb isPrintable (toHexFuel fuel n) = true
    /\ (1 <= length (toHexFuel fuel n))%nat
    /\ hexValue (toHexFuel fuel n) = n
    /\ forall k, (1 <= k)%nat -> n < 16 ^ Z.of_nat k ->
                 (length (toHexFuel fuel n) <= k)%nat.
Proof.
  induction fuel as [|fuel IH]; intros n Hn; [lia|].
  cbn [toHexFuel].
  destruct (Z.ltb_spec n 16) as [Hlt|Hge].
  - cbn [forallb length]. rewrite hexDigit_printable by lia.
    repeat split; try lia.
    unfold hexValue. cbn [fold_left]. rewrite hexDigitValue_hexDigit; lia.
  - assert (Hq : 0 <= n / 16 < Z.of_nat fuel).
    { split; [apply Z.div_pos; lia|].
      apply Z.div_lt_upper_bound; lia. }
    pose proof (Z.mod_pos_bound n 16 ltac:(lia)) as Hr.
    destruct (IH (n / 16) Hq) as (Hp & Hl & Hval & Hk).
    rewrite forallb_app, Hp, length_app, hexValue_snoc, Hval.
    cbn [forallb length]. rewrite hexDigit_printable by lia.
    rewrite hexDigitValue_hexDigit by lia.
    repeat split; try lia.
    + pose proof (Z.div_mod n 16). lia.
    + intros k Hk1 Hnk.
      destruct k as [|[|k]]; [lia| |].
      * change (16 ^ Z.of_nat 1) with 16 in Hnk. lia.
      * assert (n / 16 < 16 ^ Z.of_nat (S k)).
        { apply Z.div_lt_upper_bound; [lia|].
          rewrite (Nat2Z.inj_succ (S k)), Z.pow_succ_r in Hnk by lia.
          exact Hnk. }
        specialize (Hk (S k) ltac:(lia) H). lia.
Qed.

Lemma toString16_spec (n : Z) :
  0 <= n ->
  forallb isPrintable (toString16 n) = true
  /\ (1 <= length (toString16 n))%nat
  /\ hexValue (toString16 n) = n
  /\ forall k, (1 <= k)%nat -> n < 16 ^ Z.of_nat k ->
               (length (toString16 n) <= k)%nat.
Proof.
  intros Hn. unfold toString16. apply toHexFuel_spec. lia.
Qed.

Lemma padStart_length (s : JsString) (n : nat) (c : Z) :
  length (padStart s n c) = Nat.max n (length s).
Proof. unfold padStart. rewrite length_app, repeat_length. lia. Qed.

Lemma padEnd_length (s : JsString) (n : nat) (c : Z) :
  length (padEnd s n c) = Nat.max n (length s).
Proof. unfold padEnd. rewrite length_app, repeat_length. lia. Qed.

Lemma forallb_repeat (c : Z) (n : nat) (P : Z -> bool) :
  P c = true -> forallb P (repeat c n) = true.
Proof.
  intros H. apply forallb_forall. intros x Hx.
  apply repeat_spec in Hx. now subst x.
Qed.

Lemma hexByte_spec (b : Z) :
  0 <= b <= 255 ->
  length (hexByte b) = 2%nat /\ forallb isPrintable (hexByte b) = true.
Proof.
  intros Hb. unfold hexByte.
  destruct (toString16_spec b ltac:(lia)) as (Hp & Hl & _ & Hk).
  specialize (Hk 2%nat ltac:(lia) ltac:(change (16 ^ Z.of_nat 2) with 256; lia)).
  rewrite padStart_length. split; [lia|].
  unfold padStart. rewrite forallb_app, Hp, forallb_repeat; reflexivity.
Qed.

Lemma join_cons (sep p : JsString) (rest : list JsString) :
  rest <> [] -> join sep (p :: rest) = p ++ sep ++ join sep rest.
Proof. destruct rest; [contradiction|reflexivity]. Qed.

Lemma join_hex (bytes : Buffer) :
  is_buffer bytes = true ->
  length (join [32] (map hexByte bytes)) = (3 * length bytes - 1)%nat
  /\ forallb isPrintable (join [32] (map hexByte bytes)) = true.
Proof.
  induction bytes as [|b bytes IH]; [split; reflexivity|].
  rewrite is_buffer_cons. intros H. apply andb_true_iff in H as [Hb Hbs].
  unfold is_byte in Hb. apply andb_true_iff in Hb as [H0 H1].
  apply Z.leb_le in H0, H1.
  destruct (hexByte_spec b ltac:(lia)) as [Hl Hp].
  destruct bytes as [|b' bytes'].
  - cbn [map join length]. rewrite Hl, Hp. split; [lia|reflexivity].
  - destruct (IH Hbs) as [IHl IHp].
    cbn [map]. rewrite join_cons by discriminate.
    cbn [map] in IHl, IHp.
    rewrite !length_app, !forallb_app, Hl, Hp, IHl, IHp.
    cbn [length forallb]. split; [lia|reflexivity].
Qed.

Lemma is_buffer_firstn (n : nat) :
  forall buffer, is_buffer buffer = true ->
                 is_buffer (firstn n buffer) = true.
Proof.
  induction n as [|n IH]; intros [|b buffer] H; try reflexivity.
  cbn [firstn]. rewrite is_buffer_cons in *.
  apply andb_true_iff in H as [-> H]. now rewrite IH.
Qed.

Lemma is_buffer_skipn (n : nat) :
  forall buffer, is_buffer buffer = true ->
                 is_buffer (skipn n buffer) = true.
Proof.
  induction n as [|n IH]; intros [|b buffer] H; try assumption;
    try reflexivity.
  cbn [skipn]. rewrite is_buffer_cons in H.
  apply andb_true_iff in H as [_ H]. now apply IH.
Qed.

Lemma is_buffer_slice (buffer : Buffer) (a b : nat) :
  is_buffer buffer = true -> is_buffer (slice buffer a b) = true.
Proof.
  intros H. unfold slice. now apply is_buffer_firstn, is_buffer_skipn.
Qed.

Lemma asciiColumn_printable (b : Z) : isPrintable (asciiColumn b) = true.
Proof.
  unfold asciiColumn, isPrintable.
  destruct ((32 <=? b) && (b <=? 126)) eqn:E; [exact E|reflexivity].
Qed.

Lemma hexLine_spec (buffer : Buffer) (i : nat) :
  is_buffer buffer = true ->
  (i < length buffer)%nat ->
  forallb isPrintable (hexLine buffer i) = true
  /\ (Z.of_nat i < 65536 ->
      length (hexLine buffer i)
      = (56 + Nat.min 16 (length buffer - i))%nat)
  /\ skipn (length (hexLine buffer i) - Nat.min 16 (length buffer - i))
           (hexLine buffer i)
     = map asciiColumn (slice buffer i (Nat.min (i + 16) (length buffer))).
Proof.
  intros Hb Hi. unfold hexLine.
  set (sl := slice buffer i (Nat.min (i + 16) (length buffer))).
  assert (Hsl : length sl = Nat.min 16 (length buffer - i)).
  { unfold sl. rewrite length_slice by lia. lia. }
  destruct (join_hex sl (is_buffer_slice buffer _ _ Hb)) as [Hjl Hjp].
  destruct (toString16_spec (Z.of_nat i) ltac:(lia)) as (Hop & Hol & _ & Hok).
  split; [|split].
  - unfold padStart, padEnd.
    rewrite !forallb_app, Hop, Hjp, !forallb_repeat by reflexivity.
    cbn [forallb andb].
    apply forallb_forall. intros c Hc.
    apply in_map_iff in Hc as (b & <- & _). apply asciiColumn_printable.
  - intros Hoff.
    specialize (Hok 4%nat ltac:(lia)
                  ltac:(change (16 ^ Z.of_nat 4) with 65536; lia)).
    rewrite !length_app, padStart_length, padEnd_length, Hjl, length_map, Hsl.
    cbn [length]. lia.
  - rewrite !app_assoc. rewrite skipn_app.
    rewrite (length_app _ (map asciiColumn sl)), length_map, Hsl.
    replace (_ + Nat.min 16 (length buffer - i)
             - Nat.min 16 (length buffer - i))%nat
      with (length ((((padStart (toString16 (Z.of_nat i)) 4 48 ++ [32; 32])
                        ++ padEnd (join [32] (map hexByte sl)) 48 32)
                       ++ [32; 32]))) by lia.
    rewrite skipn_all, Nat.sub_diag. reflexivity.
Qed.

Lemma hexDumpLines_spec (fuel : nat) (buffer : Buffer) :
  is_buffer buffer = true ->
  forall i,
    (length buffer - i <= fuel)%nat ->
    length (hexDumpLines fuel buffer i) = ((length buffer - i + 15) / 16)%nat
    /\ forallb (forallb isPrintable) (hexDumpLines fuel buffer i) = true
    /\ forall k, (k < length (hexDumpLines fuel buffer i))%nat ->
                 nth k (hexDumpLines fuel buffer i) []
                 = hexLine buffer (i + 16 * k).
Proof.
  intros Hb. induction fuel as [|fuel IH]; intros i Hfuel.
  - cbn [hexDumpLines length forallb].
    replace (length buffer - i)%nat with 0%nat by lia.
    repeat split. intros k Hk. lia.
  - cbn [hexDumpLines].
    destruct (Nat.ltb_spec i (length buffer)) as [Hlt|Hge].
    + destruct (IH (i + 16)%nat ltac:(lia)) as (Hl & Hp & Hn).
      cbn [length forallb]. rewrite Hl, Hp.
      rewrite (proj1 (hexLine_spec buffer i Hb Hlt)).
      split; [|split; [reflexivity|]].
      * destruct (Nat.le_gt_cases 16 (length buffer - i)) as [Hbig|Hsmall].
        -- replace (length buffer - i + 15)%nat
             with (length buffer - (i + 16) + 15 + 1 * 16)%nat by lia.
           rewrite Nat.div_add by lia. lia.
        -- replace (length buffer - (i + 16))%nat with 0%nat by lia.
           replace (length buffer - i + 15)%nat
             with (length buffer - i - 1 + 1 * 16)%nat by lia.
           rewrite Nat.div_add by lia.
           rewrite (Nat.div_small (length buffer - i - 1) 16) by lia.
           reflexivity.
      * intros [|k] Hk; cbn [nth].
        -- f_equal. lia.
        -- rewrite Hn by lia. f_equal. lia.
    + cbn [length forallb].
      replace (length buffer - i)%nat with 0%nat by lia.
      repeat split. intros k Hk. lia.
Qed.

Lemma join_newline (lines : list JsString) :
  forallb (forallb isPrintable) lines = true ->
  forallb (fun c => isPrintable c || (c =? 10)) (join [10] lines) = true
  /\ count_occ Z.eq_dec (join [10] lines) 10 = (length lines - 1)%nat.
Proof.
  assert (Hline : forall l, forallb isPrintable l = true ->
             forallb (fun c => isPrintable c || (c =? 10)) l = true
             /\ count_occ Z.eq_dec l 10 = 0%nat).
  { intros l Hl. split.
    - rewrite forallb_forall in *. intros c Hc. now rewrite (Hl c Hc).
    - apply count_occ_not_In. intros Hin.
      rewrite forallb_forall in Hl. specialize (Hl 10 Hin). discriminate. }
  induction lines as [|l lines IH]; [split; reflexivity|].
  cbn [forallb]. intros H. apply andb_true_iff in H as [Hl Hls].
  destruct (Hline l Hl) as [Hl1 Hl2].
  destruct lines as [|l' lines'].
  - cbn [join length]. split; assumption.
  - destruct (IH Hls) as [IH1 IH2].
    rewrite join_cons by discriminate.
    rewrite !forallb_app, !count_occ_app, Hl1, Hl2, IH1, IH2.
    cbn [forallb count_occ length]. split; [reflexivity|].
    destruct (Z.eq_dec 10 10); [lia|contradiction].
Qed.

(** X24.  Layout of [hexDump] for a buffer of bytes: there is one line per
    16 bytes (none for the empty buffer, and the dump of the empty buffer is
    the empty string), the lines are separated by single newlines, and every
    other character is printable ASCII; line [k] starts at offset [16 * k],
    it ends with the bytes of the line as characters, printable bytes as
    themselves and the others as '.', and while the offset is below 0x10000
    it has exactly 56 characters plus one per byte of the line (72 for a
    full line). *)
Theorem hexDump_layout (buffer : Buffer) :
  is_buffer buffer = true ->
  let lines := hexDumpLines (length buffer) buffer 0 in
  hexDump buffer = join [10] lines
  /\ length lines = ((length buffer + 15) / 16)%nat
  /\ hexDump [] = []
  /\ forallb (fun c => isPrintable c || (c =? 10)) (hexDump buffer) = true
  /\ count_occ Z.eq_dec (hexDump buffer) 10 = (length lines - 1)%nat
  /\ forall k,
       (k < length lines)%nat ->
       let n := Nat.min 16 (length buffer - 16 * k) in
       nth k lines [] = hexLine buffer (16 * k)
       /\ skipn (length (nth k lines []) - n) (nth k lines [])
          = map asciiColumn (slice buffer (16 * k) (16 * k + n))
       /\ (Z.of_nat (16 * k) < 65536 ->
           length (nth k lines []) = (56 + n)%nat).
Proof.
  intros Hb lines.
  destruct (hexDumpLines_spec (length buffer) buffer Hb 0 ltac:(lia))
    as (Hl & Hp & Hn).
  fold lines in Hl, Hp, Hn. rewrite Nat.sub_0_r in Hl.
  destruct (join_newline lines Hp) as [Hj1 Hj2].
  split; [reflexivity|]. split; [exact Hl|]. split; [reflexivity|].
  split; [exact Hj1|]. split; [exact Hj2|].
  intros k Hk n. rewrite (Hn k Hk). cbn [Nat.add].
  assert (Hin : (16 * k < length buffer)%nat).
  { rewrite Hl in Hk.
    pose proof (Nat.div_mod_eq (length buffer + 15) 16).
    pose proof (Nat.mod_upper_bound (length buffer + 15) 16 ltac:(lia)).
    lia. }
  destruct (hexLine_spec buffer (16 * k) Hb Hin) as (_ & Hlen & Hasc).
  split; [reflexivity|]. split; [|exact Hlen].
  fold n in Hasc. rewrite Hasc. do 2 f_equal. unfold n. lia.
Qed.

Lemma hexDump_layout_witness :
  hexDump (buildV31 cam1)
  = [48; 48; 48; 48; 32; 32;
     56; 49; 32; 51; 49; 32; 52; 51; 32; 52; 49; 32; 52; 100; 32; 50; 48; 32;
     51; 49; 32; 50; 48; 32; 50; 48; 32; 50; 48; 32; 50; 48; 32; 50; 48; 32;
     50; 48; 32; 50; 48; 32; 50; 48; 32; 50; 48; 32; 32; 32;
     46; 49; 67; 65; 77; 32; 49; 32; 32; 32; 32; 32; 32; 32; 32; 32;
     10;
     48; 48; 49; 48; 32; 32; 50; 48; 32; 50; 48]
    ++ repeat 32 45 ++ [32; 32]
  /\ count_occ Z.eq_dec (hexDump (buildV31 cam1)) 10 = 1%nat.
Proof.
  split; [vm_compute; reflexivity|].
  assert (Hb : is_buffer (buildV31 cam1) = true) by reflexivity.
  destruct (hexDump_layout (buildV31 cam1) Hb) as (_ & Hl & _ & _ & Hc & _).
  rewrite Hc, Hl. reflexivity.
Defined.

(** X25.  The encoders write bytes only, whatever the field values: an
    address, a minor version or a code unit out of range is reduced modulo
    256 by the store.  [buildV31] returns 18 bytes and [buildV40] 22, always;
    [buildV50], when it does not throw, returns the computed size plus two
    bytes; and framing bytes gives bytes. *)
Theorem encoders_write_bytes :
  (forall m : TslBaseMessage,
      is_buffer (buildV31 m) = true /\ length (buildV31 m) = 18%nat)
  /\ (forall m : TslV40Message,
         is_buffer (buildV40 m) = true /\ length (buildV40 m) = 22%nat)
  /\ (forall (m : TslV50Message) (buf : Buffer),
         buildV50 m = Some buf ->
         is_buffer buf = true
         /\ Z.of_nat (length buf) = dataSize m + 2
         /\ 6 <= Z.of_nat (length buf) <= 65537)
  /\ (forall (m : TslV50Message) (frame : Buffer),
         buildV50Tcp m = Some frame -> is_buffer frame = true).
Proof.
  split; [|split; [|split]].
  - intros m. split; [apply is_buffer_buildV31|apply buildV31_length].
  - intros m. split; [apply is_buffer_buildV40|apply buildV40_length].
  - intros m buf H. split; [now apply (is_buffer_buildV50 m)|].
    destruct (buildV50_pbc m buf H) as (H6 & Hl & _).
    apply buildV50_inv in H as (_ & _ & Hsz & _).
    apply isU16_spec in Hsz. repeat split; try assumption; lia.
  - intros m frame. unfold buildV50Tcp.
    destruct (buildV50 m) as [buf|] eqn:Hb; [|discriminate].
    intros E. injection E as <-.
    pose proof (is_buffer_buildV50 m buf Hb) as Hbuf.
    unfold wrapForTcp. rewrite !is_buffer_cons.
    change (is_byte DLE) with true. change (is_byte STX) with true.
    cbn [andb]. now apply is_buffer_stuff.
Qed.
